(** * Retail inventory: order placement, compensation and customer removal

    A shallow embedding of [src/services/order_service.py],
    [src/services/customer_service.py], [src/dao/order_dao.py] and
    [src/dao/customer_dao.py]. The table client ([src/config.py]) and
    [src/dao/product_dao.py] are not among the sources; what the code above
    uses of them is modelled from the specification and marked as such.

    The hosted store is a value of type [DB] (four tables, the serial
    counters of the generated keys and the clock that stamps [order_date]).
    Every [.execute()] of the table client is one round trip; a round trip
    may raise, which is driven by a fault schedule carried next to the
    tables.  Python exceptions are an explicit outcome, and the store keeps
    whatever was written before an exception was raised. *)

From Stdlib Require Import ZArith List String Bool Lia.
From Stdlib Require Import Sorted Permutation Ascii.
Import ListNotations.
Open Scope Z_scope.

(** ** Exceptions *)

(** [OrderError] carries a message; the messages of [order_service.py] are
    kept apart by constructor, the interpolated values are their arguments.
    The two wrapping messages carry the exception they were built from. *)
Inductive exn : Type :=
| StoreFault
| TypeError
| AttributeError
| OrderError (m : order_msg)
| CustomerNotFoundError (cust : Z)
| CustomerDeleteError (cust : Z) (n : nat)
| CustomerError
with order_msg : Type :=
| CustomerNotFound
| ProductNotFound (prod : Z)
| QuantityMustBePositive
| OutOfStock (name : string) (available required : Z)
| FailedToCreateOrder (cause : exn)
| OrderNotFound
| OnlyPlacedCanBeCancelled
| FailedToCancelOrder (cause : exn).

Inductive outcome (A : Type) : Type :=
| Ok (a : A)
| Raise (e : exn).
Arguments Ok {A} a.
Arguments Raise {A} e.

(** ** A state and exception monad

    [M S A] is a computation over a state [S] that returns an [A] or raises.
    The state is returned in both cases. *)
Definition M (S A : Type) : Type := S -> outcome A * S.

Section Monad.
Context {S : Type}.

Definition ret {A} (a : A) : M S A := fun s => (Ok a, s).

Definition raise {A} (e : exn) : M S A := fun s => (Raise e, s).

Definition bind {A B} (m : M S A) (k : A -> M S B) : M S B :=
    fun s => match m s with
             | (Ok a, s') => k a s'
             | (Raise e, s') => (Raise e, s')
             end.

(** [try: m except Exception as e: h e] *)
Definition try_except {A} (m : M S A) (h : exn -> M S A) : M S A :=
    fun s => match m s with
             | (Ok a, s') => (Ok a, s')
             | (Raise e, s') => h e s'
             end.

(** A computed outcome, returned or raised. *)
Definition of_outcome {A} (o : outcome A) : M S A := fun s => (o, s).

Definition gets {A} (f : S -> A) : M S A := fun s => (Ok (f s), s).

Definition modify (f : S -> S) : M S unit := fun s => (Ok tt, f s).

(** [for x in l: body x] *)
Fixpoint for_each {A} (l : list A) (body : A -> M S unit) : M S unit :=
    match l with
    | [] => ret tt
    | x :: l' => bind (body x) (fun _ => for_each l' body)
    end.
End Monad.

Declare Scope monad_scope.
Delimit Scope monad_scope with monad.
Notation "x <- m ;; k" := (bind m (fun x => k))
  (at level 61, m at next level, right associativity) : monad_scope.
Notation "m ;;; k" := (bind m (fun _ => k))
  (at level 61, right associativity) : monad_scope.
Open Scope monad_scope.

(** ** Ordering and limiting rows *)

Section Rows.
Context {A : Type} (key : A -> Z).

(** [x] goes in front of [y]; on equal keys the row met first stays first. *)
Definition goes_before (desc : bool) (x y : A) : bool :=
    if desc then key y <=? key x else key x <=? key y.

Fixpoint insert_row (desc : bool) (x : A) (l : list A) : list A :=
    match l with
    | [] => [x]
    | y :: l' => if goes_before desc x y then x :: l
                 else y :: insert_row desc x l'
    end.

(** Modelled from the spec: the [.order(column, desc)] of the select of
    section 6, which belongs to the table client and is not among the
    sources; a stable insertion sort on the column [key]. *)
Definition order_rows (desc : bool) (l : list A) : list A :=
    fold_right (insert_row desc) [] l.
End Rows.

(** Modelled from the spec: the [.limit(n)] of the select of section 6. *)
Definition limit {A} (n : nat) (l : list A) : list A := firstn n l.

(** [resp.data[0] if resp.data else None] *)
Definition first_row {A} (l : list A) : option A := hd_error l.

(** ** Amounts

    Amounts are Python floats. The development is parametric in them:
    [padd] is float addition, [pscale q p] is [q * p] for an int [q],
    [pzero] is the [0] that [sum] starts from, and [price_eq_dec] is the
    equality that the filter [.eq("total_amount", v)] applies. No law of
    arithmetic is assumed of them. The equality is Leibniz equality: an
    amount that differs from itself (a NaN) is outside the model. *)
Class Money (price : Type) : Type := {
    price_eq_dec : forall x y : price, {x = y} + {x <> y};
    padd : price -> price -> price;
    pscale : Z -> price -> price;
    pzero : price
}.

(** Amounts counted in cents: the instance on which the model is run. *)
#[global] Instance cents : Money Z := {
    price_eq_dec := Z.eq_dec;
    padd := Z.add;
    pscale := Z.mul;
    pzero := 0
}.

Section Model.
Context {price : Type} {money : Money price}.

(** ** Rows of the four tables *)

Record Customer : Type := mkCustomer {
    cust_id : Z;
    c_name : string;
    c_email : string;
    c_phone : string;
    c_city : option string
}.

(** A NULL stock is [None]; the code reads it with [prod.get("stock") or 0]. *)
Record Product : Type := mkProduct {
    prod_id : Z;
    p_name : string;
    p_price : price;
    p_stock : option Z
}.

Record Order : Type := mkOrder {
    order_id : Z;
    o_cust_id : Z;
    total_amount : price;
    status : string;
    order_date : Z
}.

Record OrderItem : Type := mkOrderItem {
    item_id : Z;
    i_order_id : Z;
    i_prod_id : Z;
    quantity : Z;
    i_price : price
}.

(** An element of [order_items] in [create_order]:
    [{"prod_id": .., "quantity": .., "price": ..}]. *)
Record Line : Type := mkLine {
    l_prod_id : Z;
    l_quantity : Z;
    l_price : price
}.

(** ** The store *)

Record DB : Type := mkDB {
    customers : list Customer;
    products : list Product;
    orders : list Order;
    order_items : list OrderItem;
    next_order_id : Z;
    next_item_id : Z;
    clock : Z
}.

(** The store together with the fault schedule of the round trips to come:
    [true] makes the next round trip raise. An exhausted schedule raises
    nothing. *)
Record World : Type := mkWorld {
    db : DB;
    faults : list bool
}.

Definition set_products (ps : list Product) (d : DB) : DB :=
    mkDB (customers d) ps (orders d) (order_items d)
         (next_order_id d) (next_item_id d) (clock d).

Definition set_customers (cs : list Customer) (d : DB) : DB :=
    mkDB cs (products d) (orders d) (order_items d)
         (next_order_id d) (next_item_id d) (clock d).

Definition set_orders (os : list Order) (d : DB) : DB :=
    mkDB (customers d) (products d) os (order_items d)
         (next_order_id d) (next_item_id d) (clock d).

Definition set_order_items (its : list OrderItem) (d : DB) : DB :=
    mkDB (customers d) (products d) (orders d) its
         (next_order_id d) (next_item_id d) (clock d).

(** ** The table client *)

(** Modelled from the spec: [src/config.py] ([get_supabase]) and the hosted
    store behind it are not among the sources. One [.execute()] is one
    round trip; it raises when the schedule says so, and a round trip that
    raises leaves the tables as they were. *)
Definition execute : M World unit :=
    fun w => (if hd false (faults w) then Raise StoreFault else Ok tt,
              mkWorld (db w) (tl (faults w))).

(** Modelled from the spec: [select(table).eq(column, value)
    [.order(column, desc)] [.limit(n)] -> rows] of section 6, one round
    trip. The filter, the order and the limit are the function [f]; rows
    come back in table order unless ordered. *)
Definition query {A} (f : DB -> A) : M World A :=
    execute ;;; gets (fun w => f (db w)).

(** Modelled from the spec: [insert(table, records)],
    [update(table, fields).eq(column, value)] and
    [delete(table).eq(column, value)] of section 6, one round trip each;
    the change of the tables is the function [f]. *)
Definition command (f : DB -> DB) : M World unit :=
    execute ;;; modify (fun w => mkWorld (f (db w)) (faults w)).

(** Modelled from the spec: an insert into [orders (order_id, cust_id,
    total_amount, status, order_date)] appends a row; the store generates
    [order_id] from a serial counter and stamps [order_date] from its
    clock, which advances at every insert. *)
Definition insert_order (cust : Z) (total : price) (st : string) (d : DB) : DB :=
    mkDB (customers d) (products d)
         (orders d ++ [mkOrder (next_order_id d) cust total st (clock d)])
         (order_items d)
         (next_order_id d + 1) (next_item_id d) (clock d + 1).

(** Modelled from the spec: the rows that an insert into [order_items
    (item_id, order_id, prod_id, quantity, price)] appends for a list of
    payloads, with [item_id] generated from a serial counter. *)
Fixpoint stamp_items (next : Z) (oid : Z) (ls : list Line) : list OrderItem :=
    match ls with
    | [] => []
    | l :: ls' =>
        mkOrderItem next oid (l_prod_id l) (l_quantity l) (l_price l)
          :: stamp_items (next + 1) oid ls'
    end.

(** Modelled from the spec: the insert of a list of payloads into
    [order_items]; the rows are appended in the order of the list. *)
Definition insert_order_items (oid : Z) (ls : list Line) (d : DB) : DB :=
    mkDB (customers d) (products d) (orders d)
         (order_items d ++ stamp_items (next_item_id d) oid ls)
         (next_order_id d) (next_item_id d + Z.of_nat (List.length ls)) (clock d).

Definition set_status (st : string) (o : Order) : Order :=
    mkOrder (order_id o) (o_cust_id o) (total_amount o) st (order_date o).

(** Modelled from the spec: [update("orders", {"status": st})
    .eq("order_id", oid)] writes the field on every row that matches. *)
Definition update_status_where (oid : Z) (st : string) (d : DB) : DB :=
    set_orders
      (map (fun o => if order_id o =? oid then set_status st o else o) (orders d)) d.

(** Modelled from the spec: [delete("order_items").eq("item_id", iid)]
    removes every row that matches. *)
Definition delete_item_where (iid : Z) (d : DB) : DB :=
    set_order_items (filter (fun i => negb (item_id i =? iid)) (order_items d)) d.

(** Modelled from the spec: [delete("orders").eq("order_id", oid)]. *)
Definition delete_order_where (oid : Z) (d : DB) : DB :=
    set_orders (filter (fun o => negb (order_id o =? oid)) (orders d)) d.

(** Modelled from the spec: [delete("customers").eq("cust_id", cid)]. *)
Definition delete_customer_where (cid : Z) (d : DB) : DB :=
    set_customers (filter (fun c => negb (cust_id c =? cid)) (customers d)) d.

(** The test of the filter [.eq("total_amount", v)]. *)
Definition price_eqb (x y : price) : bool :=
    if price_eq_dec x y then true else false.

(** ** [src/dao/customer_dao.py] *)

Definition customers_by_id (cid : Z) (d : DB) : list Customer :=
    limit 1 (filter (fun c => cust_id c =? cid) (customers d)).

Definition get_customer_by_id (cid : Z) : M World (option Customer) :=
    resp <- query (customers_by_id cid) ;;
    ret (first_row resp).

Definition delete_customer (cid : Z) : M World (option Customer) :=
    resp_before <- query (customers_by_id cid) ;;
    let row := first_row resp_before in
    command (delete_customer_where cid) ;;;
    ret row.

(** A Python function that ends without a [return] statement returns
    [None]; the result of a call is either [None] or a list of rows. *)
Definition dao_list_customers (lim : nat) : M World (option (list Customer)) :=
    resp <- query (fun d => limit lim (order_rows cust_id false (customers d))) ;;
    ret None.

(** ** [src/dao/order_dao.py] *)

Definition latest_order_of (cust : Z) (total : price) (d : DB) : list Order :=
    limit 1 (order_rows order_date true
               (filter (fun o => (o_cust_id o =? cust) && price_eqb (total_amount o) total)
                       (orders d))).

Definition create_order_record (cust : Z) (total : price) (st : string)
    : M World (option Order) :=
    command (insert_order cust total st) ;;;
    resp <- query (latest_order_of cust total) ;;
    ret (first_row resp).

Definition items_of_order (oid : Z) (d : DB) : list OrderItem :=
    filter (fun i => i_order_id i =? oid) (order_items d).

Definition create_order_items (oid : Z) (items : list Line) : M World (list OrderItem) :=
    command (insert_order_items oid items) ;;;
    resp <- query (items_of_order oid) ;;
    ret resp.

Definition orders_by_id (oid : Z) (d : DB) : list Order :=
    limit 1 (filter (fun o => order_id o =? oid) (orders d)).

(** The returned dict is the order row with its ["items"] key set. *)
Definition get_order (oid : Z) : M World (option (Order * list OrderItem)) :=
    r1 <- query (orders_by_id oid) ;;
    match r1 with
    | [] => ret None
    | order :: _ =>
        r2 <- query (items_of_order oid) ;;
        ret (Some (order, r2))
    end.

Definition list_orders_by_customer (cust : Z) : M World (list Order) :=
    resp <- query (fun d => order_rows order_date true
                              (filter (fun o => o_cust_id o =? cust) (orders d))) ;;
    ret resp.

Definition update_order_status (oid : Z) (st : string) : M World (option Order) :=
    command (update_status_where oid st) ;;;
    resp <- query (orders_by_id oid) ;;
    ret (first_row resp).

(** Modelled from the spec: [delete("order_items").eq("order_id", oid)]
    removes every item row of the order. *)
Definition delete_items_of_order_where (oid : Z) (d : DB) : DB :=
    set_order_items (filter (fun i => negb (i_order_id i =? oid)) (order_items d)) d.

Definition delete_order (oid : Z) : M World (option Order) :=
    resp_before <- query (orders_by_id oid) ;;
    let row := first_row resp_before in
    command (delete_items_of_order_where oid) ;;;
    command (delete_order_where oid) ;;;
    ret row.


(** ** [src/dao/product_dao.py] *)

(** Modelled from the spec: the rows of [select("products")
    .eq("prod_id", pid).limit(1)]; [product_dao] is not among the sources. *)
Definition products_by_id (pid : Z) (d : DB) : list Product :=
    limit 1 (filter (fun p => prod_id p =? pid) (products d)).

(** Modelled from the spec: [product_dao] is imported by
    [order_service.py] and is not among the sources. The read by id is the
    filtered select of section 6 limited to one row, as [customer_dao] and
    [order_dao] read by id. *)
Definition get_product_by_id (pid : Z) : M World (option Product) :=
    resp <- query (products_by_id pid) ;;
    ret (first_row resp).

(** Modelled from the spec: the [fields] dict of an update of [products
    (prod_id, name, price, stock)], a table whose schema is not among the
    sources; the key [prod_id] is not written. *)
Inductive product_field : Type :=
| SetName (s : string)
| SetPrice (p : price)
| SetStock (z : Z).

(** Modelled from the spec: one field written on a product row. *)
Definition apply_field (p : Product) (f : product_field) : Product :=
    match f with
    | SetName s => mkProduct (prod_id p) s (p_price p) (p_stock p)
    | SetPrice x => mkProduct (prod_id p) (p_name p) x (p_stock p)
    | SetStock z => mkProduct (prod_id p) (p_name p) (p_price p) (Some z)
    end.

(** Modelled from the spec: [update("products", fields)
    .eq("prod_id", pid)] writes the fields on every row that matches. *)
Definition update_product_where (pid : Z) (fields : list product_field) (d : DB) : DB :=
    set_products
      (map (fun p => if prod_id p =? pid then fold_left apply_field fields p else p)
           (products d)) d.

(** Modelled from the spec: [product_dao.update_product] is not among the
    sources. It is the [update(table, fields).eq(column, value)] of
    section 6 followed by the re-read of the row, the shape of
    [update_customer] and [update_order_status]; [order_service.py]
    ignores what it returns. *)
Definition update_product (pid : Z) (fields : list product_field)
    : M World (option Product) :=
    command (update_product_where pid fields) ;;;
    resp <- query (products_by_id pid) ;;
    ret (first_row resp).

(** ** [src/services/order_service.py] *)

(** One element of the [items] argument: [{"prod_id": int, "quantity": int}]. *)
Record Requested : Type := mkRequested {
    r_prod_id : Z;
    r_quantity : Z
}.

(** [prod.get("stock") or 0] *)
Definition stock_or_0 (p : Product) : Z :=
    match p_stock p with
    | Some z => z
    | None => 0
    end.

(** The checks of one pass of the validation loop, after the product was
    read: they touch no state. *)
Definition check_line (it : Requested) (prod : option Product) : outcome Line :=
    match prod with
    | None => Raise (OrderError (ProductNotFound (r_prod_id it)))
    | Some prod =>
        let qty := r_quantity it in
        if qty <=? 0 then Raise (OrderError QuantityMustBePositive)
        else
          let stock := stock_or_0 prod in
          if stock <? qty
          then Raise (OrderError (OutOfStock (p_name prod) stock qty))
          else Ok (mkLine (prod_id prod) qty (p_price prod))
    end.

(** [for it in items: ... order_items.append(...)] *)
Fixpoint validate_lines (items : list Requested) : M World (list Line) :=
    match items with
    | [] => ret []
    | it :: rest =>
        prod <- get_product_by_id (r_prod_id it) ;;
        l <- of_outcome (check_line it prod) ;;
        ls <- validate_lines rest ;;
        ret (l :: ls)
    end.

(** [sum(it["quantity"] * it["price"] for it in order_items)] *)
Definition order_total (ls : list Line) : price :=
    fold_left (fun acc l => padd acc (pscale (l_quantity l) (l_price l))) ls pzero.

(** The local variables of [create_order] that the handler reads, next to
    the store. *)
Record Frame : Type := mkFrame {
    world : World;
    created_order : option Order;
    created_items : list OrderItem;
    updated_products : list (Z * Z)
}.

Definition lift {A} (m : M World A) : M Frame A :=
    fun f => let (r, w) := m (world f) in
             (r, mkFrame w (created_order f) (created_items f) (updated_products f)).

Definition with_locals {A} (m : M Frame A) : M World A :=
    fun w => let (r, f) := m (mkFrame w None [] []) in (r, world f).

Definition set_created_order (co : option Order) (f : Frame) : Frame :=
    mkFrame (world f) co (created_items f) (updated_products f).

Definition set_created_items (its : list OrderItem) (f : Frame) : Frame :=
    mkFrame (world f) (created_order f) its (updated_products f).

Definition append_updated (up : Z * Z) (f : Frame) : Frame :=
    mkFrame (world f) (created_order f) (created_items f) (updated_products f ++ [up]).

(** One pass of the loop of step 3: read, write the new stock, record the
    delta. [prod.get] on [None] raises. *)
Definition decrement_stock (it : Line) : M Frame unit :=
    prod <- lift (get_product_by_id (l_prod_id it)) ;;
    match prod with
    | None => raise AttributeError
    | Some p =>
        let new_stock := stock_or_0 p - l_quantity it in
        lift (update_product (l_prod_id it) [SetStock new_stock]) ;;;
        modify (append_updated (l_prod_id it, l_quantity it))
    end.

Definition set_total (total : price) (o : Order) : Order :=
    mkOrder (order_id o) (o_cust_id o) total (status o) (order_date o).

(** The body of the [try]. The returned pair is the dict [created_order]
    with its ["total_amount"] key set, and its ["items"] key. *)
Definition create_order_steps (customer_id : Z) (total : price) (order_items : list Line)
    : M Frame (Order * list OrderItem) :=
    co <- lift (create_order_record customer_id total "PLACED") ;;
    modify (set_created_order co) ;;;
    match co with
    | None => raise TypeError
    | Some o =>
        its <- lift (create_order_items (order_id o) order_items) ;;
        modify (set_created_items its) ;;;
        for_each order_items decrement_stock ;;;
        ret (set_total total o, its)
    end.

(** The three compensating actions of the handler. *)
Definition restore_stock (up : Z * Z) : M World unit :=
    prod <- get_product_by_id (fst up) ;;
    match prod with
    | Some p => update_product (fst up) [SetStock (stock_or_0 p + snd up)] ;;; ret tt
    | None => ret tt
    end.

Definition restore_stocks (ups : list (Z * Z)) : M World unit :=
    for_each ups restore_stock.

(** [if created_items: for it in created_items: delete by item_id] *)
Definition delete_created_items (its : list OrderItem) : M World unit :=
    match its with
    | [] => ret tt
    | _ :: _ => for_each its (fun it => command (delete_item_where (item_id it)))
    end.

Definition delete_created_order (co : option Order) : M World unit :=
    match co with
    | Some o => command (delete_order_where (order_id o))
    | None => ret tt
    end.

(** The body of the inner [try] of the handler. *)
Definition rollback : M Frame unit :=
    ups <- gets updated_products ;;
    lift (restore_stocks ups) ;;;
    its <- gets created_items ;;
    lift (delete_created_items its) ;;;
    co <- gets created_order ;;
    lift (delete_created_order co).

(** [except Exception as e: try: rollback except Exception: pass;
    raise OrderError(f"Failed to create order: {e}")] *)
Definition on_failure {A} (e : exn) : M Frame A :=
    try_except rollback (fun _ => ret tt) ;;;
    raise (OrderError (FailedToCreateOrder e)).

Definition create_order (customer_id : Z) (items : list Requested)
    : M World (Order * list OrderItem) :=
    customer <- get_customer_by_id customer_id ;;
    match customer with
    | None => raise (OrderError CustomerNotFound)
    | Some _ =>
        order_items <- validate_lines items ;;
        let total := order_total order_items in
        with_locals
          (try_except (create_order_steps customer_id total order_items) on_failure)
    end.

Definition restock_item (it : OrderItem) : M World unit :=
    prod <- get_product_by_id (i_prod_id it) ;;
    match prod with
    | Some p => update_product (i_prod_id it) [SetStock (stock_or_0 p + quantity it)] ;;; ret tt
    | None => ret tt
    end.

Definition cancel_order (oid : Z) : M World (option Order) :=
    order <- get_order oid ;;
    match order with
    | None => raise (OrderError OrderNotFound)
    | Some (o, items) =>
        if negb (status o =? "PLACED")%string
        then raise (OrderError OnlyPlacedCanBeCancelled)
        else
          try_except
            (for_each items restock_item ;;;
             updated <- update_order_status oid "CANCELLED" ;;
             ret updated)
            (fun e => raise (OrderError (FailedToCancelOrder e)))
    end.

(** The returned dict is the one of [get_order] with its ["customer"] key
    set, to the customer row or to [None]. *)
Definition get_order_details (oid : Z)
    : M World (Order * list OrderItem * option Customer) :=
    order <- get_order oid ;;
    match order with
    | None => raise (OrderError OrderNotFound)
    | Some (o, items) =>
        cust <- get_customer_by_id (o_cust_id o) ;;
        ret (o, items, cust)
    end.


(** ** [src/services/customer_service.py] *)

Definition remove_customer (cid : Z) : M World Customer :=
    cust <- get_customer_by_id cid ;;
    match cust with
    | None => raise (CustomerNotFoundError cid)
    | Some _ =>
        os <- list_orders_by_customer cid ;;
        match os with
        | _ :: _ => raise (CustomerDeleteError cid (List.length os))
        | [] =>
            deleted <- delete_customer cid ;;
            match deleted with
            | None => raise CustomerError
            | Some c => ret c
            end
        end
    end.

Definition list_customers (lim : nat) : M World (option (list Customer)) :=
    dao_list_customers lim.

Definition get_customer (cid : Z) : M World Customer :=
    cust <- get_customer_by_id cid ;;
    match cust with
    | None => raise (CustomerNotFoundError cid)
    | Some c => ret c
    end.


(** ** Registration: [register_customer] and what it calls *)

(** Python's [str.isspace] on one character. A [string] stands for a
    Python [str] whose code points are below 256, one [ascii] each; the
    whitespace among them is 9 to 13, 28 to 32, 133 and 160. *)
Definition is_space (c : ascii) : bool :=
    let n := nat_of_ascii c in
    ((9 <=? n) && (n <=? 13) || (28 <=? n) && (n <=? 32)
     || (n =? 133) || (n =? 160))%nat.

Fixpoint lstrip (s : string) : string :=
    match s with
    | EmptyString => EmptyString
    | String c s' => if is_space c then lstrip s' else s
    end.

Fixpoint rstrip (s : string) : string :=
    match s with
    | EmptyString => EmptyString
    | String c s' =>
        match rstrip s' with
        | EmptyString => if is_space c then EmptyString else String c EmptyString
        | r => String c r
        end
    end.

(** [s.strip()] *)
Definition strip (s : string) : string := rstrip (lstrip s).

(** [not s or not s.strip()] *)
Definition is_blank (s : string) : bool :=
    (s =? "")%string || (strip s =? "")%string.

(** The messages of the [CustomerError]s that registration raises. *)
Inductive customer_msg : Type :=
| NameIsRequired
| EmailIsRequired
| PhoneIsRequired
| FailedToCreateCustomer.

(** What [register_customer] raises: an exception of [exn] that comes up
    from the data-access layer, a [CustomerError] with its message, or the
    [CustomerExistsError], with the email and the [cust_id] that its
    message interpolates. *)
Inductive reg_exn : Type :=
| FromStore (e : exn)
| CustomerErrorWith (m : customer_msg)
| CustomerExistsError (email : string) (existing : Z).

Inductive result (A : Type) : Type :=
| Done (a : A)
| Failed (e : reg_exn).
Arguments Done {A} a.
Arguments Failed {A} e.

(** Modelled from the spec: the store generates [cust_id], as it does
    [order_id] and [item_id]; the schema of [customers] is not among the
    sources. The counter of this key is kept next to the store, since
    only the insert of a customer reads it. *)
Record Registry : Type := mkRegistry {
    reg_world : World;
    next_cust_id : Z
}.

(** Computations of the registration: they return or raise a [reg_exn],
    and the registry is kept in both cases. *)
Definition R (A : Type) : Type := Registry -> result A * Registry.

Definition rret {A} (a : A) : R A := fun r => (Done a, r).

Definition rraise {A} (e : reg_exn) : R A := fun r => (Failed e, r).

Definition rbind {A B} (m : R A) (k : A -> R B) : R B :=
    fun r => match m r with
             | (Done a, r') => k a r'
             | (Failed e, r') => (Failed e, r')
             end.

(** A call into the data-access layer that does not touch the counter. *)
Definition from_store {A} (m : M World A) : R A :=
    fun r => match m (reg_world r) with
             | (Ok a, w) => (Done a, mkRegistry w (next_cust_id r))
             | (Raise e, w) => (Failed (FromStore e), mkRegistry w (next_cust_id r))
             end.

Definition customers_by_email (email : string) (d : DB) : list Customer :=
    limit 1 (filter (fun c => (c_email c =? email)%string) (customers d)).

Definition get_customer_by_email (email : string) : M World (option Customer) :=
    resp <- query (customers_by_email email) ;;
    ret (first_row resp).

(** Modelled from the spec: the insert of one payload into [customers
    (cust_id, name, email, phone, city)] appends a row with the generated
    key; a column that the payload leaves out is NULL. *)
Definition insert_customer (cid : Z) (name email phone : string)
    (city : option string) (d : DB) : DB :=
    set_customers (customers d ++ [mkCustomer cid name email phone city]) d.

(** The round trip of the insert: it takes the next key when it goes
    through. *)
Definition insert_customer_trip (name email phone : string) (city : option string)
    : R unit :=
    fun r => match execute (reg_world r) with
             | (Ok _, w) =>
                 (Done tt,
                  mkRegistry
                    (mkWorld (insert_customer (next_cust_id r) name email phone city (db w))
                             (faults w))
                    (next_cust_id r + 1))
             | (Raise e, w) => (Failed (FromStore e), mkRegistry w (next_cust_id r))
             end.

(** [if city: payload["city"] = city]: an empty city is left out. *)
Definition payload_city (city : option string) : option string :=
    match city with
    | Some c => if (c =? "")%string then None else Some c
    | None => None
    end.

Definition create_customer (name email phone : string) (city : option string)
    : R (option Customer) :=
    rbind (insert_customer_trip name email phone (payload_city city)) (fun _ =>
    rbind (from_store (query (customers_by_email email))) (fun resp =>
    rret (first_row resp))).

(** [city.strip() if city else None] *)
Definition stripped_city (city : option string) : option string :=
    match city with
    | Some c => if (c =? "")%string then None else Some (strip c)
    | None => None
    end.

Definition register_customer (name email phone : string) (city : option string)
    : R Customer :=
    if is_blank name then rraise (CustomerErrorWith NameIsRequired)
    else if is_blank email then rraise (CustomerErrorWith EmailIsRequired)
    else if is_blank phone then rraise (CustomerErrorWith PhoneIsRequired)
    else
      rbind (from_store (get_customer_by_email (strip email))) (fun existing =>
      match existing with
      | Some ex => rraise (CustomerExistsError email (cust_id ex))
      | None =>
          rbind (create_customer (strip name) (strip email) (strip phone)
                   (stripped_city city)) (fun created =>
          match created with
          | None => rraise (CustomerErrorWith FailedToCreateCustomer)
          | Some c => rret c
          end)
      end).


(** ** Round trips that go well, and the one that does not

    [calm c fs]: the next [c] round trips raise nothing. *)
Definition calm (c : nat) (fs : list bool) : bool := forallb negb (firstn c fs).

(** [quiet fs]: no round trip to come raises. *)
Definition quiet (fs : list bool) : bool := forallb negb fs.

(** A state that carries the fault schedule. *)
Class Scheduled (S : Type) : Type := {
    reschedule : list bool -> S -> S
}.

#[global] Instance World_Scheduled : Scheduled World := {
    reschedule fs w := mkWorld (db w) fs
}.

#[global] Instance Frame_Scheduled : Scheduled Frame := {
    reschedule fs f :=
      mkFrame (mkWorld (db (world f)) fs)
              (created_order f) (created_items f) (updated_products f)
}.

(** [steps m c s o s']: from [s], whatever its schedule, [m] makes [c] round
    trips and, when none of them raises, ends with outcome [o] in [s']. *)
Definition steps {S} `{Scheduled S} {A} (m : M S A) (c : nat) (s : S)
    (o : outcome A) (s' : S) : Prop :=
    forall fs, calm c fs = true ->
      m (reschedule fs s) = (o, reschedule (skipn c fs) s').

(** [faults_at m c s s']: from [s], [m] makes [c] round trips that go well;
    when the next one raises, [m] raises [StoreFault] in [s']. *)
Definition faults_at {S} `{Scheduled S} {A} (m : M S A) (c : nat) (s s' : S) : Prop :=
    forall fs, calm c fs = true -> nth c fs false = true ->
      m (reschedule fs s) = (Raise StoreFault, reschedule (skipn (Datatypes.S c) fs) s').

(** ** Notions used in the statements *)

(** The outcome of the validation loop of [create_order] on a store whose
    reads go through: the captured lines, or the first error. *)
Fixpoint admission (d : DB) (items : list Requested) : outcome (list Line) :=
    match items with
    | [] => Ok []
    | it :: rest =>
        match check_line it (first_row (products_by_id (r_prod_id it) d)) with
        | Raise e => Raise e
        | Ok l =>
            match admission d rest with
            | Raise e => Raise e
            | Ok ls => Ok (l :: ls)
            end
        end
    end.

(** No id occurs twice. *)
Fixpoint unique_ids (l : list Z) : bool :=
    match l with
    | [] => true
    | x :: l' => negb (existsb (Z.eqb x) l') && unique_ids l'
    end.

(** A store as the hosted service keeps it: [prod_id] is a key of
    [products], the generated ids and the order dates in the tables were
    handed out by the counters and the clock, and every item row points at
    an order id that was handed out. *)
Definition wf_db (d : DB) : bool :=
    unique_ids (map prod_id (products d))
    && forallb (fun o => (order_id o <? next_order_id d) && (order_date o <? clock d))
               (orders d)
    && forallb (fun i => (item_id i <? next_item_id d) && (i_order_id i <? next_order_id d))
               (order_items d).

(** The four errors that [create_order] raises from its validation phase. *)
Definition is_rejection (e : exn) : bool :=
    match e with
    | OrderError CustomerNotFound
    | OrderError (ProductNotFound _)
    | OrderError QuantityMustBePositive
    | OrderError (OutOfStock _ _ _) => true
    | _ => false
    end.


(** The compensation as the specification words it, "each compensating
    action is attempted independently; a failure in one does not abort the
    others": every action under a guard of its own. It is compared with
    [rollback], the compensation of the code. *)
Definition rollback_independent : M Frame unit :=
    try_except (ups <- gets updated_products ;; lift (restore_stocks ups))
               (fun _ => ret tt) ;;;
    try_except (its <- gets created_items ;; lift (delete_created_items its))
               (fun _ => ret tt) ;;;
    try_except (co <- gets created_order ;; lift (delete_created_order co))
               (fun _ => ret tt).


(** [sum(i["quantity"] * i["price"] for i in items)] over item rows. *)
Definition items_total (its : list OrderItem) : price :=
    fold_left (fun acc i => padd acc (pscale (quantity i) (i_price i))) its pzero.


(** ** A small shop

    The scenario of the specification: a customer, a product 7 with five
    in stock and a product 8 with two. The prices are left to the caller. *)

Definition alice : Customer :=
    mkCustomer 1 "Alice" "alice@example.org" "555-0100" None.

Definition shop (p7 p8 : price) : DB :=
    mkDB [alice]
         [mkProduct 7 "widget" p7 (Some 5); mkProduct 8 "gadget" p8 (Some 2)]
         [] [] 1 1 0.

(** The shop holding one order of [alice], for three widgets, with the
    status [st]. *)
Definition shop_with_order (p7 p8 total : price) (st : string) : DB :=
    mkDB [alice]
         [mkProduct 7 "widget" p7 (Some 2); mkProduct 8 "gadget" p8 (Some 2)]
         [mkOrder 1 1 total st 0]
         [mkOrderItem 1 1 7 3 p7]
         2 2 1.

(** The lines that the validation pass captures for one widget and one
    gadget. *)
Definition two_lines (p7 p8 : price) : list Line :=
    [mkLine 7 1 p7; mkLine 8 1 p8].

(** The frame in which the handler of [create_order] starts when, in the
    shop, the order row and the two item rows were created, the widget was
    decremented and the read of the gadget raised. [fs] is the schedule of
    the round trips that follow. *)
Definition interrupted (p7 p8 : price) (fs : list bool) : Frame :=
    snd (create_order_steps 1 (order_total (two_lines p7 p8)) (two_lines p7 p8)
           (mkFrame (mkWorld (shop p7 p8) (repeat false 7 ++ true :: fs)) None [] [])).


(** ** Notions used in the proofs *)

(** [completes m s o s']: when no round trip raises, [m] run from [s] ends
    with outcome [o] in [s'] (however many round trips it makes). *)
Definition completes {S} `{Scheduled S} {A} (m : M S A) (s : S)
    (o : outcome A) (s' : S) : Prop :=
    exists c, steps m c s o s'.

(** The orders that a customer owns, whatever their status. *)
Definition orders_of_customer (cid : Z) (d : DB) : list Order :=
    filter (fun o => o_cust_id o =? cid) (orders d).

(** The stock of a product as the services read it: the first row of that
    id, with [or 0]. *)
Definition stock_read (d : DB) (pid : Z) : option Z :=
    option_map stock_or_0 (first_row (products_by_id pid d)).

(** The store after one read-then-add of [restock_item] and
    [restore_stock]: nothing when no row has the id. *)
Definition add_stock (pid delta : Z) (d : DB) : DB :=
    match first_row (products_by_id pid d) with
    | Some p => update_product_where pid [SetStock (stock_or_0 p + delta)] d
    | None => d
    end.

(** The round trips of one read-then-add: three when the row is there. *)
Definition add_stock_cost (pid : Z) (d : DB) : nat :=
    match first_row (products_by_id pid d) with
    | Some _ => 3
    | None => 1
    end.

(** What the items of an order give back to product [pid]. *)
Definition returned (items : list OrderItem) (pid : Z) : Z :=
    fold_right (fun it acc => if i_prod_id it =? pid then quantity it + acc else acc)
               0 items.

(** The store after the read-then-add of every item, in order. *)
Definition restock_all (items : list OrderItem) (d : DB) : DB :=
    fold_left (fun d it => add_stock (i_prod_id it) (quantity it) d) items d.

(** The frame with its store replaced and its locals kept. *)
Definition with_world (w : World) (f : Frame) : Frame :=
    mkFrame w (created_order f) (created_items f) (updated_products f).

(** The row that [insert_order] appends. *)
Definition new_order (cust : Z) (total : price) (st : string) (d : DB) : Order :=
    mkOrder (next_order_id d) cust total st (clock d).

(** The store after the decrements of step 3 for [lines], in order. *)
Definition decrement_all (lines : list Line) (d : DB) : DB :=
    fold_left (fun d l => add_stock (l_prod_id l) (- l_quantity l) d) lines d.

(** What [updated_products] records for [lines]. *)
Definition ledger (lines : list Line) : list (Z * Z) :=
    map (fun l => (l_prod_id l, l_quantity l)) lines.

(** Every line names a product that has a row. *)
Definition listed (d : DB) (lines : list Line) : Prop :=
    forall l, In l lines -> first_row (products_by_id (l_prod_id l) d) <> None.

(** What a successful validation pass says about each line. *)
Definition admitted (d : DB) (it : Requested) (l : Line) : Prop :=
    exists p, first_row (products_by_id (r_prod_id it) d) = Some p
              /\ l = mkLine (r_prod_id it) (r_quantity it) (p_price p)
              /\ 0 < r_quantity it
              /\ exists s, p_stock p = Some s /\ r_quantity it <= s.

(** The store after the three mutation groups of a successful order. *)
Definition placed (customer_id : Z) (lines : list Line) (d : DB) : DB :=
    decrement_all lines
      (insert_order_items (next_order_id d) lines
         (insert_order customer_id (order_total lines) "PLACED" d)).

(** Read-then-add on every row of the id. *)
Definition shift (pid delta : Z) (ps : list Product) : list Product :=
    map (fun p => if prod_id p =? pid
                  then apply_field p (SetStock (stock_or_0 p + delta))
                  else p) ps.

(** The decrements of [lines] on the rows. *)
Definition decrement_rows (lines : list Line) (ps : list Product) : list Product :=
    fold_left (fun ps l => shift (l_prod_id l) (- l_quantity l) ps) lines ps.

(** The restorations of [lines] on the rows. *)
Definition restore_rows (lines : list Line) (ps : list Product) : list Product :=
    fold_left (fun ps l => shift (l_prod_id l) (l_quantity l) ps) lines ps.

(** The store after the read-then-add of every entry of the ledger. *)
Definition restore_all (ups : list (Z * Z)) (d : DB) : DB :=
    fold_left (fun d up => add_stock (fst up) (snd up) d) ups d.

(** The store after the deletes by [item_id] of the created items. *)
Definition delete_items_all (its : list OrderItem) (d : DB) : DB :=
    fold_left (fun d i => delete_item_where (item_id i) d) its d.

(** The store after the delete of the created order, when there is one. *)
Definition delete_order_of (co : option Order) (d : DB) : DB :=
    match co with
    | Some o => delete_order_where (order_id o) d
    | None => d
    end.

(** The store after the whole compensation. *)
Definition compensated (f : Frame) : DB :=
    delete_order_of (created_order f)
      (delete_items_all (created_items f)
         (restore_all (updated_products f) (db (world f)))).

(** [recovers m c s o s']: from [s], when the first [c] round trips go
    well, the next one raises and no later one does, [m] ends with outcome
    [o] in [s']. *)
Definition recovers {S} `{Scheduled S} {A} (m : M S A) (c : nat) (s : S)
    (o : outcome A) (s' : S) : Prop :=
    forall fs, calm c fs = true -> nth c fs false = true ->
               quiet (skipn (Datatypes.S c) fs) = true ->
      exists fs', m (reschedule fs s) = (o, reschedule fs' s').

(** [unfazed m]: a run of [m] that returns, returns the same and leaves the
    same tables and locals when no round trip can raise. *)
Definition unfazed {S} `{Scheduled S} {A} (m : M S A) : Prop :=
    forall s a s', m s = (Ok a, s') -> m (reschedule [] s) = (Ok a, reschedule [] s').

(** What the lines of an order take from product [pid]. *)
Definition ordered (lines : list Line) (pid : Z) : Z :=
    fold_right (fun l acc => if l_prod_id l =? pid then l_quantity l + acc else acc)
               0 lines.


(** [x] may stand before [y] in rows ordered on [key]. *)
Definition in_order {A} (key : A -> Z) (desc : bool) (x y : A) : Prop :=
    if desc then key y <= key x else key x <= key y.


(** The round trips of the restocking loop of [cancel_order]. *)
Fixpoint restock_cost (items : list OrderItem) (d : DB) : nat :=
    match items with
    | [] => 0
    | it :: rest =>
        add_stock_cost (i_prod_id it) d
        + restock_cost rest (add_stock (i_prod_id it) (quantity it) d)
    end.


(** Every character is whitespace. *)
Fixpoint all_space (s : string) : bool :=
    match s with
    | EmptyString => true
    | String c s' => is_space c && all_space s'
    end.

(** The registry as the store keeps it: the keys in [customers] were handed
    out by the counter, and no two rows share an email. *)
Definition wf_registry (r : Registry) : Prop :=
    (forall c, In c (customers (db (reg_world r))) -> cust_id c < next_cust_id r)
    /\ NoDup (map c_email (customers (db (reg_world r)))).


(** * Properties *)

(** ** Schedules *)

Lemma calm_add (a b : nat) (fs : list bool) :
    calm (a + b) fs = true -> calm a fs = true /\ calm b (skipn a fs) = true.
Proof.
  unfold calm. revert fs. induction a as [|a IH]; intros fs Hc.
  - simpl. split; [reflexivity | exact Hc].
  - destruct fs as [|x fs].
    + simpl. rewrite firstn_nil. split; reflexivity.
    + simpl in *. apply andb_true_iff in Hc. destruct Hc as [Hx Hc].
      destruct (IH fs Hc) as [H1 H2]. rewrite Hx, H1. split; [reflexivity | exact H2].
Qed.

Lemma calm_quiet (c : nat) (fs : list bool) : quiet fs = true -> calm c fs = true.
Proof.
  unfold calm, quiet. revert fs. induction c as [|c IH]; intros fs Hq.
  - reflexivity.
  - destruct fs as [|x fs]; [reflexivity|]. simpl in *.
    apply andb_true_iff in Hq. destruct Hq as [Hx Hq].
    rewrite Hx. simpl. apply IH, Hq.
Qed.

Lemma quiet_skipn (c : nat) (fs : list bool) : quiet fs = true -> quiet (skipn c fs) = true.
Proof.
  unfold quiet. revert fs. induction c as [|c IH]; intros fs Hq.
  - exact Hq.
  - destruct fs as [|x fs]; [reflexivity|]. simpl in *.
    apply andb_true_iff in Hq. apply IH, Hq.
Qed.

Lemma calm_repeat (c : nat) (fs : list bool) : calm c (repeat false c ++ fs) = true.
Proof.
  unfold calm. induction c as [|c IH]; [reflexivity|]. simpl. exact IH.
Qed.

Lemma skipn_repeat (c : nat) (fs : list bool) : skipn c (repeat false c ++ fs) = fs.
Proof. induction c as [|c IH]; [reflexivity|]. simpl. exact IH. Qed.

Lemma nth_repeat (c : nat) (x : bool) (fs : list bool) :
    nth c (repeat false c ++ x :: fs) false = x.
Proof. induction c as [|c IH]; [reflexivity|]. simpl. exact IH. Qed.

(** ** Rules of the two judgements *)

Section Rules.
Context {S : Type} `{Scheduled S}.

Lemma steps_ret {A} (a : A) (s : S) : steps (ret a) 0 s (Ok a) s.
Proof. intros fs _. reflexivity. Qed.

Lemma steps_raise {A} (e : exn) (s : S) : steps (@raise S A e) 0 s (Raise e) s.
Proof. intros fs _. reflexivity. Qed.

Lemma steps_bind {A B} (m : M S A) (k : A -> M S B) c1 c2 s a s1 o s2 :
    steps m c1 s (Ok a) s1 -> steps (k a) c2 s1 o s2 ->
    steps (bind m k) (c1 + c2) s o s2.
Proof.
  intros H1 H2 fs Hc. apply calm_add in Hc. destruct Hc as [Ha Hb].
  unfold bind. rewrite (H1 fs Ha), (H2 _ Hb), skipn_skipn.
  rewrite (Nat.add_comm c2 c1). reflexivity.
Qed.

Lemma steps_bind_raise {A B} (m : M S A) (k : A -> M S B) c s e s1 :
    steps m c s (Raise e) s1 -> steps (bind m k) c s (Raise e) s1.
Proof. intros H1 fs Hc. unfold bind. rewrite (H1 fs Hc). reflexivity. Qed.

Lemma steps_try_ok {A} (m : M S A) (h : exn -> M S A) c s a s1 :
    steps m c s (Ok a) s1 -> steps (try_except m h) c s (Ok a) s1.
Proof. intros H1 fs Hc. unfold try_except. rewrite (H1 fs Hc). reflexivity. Qed.

Lemma steps_try_raise {A} (m : M S A) (h : exn -> M S A) c1 c2 s e s1 o s2 :
    steps m c1 s (Raise e) s1 -> steps (h e) c2 s1 o s2 ->
    steps (try_except m h) (c1 + c2) s o s2.
Proof.
  intros H1 H2 fs Hc. apply calm_add in Hc. destruct Hc as [Ha Hb].
  unfold try_except. rewrite (H1 fs Ha), (H2 _ Hb), skipn_skipn.
  rewrite (Nat.add_comm c2 c1). reflexivity.
Qed.

Lemma faults_bind_l {A B} (m : M S A) (k : A -> M S B) c s s1 :
    faults_at m c s s1 -> faults_at (bind m k) c s s1.
Proof. intros H1 fs Hc Hn. unfold bind. rewrite (H1 fs Hc Hn). reflexivity. Qed.

Lemma faults_bind_r {A B} (m : M S A) (k : A -> M S B) c1 c2 s a s1 s2 :
    steps m c1 s (Ok a) s1 -> faults_at (k a) c2 s1 s2 ->
    faults_at (bind m k) (c1 + c2) s s2.
Proof.
  intros H1 H2 fs Hc Hn. apply calm_add in Hc. destruct Hc as [Ha Hb].
  unfold bind. rewrite (H1 fs Ha).
  rewrite (H2 (skipn c1 fs) Hb); [| rewrite nth_skipn; exact Hn].
  rewrite skipn_skipn. replace (Datatypes.S c2 + c1)%nat with (Datatypes.S (c1 + c2)) by lia.
  reflexivity.
Qed.

End Rules.

Lemma steps_query {A} (f : DB -> A) (w : World) : steps (query f) 1 w (Ok (f (db w))) w.
Proof.
  intros fs Hc. unfold calm in Hc.
  destruct fs as [|[] fs]; simpl in Hc; try discriminate; reflexivity.
Qed.

Lemma steps_command (g : DB -> DB) (w : World) :
    steps (command g) 1 w (Ok tt) (mkWorld (g (db w)) (faults w)).
Proof.
  intros fs Hc. unfold calm in Hc.
  destruct fs as [|[] fs]; simpl in Hc; try discriminate; reflexivity.
Qed.

Lemma faults_query {A} (f : DB -> A) (w : World) : faults_at (query f) 0 w w.
Proof.
  intros fs _ Hn. unfold query, execute, bind. simpl.
  destruct fs as [|x fs]; simpl in *; [discriminate|]. rewrite Hn. reflexivity.
Qed.

Lemma faults_command (g : DB -> DB) (w : World) : faults_at (command g) 0 w w.
Proof.
  intros fs _ Hn. unfold command, execute, bind. simpl.
  destruct fs as [|x fs]; simpl in *; [discriminate|]. rewrite Hn. reflexivity.
Qed.

(** A judgement read on a world whose schedule raises nothing. *)
Lemma steps_quiet {A} (m : M World A) c w o w' :
    steps m c w o w' -> quiet (faults w) = true ->
    m w = (o, mkWorld (db w') (skipn c (faults w))).
Proof.
  intros Hs Hq. specialize (Hs (faults w) (calm_quiet c _ Hq)).
  destruct w as [d fs]. exact Hs.
Qed.

(** ** The pass through [customer_dao.list_customers] *)

(** C9: for every limit and every store, [list_customers] returns [None]
    when its round trip goes through and raises the store's exception when
    it does not; it never returns a list of customer rows. *)
Theorem list_customers_returns_None (lim : nat) (w : World) :
    fst (list_customers lim w)
    = if hd false (faults w) then Raise StoreFault else Ok None.
Proof.
  unfold list_customers, dao_list_customers, query, execute, bind, gets, ret.
  simpl. destruct (hd false (faults w)); reflexivity.
Qed.

Section CompletesRules.
Context {S : Type} `{Scheduled S}.

Lemma completes_ret {A} (a : A) (s : S) : completes (ret a) s (Ok a) s.
Proof. exists 0%nat. apply steps_ret. Qed.

Lemma completes_raise {A} (e : exn) (s : S) : completes (@raise S A e) s (Raise e) s.
Proof. exists 0%nat. apply steps_raise. Qed.

Lemma completes_bind {A B} (m : M S A) (k : A -> M S B) s a s1 o s2 :
    completes m s (Ok a) s1 -> completes (k a) s1 o s2 ->
    completes (bind m k) s o s2.
Proof.
  intros [c1 H1] [c2 H2]. exists (c1 + c2)%nat. eapply steps_bind; eassumption.
Qed.

Lemma completes_bind_raise {A B} (m : M S A) (k : A -> M S B) s e s1 :
    completes m s (Raise e) s1 -> completes (bind m k) s (Raise e) s1.
Proof. intros [c H1]. exists c. apply steps_bind_raise, H1. Qed.

Lemma completes_try_ok {A} (m : M S A) (h : exn -> M S A) s a s1 :
    completes m s (Ok a) s1 -> completes (try_except m h) s (Ok a) s1.
Proof. intros [c H1]. exists c. apply steps_try_ok, H1. Qed.

Lemma completes_try_raise {A} (m : M S A) (h : exn -> M S A) s e s1 o s2 :
    completes m s (Raise e) s1 -> completes (h e) s1 o s2 ->
    completes (try_except m h) s o s2.
Proof.
  intros [c1 H1] [c2 H2]. exists (c1 + c2)%nat. eapply steps_try_raise; eassumption.
Qed.

End CompletesRules.

Lemma completes_query {A} (f : DB -> A) (w : World) :
    completes (query f) w (Ok (f (db w))) w.
Proof. exists 1%nat. apply steps_query. Qed.

Lemma completes_command (g : DB -> DB) (w : World) :
    completes (command g) w (Ok tt) (mkWorld (g (db w)) (faults w)).
Proof. exists 1%nat. apply steps_command. Qed.

Lemma completes_quiet {A} (m : M World A) w o w' :
    completes m w o w' -> quiet (faults w) = true ->
    fst (m w) = o /\ db (snd (m w)) = db w' /\ quiet (faults (snd (m w))) = true.
Proof.
  intros [c Hs] Hq. rewrite (steps_quiet _ _ _ _ _ Hs Hq). simpl.
  repeat split. apply quiet_skipn, Hq.
Qed.

(** ** Ordered rows *)

Lemma length_insert_row {A} (key : A -> Z) (desc : bool) (x : A) (l : list A) :
    List.length (insert_row key desc x l) = Datatypes.S (List.length l).
Proof.
  induction l as [|y l IH]; simpl; [reflexivity|].
  destruct (goes_before key desc x y); simpl; [reflexivity | rewrite IH; reflexivity].
Qed.

Lemma length_order_rows {A} (key : A -> Z) (desc : bool) (l : list A) :
    List.length (order_rows key desc l) = List.length l.
Proof.
  induction l as [|y l IH]; simpl; [reflexivity|].
  rewrite length_insert_row, IH. reflexivity.
Qed.

(** ** Customer removal *)

Lemma steps_get_customer_by_id (cid : Z) (w : World) :
    steps (get_customer_by_id cid) 1 w (Ok (first_row (customers_by_id cid (db w)))) w.
Proof.
  unfold get_customer_by_id.
  eapply (steps_bind _ _ 1 0); [apply steps_query | apply steps_ret].
Qed.

Lemma customers_by_id_deleted (cid : Z) (d : DB) :
    customers_by_id cid (delete_customer_where cid d) = [].
Proof.
  unfold customers_by_id, delete_customer_where. simpl.
  induction (customers d) as [|c cs IH]; simpl; [reflexivity|].
  destruct (cust_id c =? cid) eqn:E; simpl; [exact IH|].
  rewrite E. exact IH.
Qed.

(** C8: on a store whose round trips go through, removing an existing
    customer who owns an order raises [CustomerDeleteError] and leaves the
    store as it was; removing an existing customer who owns none deletes the
    rows of that id from [customers], touches no other table and returns the
    row read before the deletion. *)
Theorem remove_customer_guard (cid : Z) (w : World) (c : Customer) :
    quiet (faults w) = true ->
    first_row (customers_by_id cid (db w)) = Some c ->
    match orders_of_customer cid (db w) with
    | _ :: _ =>
        fst (remove_customer cid w)
        = Raise (CustomerDeleteError cid (List.length (orders_of_customer cid (db w))))
        /\ db (snd (remove_customer cid w)) = db w
    | [] =>
        fst (remove_customer cid w) = Ok c
        /\ db (snd (remove_customer cid w)) = delete_customer_where cid (db w)
        /\ first_row (customers_by_id cid (db (snd (remove_customer cid w)))) = None
    end.
Proof.
  intros Hq Hc.
  pose (os := order_rows order_date true (orders_of_customer cid (db w))).
  assert (Hlen : List.length os = List.length (orders_of_customer cid (db w)))
    by apply length_order_rows.
  assert (Hos : steps (list_orders_by_customer cid) 1 w (Ok os) w).
  { unfold list_orders_by_customer.
    eapply (steps_bind _ _ 1 0); [apply steps_query | apply steps_ret]. }
  destruct (orders_of_customer cid (db w)) as [|o rest] eqn:Eo.
  - assert (Hs : steps (remove_customer cid) 4 w (Ok c)
                   (mkWorld (delete_customer_where cid (db w)) (faults w))).
    { unfold remove_customer.
      eapply (steps_bind _ _ 1 3); [apply steps_get_customer_by_id|].
      rewrite Hc.
      eapply (steps_bind _ _ 1 2); [exact Hos|].
      destruct os as [|x xs]; [|discriminate].
      eapply (steps_bind _ _ 2 0 _ (Some c)); [| apply steps_ret].
      unfold delete_customer.
      eapply (steps_bind _ _ 1 1); [apply steps_query|].
      eapply (steps_bind _ _ 1 0); [apply steps_command|].
      rewrite Hc. apply steps_ret. }
    rewrite (steps_quiet _ _ _ _ _ Hs Hq). simpl.
    repeat split. rewrite customers_by_id_deleted. reflexivity.
  - assert (Hs : steps (remove_customer cid) 2 w
                   (Raise (CustomerDeleteError cid (List.length (o :: rest)))) w).
    { unfold remove_customer.
      eapply (steps_bind _ _ 1 1); [apply steps_get_customer_by_id|].
      rewrite Hc.
      eapply (steps_bind _ _ 1 0); [exact Hos|].
      destruct os as [|x xs]; [discriminate|].
      rewrite <- Hlen. apply steps_raise. }
    rewrite (steps_quiet _ _ _ _ _ Hs Hq). simpl. split; reflexivity.
Qed.

(** ** Reading and adjusting stock *)

Lemma first_row_limit_1 {A} (l : list A) : first_row (limit 1 l) = first_row l.
Proof. destruct l; reflexivity. Qed.

Lemma first_row_filter_map {A} (P : A -> bool) (f : A -> A) (l : list A) :
    (forall x, P (f x) = P x) ->
    first_row (filter P (map f l)) = option_map f (first_row (filter P l)).
Proof.
  intros HP. induction l as [|x l IH]; simpl; [reflexivity|].
  rewrite HP. destruct (P x); simpl; [reflexivity | exact IH].
Qed.

Lemma first_row_filter_holds {A} (P : A -> bool) (l : list A) (x : A) :
    first_row (filter P l) = Some x -> P x = true.
Proof.
  induction l as [|y l IH]; simpl; [discriminate|].
  destruct (P y) eqn:E; simpl; [intros [= <-]; exact E | exact IH].
Qed.

Lemma find_product_id (d : DB) (pid : Z) (p : Product) :
    first_row (products_by_id pid d) = Some p -> prod_id p = pid.
Proof.
  unfold products_by_id. rewrite first_row_limit_1. intros Hf.
  apply first_row_filter_holds in Hf. apply Z.eqb_eq, Hf.
Qed.

Lemma find_product_updated (d : DB) (pid pid' : Z) (fields : list product_field) :
    (forall p, prod_id (fold_left apply_field fields p) = prod_id p) ->
    first_row (products_by_id pid' (update_product_where pid fields d))
    = option_map (fun p => if prod_id p =? pid then fold_left apply_field fields p else p)
                 (first_row (products_by_id pid' d)).
Proof.
  intros Hid. unfold products_by_id, update_product_where, set_products.
  cbn [products]. rewrite !first_row_limit_1. apply first_row_filter_map.
  intros x. destruct (prod_id x =? pid); [rewrite Hid|]; reflexivity.
Qed.

Lemma stock_read_add_stock (d : DB) (pid delta pid' : Z) :
    stock_read (add_stock pid delta d) pid'
    = if pid' =? pid then option_map (fun s => s + delta) (stock_read d pid')
      else stock_read d pid'.
Proof.
  unfold add_stock, stock_read.
  destruct (first_row (products_by_id pid d)) as [p|] eqn:Ep.
  - rewrite find_product_updated by reflexivity.
    destruct (pid' =? pid) eqn:E.
    + apply Z.eqb_eq in E. subst pid'. rewrite Ep. simpl.
      rewrite (find_product_id _ _ _ Ep), Z.eqb_refl. reflexivity.
    + destruct (first_row (products_by_id pid' d)) as [p'|] eqn:Ep'; [|reflexivity].
      simpl. rewrite (find_product_id _ _ _ Ep'), E. reflexivity.
  - destruct (pid' =? pid) eqn:E; [|reflexivity].
    apply Z.eqb_eq in E. subst pid'. rewrite Ep. reflexivity.
Qed.

Lemma add_stock_other_tables (pid delta : Z) (d : DB) :
    customers (add_stock pid delta d) = customers d
    /\ orders (add_stock pid delta d) = orders d
    /\ order_items (add_stock pid delta d) = order_items d
    /\ next_order_id (add_stock pid delta d) = next_order_id d
    /\ next_item_id (add_stock pid delta d) = next_item_id d
    /\ clock (add_stock pid delta d) = clock d.
Proof.
  unfold add_stock. destruct (first_row (products_by_id pid d)); repeat split.
Qed.

Lemma steps_get_product_by_id (pid : Z) (w : World) :
    steps (get_product_by_id pid) 1 w (Ok (first_row (products_by_id pid (db w)))) w.
Proof.
  unfold get_product_by_id.
  eapply (steps_bind _ _ 1 0); [apply steps_query | apply steps_ret].
Qed.

Lemma steps_update_product (pid : Z) (fields : list product_field) (w : World) :
    steps (update_product pid fields) 2 w
      (Ok (first_row (products_by_id pid (update_product_where pid fields (db w)))))
      (mkWorld (update_product_where pid fields (db w)) (faults w)).
Proof.
  unfold update_product.
  eapply (steps_bind _ _ 1 1); [apply steps_command|].
  eapply (steps_bind _ _ 1 0); [apply steps_query | apply steps_ret].
Qed.

Lemma steps_restock_item (it : OrderItem) (w : World) :
    steps (restock_item it) (add_stock_cost (i_prod_id it) (db w)) w (Ok tt)
      (mkWorld (add_stock (i_prod_id it) (quantity it) (db w)) (faults w)).
Proof.
  unfold restock_item, add_stock, add_stock_cost.
  destruct (first_row (products_by_id (i_prod_id it) (db w))) as [p|] eqn:Ep.
  - eapply (steps_bind _ _ 1 2); [apply steps_get_product_by_id|]. rewrite Ep.
    eapply (steps_bind _ _ 2 0); [apply steps_update_product | apply steps_ret].
  - eapply (steps_bind _ _ 1 0); [apply steps_get_product_by_id|]. rewrite Ep.
    destruct w; apply steps_ret.
Qed.

Lemma steps_restore_stock (up : Z * Z) (w : World) :
    steps (restore_stock up) (add_stock_cost (fst up) (db w)) w (Ok tt)
      (mkWorld (add_stock (fst up) (snd up) (db w)) (faults w)).
Proof.
  unfold restore_stock, add_stock, add_stock_cost.
  destruct (first_row (products_by_id (fst up) (db w))) as [p|] eqn:Ep.
  - eapply (steps_bind _ _ 1 2); [apply steps_get_product_by_id|]. rewrite Ep.
    eapply (steps_bind _ _ 2 0); [apply steps_update_product | apply steps_ret].
  - eapply (steps_bind _ _ 1 0); [apply steps_get_product_by_id|]. rewrite Ep.
    destruct w; apply steps_ret.
Qed.

Lemma completes_for_each {A} (body : A -> M World unit) (eff : A -> DB -> DB) :
    (forall x w, completes (body x) w (Ok tt) (mkWorld (eff x (db w)) (faults w))) ->
    forall l w,
      completes (for_each l body) w (Ok tt)
        (mkWorld (fold_left (fun d x => eff x d) l (db w)) (faults w)).
Proof.
  intros Hb l. induction l as [|x l IH]; intros w; simpl.
  - destruct w. apply completes_ret.
  - eapply completes_bind; [apply Hb|].
    apply (IH (mkWorld (eff x (db w)) (faults w))).
Qed.

(** ** Cancellation *)

Lemma restock_all_other_tables (items : list OrderItem) (d : DB) :
    customers (restock_all items d) = customers d
    /\ orders (restock_all items d) = orders d
    /\ order_items (restock_all items d) = order_items d.
Proof.
  unfold restock_all. revert d. induction items as [|it items IH]; intros d; simpl.
  - repeat split.
  - destruct (IH (add_stock (i_prod_id it) (quantity it) d)) as (H1 & H2 & H3).
    destruct (add_stock_other_tables (i_prod_id it) (quantity it) d)
      as (G1 & G2 & G3 & _).
    rewrite H1, H2, H3, G1, G2, G3. repeat split.
Qed.

Lemma stock_read_restock_all (items : list OrderItem) (d : DB) (pid : Z) :
    stock_read (restock_all items d) pid
    = option_map (fun s => s + returned items pid) (stock_read d pid).
Proof.
  unfold restock_all. revert d. induction items as [|it items IH]; intros d; simpl.
  - destruct (stock_read d pid); simpl; [rewrite Z.add_0_r|]; reflexivity.
  - rewrite IH, stock_read_add_stock. rewrite (Z.eqb_sym pid).
    destruct (i_prod_id it =? pid); [|reflexivity].
    destruct (stock_read d pid); simpl; [|reflexivity].
    f_equal. lia.
Qed.

Lemma completes_get_order (oid : Z) (w : World) :
    completes (get_order oid) w
      (Ok (option_map (fun o => (o, items_of_order oid (db w)))
                      (first_row (orders_by_id oid (db w)))))
      w.
Proof.
  unfold get_order.
  eapply completes_bind; [apply completes_query|].
  destruct (orders_by_id oid (db w)) as [|o os]; simpl.
  - apply completes_ret.
  - eapply completes_bind; [apply completes_query | apply completes_ret].
Qed.

Lemma order_by_id_status (oid : Z) (st : string) (d : DB) :
    first_row (orders_by_id oid (update_status_where oid st d))
    = option_map (set_status st) (first_row (orders_by_id oid d)).
Proof.
  unfold orders_by_id, update_status_where, set_orders. cbn [orders].
  rewrite !first_row_limit_1.
  rewrite (first_row_filter_map (fun o => order_id o =? oid)
             (fun o => if order_id o =? oid then set_status st o else o)).
  - destruct (first_row (filter (fun o => order_id o =? oid) (orders d))) as [o|] eqn:E;
      [|reflexivity].
    apply first_row_filter_holds in E. simpl. rewrite E. reflexivity.
  - intros x. destruct (order_id x =? oid) eqn:E; simpl; rewrite ?E; reflexivity.
Qed.

Lemma completes_update_order_status (oid : Z) (st : string) (w : World) :
    completes (update_order_status oid st) w
      (Ok (first_row (orders_by_id oid (update_status_where oid st (db w)))))
      (mkWorld (update_status_where oid st (db w)) (faults w)).
Proof.
  unfold update_order_status.
  eapply completes_bind; [apply completes_command|].
  eapply completes_bind; [apply completes_query | apply completes_ret].
Qed.

Lemma completes_restock_all (items : list OrderItem) (w : World) :
    completes (for_each items restock_item) w (Ok tt)
      (mkWorld (restock_all items (db w)) (faults w)).
Proof.
  apply (completes_for_each restock_item
           (fun it d => add_stock (i_prod_id it) (quantity it) d)).
  intros x w0. eexists. apply steps_restock_item.
Qed.

(** C7: on a store whose round trips go through, cancelling an order whose
    status is PLACED runs one read-then-add per item, so that every product
    reads its former stock plus the quantities of the order's items that name
    it, sets the status of the order to CANCELLED and returns the updated
    row; cancelling an order with any other status raises the invalid-state
    [OrderError] and leaves the store as it was. *)
Theorem cancel_order_restocks (oid : Z) (w : World) (o : Order) :
    quiet (faults w) = true ->
    first_row (orders_by_id oid (db w)) = Some o ->
    let items := items_of_order oid (db w) in
    let r := cancel_order oid w in
    if (status o =? "PLACED")%string then
      fst r = Ok (Some (set_status "CANCELLED" o))
      /\ products (db (snd r)) = products (restock_all items (db w))
      /\ (forall pid, stock_read (db (snd r)) pid
                      = option_map (fun s => s + returned items pid)
                                   (stock_read (db w) pid))
      /\ orders (db (snd r))
         = map (fun x => if order_id x =? oid then set_status "CANCELLED" x else x)
               (orders (db w))
      /\ order_items (db (snd r)) = order_items (db w)
      /\ customers (db (snd r)) = customers (db w)
    else
      fst r = Raise (OrderError OnlyPlacedCanBeCancelled)
      /\ db (snd r) = db w.
Proof.
  intros Hq Ho items r.
  destruct (restock_all_other_tables items (db w)) as (T1 & T2 & T3).
  destruct (status o =? "PLACED")%string eqn:Est.
  - assert (Hc : completes (cancel_order oid) w
                   (Ok (Some (set_status "CANCELLED" o)))
                   (mkWorld (update_status_where oid "CANCELLED" (restock_all items (db w)))
                            (faults w))).
    { unfold cancel_order.
      eapply completes_bind; [apply completes_get_order|].
      rewrite Ho. simpl. rewrite Est. simpl.
      apply completes_try_ok.
      eapply completes_bind; [apply completes_restock_all|].
      eapply completes_bind; [apply completes_update_order_status|].
      cbn [db faults]. rewrite order_by_id_status.
      unfold orders_by_id. fold items. rewrite T2.
      fold (orders_by_id oid (db w)). rewrite Ho. apply completes_ret. }
    destruct (completes_quiet _ _ _ _ Hc Hq) as (R1 & R2 & _).
    subst r. rewrite R1, R2. cbn [db].
    split; [reflexivity|]. split; [reflexivity|].
    split; [intros pid; apply stock_read_restock_all|].
    unfold update_status_where, set_orders. cbn [orders order_items customers].
    rewrite T1, T2, T3. repeat split.
  - assert (Hc : completes (cancel_order oid) w
                   (Raise (OrderError OnlyPlacedCanBeCancelled)) w).
    { unfold cancel_order.
      eapply completes_bind; [apply completes_get_order|].
      rewrite Ho. simpl. rewrite Est. simpl. apply completes_raise. }
    destruct (completes_quiet _ _ _ _ Hc Hq) as (R1 & R2 & _).
    subst r. rewrite R1, R2. split; reflexivity.
Qed.

(** ** Rules for the locals of [create_order] *)

Lemma steps_of_outcome {S} `{Scheduled S} {A} (o : outcome A) (s : S) :
    steps (of_outcome o) 0 s o s.
Proof. intros fs _. reflexivity. Qed.

Lemma steps_lift {A} (m : M World A) c (f : Frame) o w' :
    steps m c (world f) o w' -> steps (lift m) c f o (with_world w' f).
Proof.
  intros Hs fs Hc. unfold lift. cbn [reschedule Frame_Scheduled world].
  change (mkWorld (db (world f)) fs) with (reschedule fs (world f)).
  rewrite (Hs fs Hc). reflexivity.
Qed.

Lemma faults_lift {A} (m : M World A) c (f : Frame) w' :
    faults_at m c (world f) w' -> faults_at (lift m) c f (with_world w' f).
Proof.
  intros Hs fs Hc Hn. unfold lift. cbn [reschedule Frame_Scheduled world].
  change (mkWorld (db (world f)) fs) with (reschedule fs (world f)).
  rewrite (Hs fs Hc Hn). reflexivity.
Qed.

Lemma steps_set_created_order (co : option Order) (f : Frame) :
    steps (modify (set_created_order co)) 0 f (Ok tt) (set_created_order co f).
Proof. intros fs _. reflexivity. Qed.

Lemma steps_set_created_items (its : list OrderItem) (f : Frame) :
    steps (modify (set_created_items its)) 0 f (Ok tt) (set_created_items its f).
Proof. intros fs _. reflexivity. Qed.

Lemma steps_append_updated (up : Z * Z) (f : Frame) :
    steps (modify (append_updated up)) 0 f (Ok tt) (append_updated up f).
Proof. intros fs _. reflexivity. Qed.

(** ** The validation pass *)

Lemma completes_validate_lines (items : list Requested) (w : World) :
    completes (validate_lines items) w (admission (db w) items) w.
Proof.
  induction items as [|it rest IH]; cbn [validate_lines admission].
  - apply completes_ret.
  - eapply completes_bind; [eexists; apply steps_get_product_by_id|].
    destruct (check_line it (first_row (products_by_id (r_prod_id it) (db w))))
      as [l|e] eqn:Ec.
    + eapply completes_bind; [eexists; apply steps_of_outcome|].
      destruct (admission (db w) rest) as [ls|e].
      * eapply completes_bind; [exact IH | apply completes_ret].
      * apply completes_bind_raise, IH.
    + apply completes_bind_raise. eexists. apply steps_of_outcome.
Qed.

Lemma steps_validate_lines (items : list Requested) (w : World) (lines : list Line) :
    admission (db w) items = Ok lines ->
    steps (validate_lines items) (List.length items) w (Ok lines) w.
Proof.
  revert lines.
  induction items as [|it rest IH]; cbn [validate_lines admission List.length];
    intros lines Ha.
  - injection Ha as <-. apply steps_ret.
  - eapply (steps_bind _ _ 1 (List.length rest)); [apply steps_get_product_by_id|].
    destruct (check_line it (first_row (products_by_id (r_prod_id it) (db w))))
      as [l|e] eqn:Ec; [|discriminate].
    destruct (admission (db w) rest) as [ls|e]; [|discriminate].
    injection Ha as <-.
    eapply (steps_bind _ _ 0 (List.length rest)); [apply steps_of_outcome|].
    replace (List.length rest) with (List.length rest + 0)%nat by lia.
    eapply (steps_bind _ _ (List.length rest) 0); [apply IH; reflexivity | ].
    apply steps_ret.
Qed.

(** ** Creating the order row and the item rows *)

Lemma order_rows_desc_snoc {A} (key : A -> Z) (l : list A) (x : A) :
    (forall y, In y l -> key y < key x) ->
    order_rows key true (l ++ [x]) = x :: order_rows key true l.
Proof.
  induction l as [|y l IH]; intros Hlt; [reflexivity|].
  cbn [app order_rows fold_right].
  change (fold_right (insert_row key true) [] (l ++ [x]))
    with (order_rows key true (l ++ [x])).
  rewrite IH by (intros z Hz; apply Hlt; right; exact Hz).
  cbn [insert_row]. unfold goes_before.
  assert (Hy : key y < key x) by (apply Hlt; left; reflexivity).
  destruct (key x <=? key y) eqn:E; [apply Z.leb_le in E; lia | reflexivity].
Qed.

Lemma price_eqb_refl (x : price) : price_eqb x x = true.
Proof. unfold price_eqb. destruct (price_eq_dec x x); [reflexivity | contradiction]. Qed.

Lemma wf_db_inv (d : DB) :
    wf_db d = true ->
    unique_ids (map prod_id (products d)) = true
    /\ (forall o, In o (orders d) ->
          order_id o < next_order_id d /\ order_date o < clock d)
    /\ (forall i, In i (order_items d) ->
          item_id i < next_item_id d /\ i_order_id i < next_order_id d).
Proof.
  unfold wf_db. intros Hw.
  apply andb_true_iff in Hw. destruct Hw as [Hw Hi].
  apply andb_true_iff in Hw. destruct Hw as [Hu Ho].
  split; [exact Hu|]. split.
  - intros o Hin. rewrite forallb_forall in Ho. specialize (Ho o Hin).
    apply andb_true_iff in Ho. destruct Ho as [H1 H2].
    apply Z.ltb_lt in H1, H2. split; assumption.
  - intros i Hin. rewrite forallb_forall in Hi. specialize (Hi i Hin).
    apply andb_true_iff in Hi. destruct Hi as [H1 H2].
    apply Z.ltb_lt in H1, H2. split; assumption.
Qed.

Lemma latest_order_fresh (cust : Z) (total : price) (st : string) (d : DB) :
    (forall o, In o (orders d) -> order_date o < clock d) ->
    first_row (latest_order_of cust total (insert_order cust total st d))
    = Some (new_order cust total st d).
Proof.
  intros Hd. unfold latest_order_of, insert_order. cbn [orders].
  rewrite first_row_limit_1, filter_app. cbn [filter o_cust_id total_amount].
  rewrite Z.eqb_refl, price_eqb_refl. cbn [andb].
  rewrite order_rows_desc_snoc; [reflexivity|].
  intros y Hy. apply filter_In in Hy. cbn [order_date]. apply Hd, Hy.
Qed.

Lemma steps_create_order_record (cust : Z) (total : price) (st : string) (w : World) :
    steps (create_order_record cust total st) 2 w
      (Ok (first_row (latest_order_of cust total (insert_order cust total st (db w)))))
      (mkWorld (insert_order cust total st (db w)) (faults w)).
Proof.
  unfold create_order_record.
  eapply (steps_bind _ _ 1 1); [apply steps_command|].
  eapply (steps_bind _ _ 1 0); [apply steps_query | apply steps_ret].
Qed.

Lemma filter_none {A} (P : A -> bool) (l : list A) :
    (forall x, In x l -> P x = false) -> filter P l = [].
Proof.
  induction l as [|x l IH]; intros Hn; [reflexivity|]. simpl.
  rewrite (Hn x) by (left; reflexivity). apply IH. intros y Hy. apply Hn. right. exact Hy.
Qed.

Lemma filter_all {A} (P : A -> bool) (l : list A) :
    (forall x, In x l -> P x = true) -> filter P l = l.
Proof.
  induction l as [|x l IH]; intros Hn; [reflexivity|]. simpl.
  rewrite (Hn x) by (left; reflexivity). f_equal. apply IH.
  intros y Hy. apply Hn. right. exact Hy.
Qed.

Lemma stamp_items_spec (next oid : Z) (ls : list Line) (i : OrderItem) :
    In i (stamp_items next oid ls) -> i_order_id i = oid /\ next <= item_id i.
Proof.
  revert next. induction ls as [|l ls IH]; intros next Hin; [destruct Hin|].
  destruct Hin as [<- | Hin]; [simpl; lia|].
  destruct (IH _ Hin) as [H1 H2]. split; [exact H1 | lia].
Qed.

Lemma items_of_fresh_order (oid : Z) (ls : list Line) (d : DB) :
    (forall i, In i (order_items d) -> i_order_id i < oid) ->
    items_of_order oid (insert_order_items oid ls d)
    = stamp_items (next_item_id d) oid ls.
Proof.
  intros Hf. unfold items_of_order, insert_order_items. cbn [order_items].
  rewrite filter_app, filter_none, filter_all; [reflexivity | |].
  - intros x Hx. apply stamp_items_spec in Hx. apply Z.eqb_eq, Hx.
  - intros x Hx. apply Z.eqb_neq. specialize (Hf x Hx). lia.
Qed.

Lemma steps_create_order_items (oid : Z) (ls : list Line) (w : World) :
    steps (create_order_items oid ls) 2 w
      (Ok (items_of_order oid (insert_order_items oid ls (db w))))
      (mkWorld (insert_order_items oid ls (db w)) (faults w)).
Proof.
  unfold create_order_items.
  eapply (steps_bind _ _ 1 1); [apply steps_command|].
  eapply (steps_bind _ _ 1 0); [apply steps_query | apply steps_ret].
Qed.

(** ** Step 3: decrementing the stocks *)

Lemma find_product_add_stock (pid delta pid' : Z) (d : DB) :
    first_row (products_by_id pid' (add_stock pid delta d)) = None
    <-> first_row (products_by_id pid' d) = None.
Proof.
  unfold add_stock. destruct (first_row (products_by_id pid d)); [|reflexivity].
  rewrite find_product_updated by reflexivity.
  destruct (first_row (products_by_id pid' d)); simpl; split; congruence.
Qed.

Lemma listed_add_stock (pid delta : Z) (d : DB) (lines : list Line) :
    listed d lines -> listed (add_stock pid delta d) lines.
Proof.
  intros Hl l Hin Hnone. apply find_product_add_stock in Hnone. exact (Hl l Hin Hnone).
Qed.

Lemma steps_decrement_stock (l : Line) (f : Frame) :
    first_row (products_by_id (l_prod_id l) (db (world f))) <> None ->
    steps (decrement_stock l) 3 f (Ok tt)
      (mkFrame (mkWorld (add_stock (l_prod_id l) (- l_quantity l) (db (world f)))
                        (faults (world f)))
               (created_order f) (created_items f)
               (updated_products f ++ [(l_prod_id l, l_quantity l)])).
Proof.
  intros Hp. unfold decrement_stock.
  eapply (steps_bind _ _ 1 2); [apply steps_lift, steps_get_product_by_id|].
  unfold add_stock.
  destruct (first_row (products_by_id (l_prod_id l) (db (world f)))) as [p|];
    [|contradiction].
  eapply (steps_bind _ _ 2 0); [apply steps_lift, steps_update_product|].
  apply steps_append_updated.
Qed.

Lemma steps_decrement_stocks (lines : list Line) (f : Frame) :
    listed (db (world f)) lines ->
    steps (for_each lines decrement_stock) (3 * List.length lines) f (Ok tt)
      (mkFrame (mkWorld (decrement_all lines (db (world f))) (faults (world f)))
               (created_order f) (created_items f)
               (updated_products f ++ ledger lines)).
Proof.
  revert f. induction lines as [|l lines IH]; intros f Hl.
  - cbn. rewrite app_nil_r. destruct f as [[d fs] co ci ups]. apply steps_ret.
  - cbn [for_each List.length].
    replace (3 * Datatypes.S (List.length lines))%nat
      with (3 + 3 * List.length lines)%nat by lia.
    eapply steps_bind.
    + apply steps_decrement_stock. apply Hl. left. reflexivity.
    + match goal with |- steps _ _ ?g _ _ => specialize (IH g) end.
      cbn [world db faults created_order created_items updated_products] in IH.
      unfold ledger. cbn [map]. unfold decrement_all. cbn [fold_left].
      rewrite <- app_assoc in IH. apply IH.
      apply listed_add_stock. intros x Hx. apply Hl. right. exact Hx.
Qed.

Lemma faults_decrement_stock (l : Line) (f : Frame) (r : nat) :
    first_row (products_by_id (l_prod_id l) (db (world f))) <> None ->
    (r = 0 \/ r = 1)%nat ->
    faults_at (decrement_stock l) r f f.
Proof.
  intros Hp Hr. unfold decrement_stock. destruct f as [[d fs] co ci ups].
  destruct Hr as [-> | ->].
  - apply faults_bind_l.
    apply (faults_lift _ 0 (mkFrame (mkWorld d fs) co ci ups) (mkWorld d fs)).
    unfold get_product_by_id. apply faults_bind_l, faults_query.
  - eapply (faults_bind_r _ _ 1 0); [apply steps_lift, steps_get_product_by_id|].
    cbn [world db] in *.
    destruct (first_row (products_by_id (l_prod_id l) d)) as [p|]; [|contradiction].
    apply faults_bind_l.
    apply (faults_lift _ 0 (mkFrame (mkWorld d fs) co ci ups) (mkWorld d fs)).
    unfold update_product. apply faults_bind_l, faults_command.
Qed.

Lemma faults_decrement_stocks (done : list Line) (cur : Line) (rest : list Line)
    (f : Frame) (r : nat) :
    listed (db (world f)) (done ++ [cur]) ->
    (r = 0 \/ r = 1)%nat ->
    faults_at (for_each (done ++ cur :: rest) decrement_stock)
      (3 * List.length done + r) f
      (mkFrame (mkWorld (decrement_all done (db (world f))) (faults (world f)))
               (created_order f) (created_items f)
               (updated_products f ++ ledger done)).
Proof.
  revert f. induction done as [|l done IH]; intros f Hl Hr.
  - cbn. rewrite app_nil_r. apply faults_bind_l.
    destruct f as [[d fs] co ci ups].
    apply faults_decrement_stock; [|exact Hr]. apply Hl. left. reflexivity.
  - cbn [for_each List.length app].
    replace (3 * Datatypes.S (List.length done) + r)%nat
      with (3 + (3 * List.length done + r))%nat by lia.
    eapply faults_bind_r.
    + apply steps_decrement_stock. apply Hl. left. reflexivity.
    + match goal with |- faults_at _ _ ?g _ => specialize (IH g) end.
      cbn [world db faults created_order created_items updated_products] in IH.
      unfold ledger. cbn [map]. unfold decrement_all. cbn [fold_left].
      rewrite <- app_assoc in IH. apply IH; [|exact Hr].
      apply listed_add_stock. intros x Hx. apply Hl. right. exact Hx.
Qed.

(** ** The run of [create_order] when every round trip goes through *)

Lemma steps_with_locals {A} (m : M Frame A) c (w : World) o (f' : Frame) :
    steps m c (mkFrame w None [] []) o f' -> steps (with_locals m) c w o (world f').
Proof.
  intros Hs fs Hc. unfold with_locals.
  change (mkFrame (reschedule fs w) None [] [])
    with (reschedule fs (mkFrame w None [] [])).
  rewrite (Hs fs Hc). destruct f' as [[d' fs'] co ci ups]. reflexivity.
Qed.

Lemma check_line_inv (d : DB) (it : Requested) (l : Line) :
    check_line it (first_row (products_by_id (r_prod_id it) d)) = Ok l ->
    admitted d it l.
Proof.
  unfold check_line, admitted.
  destruct (first_row (products_by_id (r_prod_id it) d)) as [p|] eqn:Ep; [|discriminate].
  cbv zeta. destruct (r_quantity it <=? 0) eqn:Eq; [discriminate|].
  destruct (stock_or_0 p <? r_quantity it) eqn:Es; [discriminate|].
  intros [= <-]. exists p. apply Z.leb_gt in Eq. apply Z.ltb_ge in Es.
  rewrite (find_product_id _ _ _ Ep).
  split; [reflexivity|]. split; [reflexivity|]. split; [exact Eq|].
  unfold stock_or_0 in Es. destruct (p_stock p) as [s|]; [|lia].
  exists s. split; [reflexivity | exact Es].
Qed.

Lemma admission_inv (d : DB) (items : list Requested) (lines : list Line) :
    admission d items = Ok lines -> Forall2 (admitted d) items lines.
Proof.
  revert lines. induction items as [|it rest IH]; cbn [admission]; intros lines Ha.
  - injection Ha as <-. constructor.
  - destruct (check_line it (first_row (products_by_id (r_prod_id it) d)))
      as [l|e] eqn:Ec; [|discriminate].
    destruct (admission d rest) as [ls|e]; [|discriminate].
    injection Ha as <-. constructor; [apply check_line_inv, Ec | apply IH; reflexivity].
Qed.

Lemma admission_listed (d : DB) (items : list Requested) (lines : list Line) :
    admission d items = Ok lines -> listed d lines.
Proof.
  intros Ha. apply admission_inv in Ha.
  induction Ha as [|it l items lines Hl _ IH]; intros x Hin; [destruct Hin|].
  destruct Hin as [<- | Hin]; [|apply IH, Hin].
  destruct Hl as (p & Hp & -> & _). cbn [l_prod_id]. rewrite Hp. discriminate.
Qed.

Lemma listed_same_products (d d' : DB) (lines : list Line) :
    products d' = products d -> listed d lines -> listed d' lines.
Proof.
  intros Hp Hl l Hin. unfold products_by_id. rewrite Hp. exact (Hl l Hin).
Qed.

Lemma steps_create_order_steps (customer_id : Z) (lines : list Line) (f : Frame) :
    let d := db (world f) in
    let o := new_order customer_id (order_total lines) "PLACED" d in
    let its := stamp_items (next_item_id d) (next_order_id d) lines in
    (forall x, In x (orders d) -> order_date x < clock d) ->
    (forall i, In i (order_items d) -> i_order_id i < next_order_id d) ->
    listed d lines ->
    steps (create_order_steps customer_id (order_total lines) lines)
      (4 + 3 * List.length lines) f (Ok (o, its))
      (mkFrame (mkWorld (placed customer_id lines d) (faults (world f)))
               (Some o) its (updated_products f ++ ledger lines)).
Proof.
  intros d o its Hdates Hitems Hl. unfold create_order_steps.
  replace (4 + 3 * List.length lines)%nat
    with (2 + (0 + (2 + (0 + (3 * List.length lines + 0)))))%nat by lia.
  eapply steps_bind; [apply steps_lift, steps_create_order_record|].
  eapply steps_bind; [apply steps_set_created_order|].
  fold d. rewrite (latest_order_fresh _ _ _ _ Hdates).
  eapply steps_bind; [apply steps_lift, steps_create_order_items|].
  eapply steps_bind; [apply steps_set_created_items|].
  cbn [world db set_created_order with_world new_order order_id].
  rewrite items_of_fresh_order by exact Hitems.
  eapply steps_bind.
  - apply steps_decrement_stocks. cbn [world db set_created_items].
    apply (listed_same_products d); [reflexivity | exact Hl].
  - cbn [world db faults set_created_items created_order created_items
         updated_products with_world set_created_order].
    apply steps_ret.
Qed.

Lemma steps_create_order (customer_id : Z) (items : list Requested) (w : World)
    (c : Customer) (lines : list Line) :
    first_row (customers_by_id customer_id (db w)) = Some c ->
    admission (db w) items = Ok lines ->
    wf_db (db w) = true ->
    steps (create_order customer_id items) (5 + 4 * List.length items) w
      (Ok (new_order customer_id (order_total lines) "PLACED" (db w),
           stamp_items (next_item_id (db w)) (next_order_id (db w)) lines))
      (mkWorld (placed customer_id lines (db w)) (faults w)).
Proof.
  intros Hc Ha Hw. apply wf_db_inv in Hw. destruct Hw as (_ & Ho & Hi).
  assert (Hn : List.length lines = List.length items).
  { apply admission_inv in Ha. symmetry. eapply Forall2_length, Ha. }
  unfold create_order.
  replace (5 + 4 * List.length items)%nat
    with (1 + (List.length items + (4 + 3 * List.length lines)))%nat by lia.
  eapply steps_bind; [apply steps_get_customer_by_id|]. rewrite Hc.
  eapply steps_bind; [apply steps_validate_lines, Ha|].
  cbv zeta.
  apply (steps_with_locals _ _ w _
           (mkFrame (mkWorld (placed customer_id lines (db w)) (faults w))
                    (Some (new_order customer_id (order_total lines) "PLACED" (db w)))
                    (stamp_items (next_item_id (db w)) (next_order_id (db w)) lines)
                    ([] ++ ledger lines))).
  apply steps_try_ok.
  apply (steps_create_order_steps customer_id lines (mkFrame w None [] [])).
  - intros x Hx. apply Ho, Hx.
  - intros i Hin. apply Hi, Hin.
  - apply admission_listed with (items := items), Ha.
Qed.

Lemma decrement_all_other_tables (lines : list Line) (d : DB) :
    customers (decrement_all lines d) = customers d
    /\ orders (decrement_all lines d) = orders d
    /\ order_items (decrement_all lines d) = order_items d
    /\ next_order_id (decrement_all lines d) = next_order_id d
    /\ next_item_id (decrement_all lines d) = next_item_id d
    /\ clock (decrement_all lines d) = clock d.
Proof.
  unfold decrement_all. revert d. induction lines as [|l lines IH]; intros d; simpl.
  - repeat split.
  - destruct (IH (add_stock (l_prod_id l) (- l_quantity l) d))
      as (H1 & H2 & H3 & H4 & H5 & H6).
    destruct (add_stock_other_tables (l_prod_id l) (- l_quantity l) d)
      as (G1 & G2 & G3 & G4 & G5 & G6).
    rewrite H1, H2, H3, H4, H5, H6, G1, G2, G3, G4, G5, G6. repeat split.
Qed.

(** C10: on a well-formed store whose round trips go through, an order with
    an empty item list for an existing customer succeeds. It returns a new
    order row with status PLACED and the total that [sum] gives for no
    items, and no item rows; the row is appended to [orders], and
    [order_items], [products] and [customers] are as before. *)
Theorem create_order_empty (customer_id : Z) (w : World) (c : Customer) :
    quiet (faults w) = true ->
    first_row (customers_by_id customer_id (db w)) = Some c ->
    wf_db (db w) = true ->
    let r := create_order customer_id [] w in
    let o := mkOrder (next_order_id (db w)) customer_id pzero "PLACED" (clock (db w)) in
    fst r = Ok (o, [])
    /\ orders (db (snd r)) = orders (db w) ++ [o]
    /\ order_items (db (snd r)) = order_items (db w)
    /\ products (db (snd r)) = products (db w)
    /\ customers (db (snd r)) = customers (db w).
Proof.
  intros Hq Hc Hw r o.
  pose proof (steps_create_order customer_id [] w c [] Hc eq_refl Hw) as Hs.
  subst r. rewrite (steps_quiet _ _ _ _ _ Hs Hq). cbn [fst snd db].
  split; [reflexivity|].
  unfold placed, decrement_all, insert_order_items, insert_order.
  cbn [fold_left orders order_items products customers stamp_items].
  rewrite app_nil_r. repeat split.
Qed.

(** ** Under any schedule: reads leave the tables alone *)

Lemma query_db {A} (f : DB -> A) (w : World) : db (snd (query f w)) = db w.
Proof.
  unfold query, execute, bind, gets. simpl. destruct (hd false (faults w)); reflexivity.
Qed.

Lemma bind_ret_db {A B} (m : M World A) (g : A -> B) (w : World) :
    db (snd (bind m (fun a => ret (g a)) w)) = db (snd (m w)).
Proof. unfold bind, ret. destruct (m w) as [[a|e] w']; reflexivity. Qed.

Lemma get_customer_by_id_db (cid : Z) (w : World) :
    db (snd (get_customer_by_id cid w)) = db w.
Proof. unfold get_customer_by_id. rewrite bind_ret_db. apply query_db. Qed.

Lemma get_product_by_id_db (pid : Z) (w : World) :
    db (snd (get_product_by_id pid w)) = db w.
Proof. unfold get_product_by_id. rewrite bind_ret_db. apply query_db. Qed.

Lemma validate_lines_db (items : list Requested) (w : World) :
    db (snd (validate_lines items w)) = db w.
Proof.
  revert w. induction items as [|it rest IH]; intros w; [reflexivity|].
  cbn [validate_lines]. unfold bind at 1.
  pose proof (get_product_by_id_db (r_prod_id it) w) as Hp.
  destruct (get_product_by_id (r_prod_id it) w) as [[prod|e] w1]; [|exact Hp].
  cbn [snd] in Hp. unfold bind at 1, of_outcome.
  destruct (check_line it prod) as [l|e]; [|exact Hp].
  rewrite bind_ret_db, IH. exact Hp.
Qed.

(** ** Under any schedule: the handler of [create_order] *)

Lemma on_failure_raises_cause {A} (e : exn) (f : Frame) :
    fst (@on_failure A e f) = Raise (OrderError (FailedToCreateOrder e)).
Proof.
  unfold on_failure, try_except, bind, raise, ret.
  destruct (rollback f) as [[u|e'] f']; reflexivity.
Qed.

Lemma attempt_outcome (customer_id : Z) (total : price) (lines : list Line) (f : Frame) :
    match fst (try_except (create_order_steps customer_id total lines) on_failure f) with
    | Ok _ => True
    | Raise e => exists cause, e = OrderError (FailedToCreateOrder cause)
    end.
Proof.
  unfold try_except.
  destruct (create_order_steps customer_id total lines f) as [[r|e] f1]; [exact I|].
  rewrite on_failure_raises_cause. exists e. reflexivity.
Qed.

(** C4: under every fault schedule, a call to [create_order] that raises
    the customer-not-found, product-not-found, quantity or out-of-stock
    error leaves every table, counter and the clock of the store as they
    were before the call. *)
Theorem create_order_rejection_untouched (customer_id : Z) (items : list Requested)
    (w : World) (e : exn) :
    fst (create_order customer_id items w) = Raise e ->
    is_rejection e = true ->
    db (snd (create_order customer_id items w)) = db w.
Proof.
  destruct (create_order customer_id items w) as [o w'] eqn:E. cbn [fst snd].
  intros -> Hrej. revert E.
  unfold create_order. unfold bind at 1.
  pose proof (get_customer_by_id_db customer_id w) as Hc.
  destruct (get_customer_by_id customer_id w) as [[[c|]|e0] w1]; cbn [snd] in Hc.
  - unfold bind at 1.
    pose proof (validate_lines_db items w1) as Hv.
    destruct (validate_lines items w1) as [[lines|e1] w2]; cbn [snd] in Hv.
    + unfold with_locals.
      pose proof (attempt_outcome customer_id (order_total lines) lines
                    (mkFrame w2 None [] [])) as Ho.
      destruct (try_except (create_order_steps customer_id (order_total lines) lines)
                  on_failure (mkFrame w2 None [] [])) as [[r|e2] f3].
      * discriminate.
      * cbn [fst] in Ho. destruct Ho as [cause ->]. intros [= <- _].
        discriminate.
    + intros [= _ <-]. congruence.
  - intros [= _ <-]. exact Hc.
  - intros [= _ <-]. exact Hc.
Qed.

(** C6: under every fault schedule, once the customer was found and the
    validation pass has produced the lines, an exception [e] raised by the
    mutating steps (the body of the [try]) reaches the caller as the
    [OrderError] that wraps [e]; nothing raised by the compensation takes its
    place. *)
Theorem create_order_wraps_cause (customer_id : Z) (items : list Requested)
    (w w1 w2 : World) (c : Customer) (lines : list Line) (e : exn) (f3 : Frame) :
    get_customer_by_id customer_id w = (Ok (Some c), w1) ->
    validate_lines items w1 = (Ok lines, w2) ->
    create_order_steps customer_id (order_total lines) lines (mkFrame w2 None [] [])
    = (Raise e, f3) ->
    fst (create_order customer_id items w) = Raise (OrderError (FailedToCreateOrder e)).
Proof.
  intros Hc Hv Hs. unfold create_order. unfold bind at 1. rewrite Hc.
  unfold bind at 1. rewrite Hv. unfold with_locals, try_except. rewrite Hs.
  pose proof (@on_failure_raises_cause (Order * list OrderItem) e f3) as Hf.
  destruct (on_failure e f3) as [o f4]. cbn [fst] in *. exact Hf.
Qed.

(** C2 (as amended): the three compensating actions run in this order
    under one guard. When restoring the stocks raises, or when it goes
    through and deleting the created items raises, the compensation ends in
    the world in which that exception was raised: the actions after it are
    not attempted, make no round trip and change no table. The exception is
    dropped and the caller gets the error that wraps the original cause. *)
Theorem compensation_stops_at_first_failure {A} (cause : exn) (f : Frame)
    (e : exn) (w0 w1 : World) :
    restore_stocks (updated_products f) (world f) = (Raise e, w1)
    \/ (restore_stocks (updated_products f) (world f) = (Ok tt, w0)
        /\ delete_created_items (created_items f) w0 = (Raise e, w1)) ->
    @on_failure A cause f
    = (Raise (OrderError (FailedToCreateOrder cause)), with_world w1 f).
Proof.
  intros [Hr | [Hr Hd]];
    unfold on_failure, rollback, try_except, bind, gets, lift, raise, ret;
    cbn [world created_items updated_products created_order]; rewrite Hr.
  - reflexivity.
  - cbn [world created_items updated_products created_order]. rewrite Hd. reflexivity.
Qed.

(** ** Stock adjustments on a table with unique product ids *)

Lemma unique_first (ps : list Product) (pid : Z) (p : Product) :
    unique_ids (map prod_id ps) = true ->
    first_row (filter (fun x => prod_id x =? pid) ps) = Some p ->
    forall x, In x ps -> prod_id x = pid -> x = p.
Proof.
  induction ps as [|y ps IH]; cbn [map unique_ids filter]; intros Hu Hf x Hin Hx.
  - destruct Hin.
  - apply andb_true_iff in Hu. destruct Hu as [Hy Hu].
    destruct (prod_id y =? pid) eqn:Ey.
    + injection Hf as <-. destruct Hin as [-> | Hin]; [reflexivity|].
      apply Z.eqb_eq in Ey. apply negb_true_iff in Hy.
      assert (Hex : existsb (Z.eqb (prod_id y)) (map prod_id ps) = true).
      { apply existsb_exists. exists (prod_id x). split.
        - apply in_map, Hin.
        - apply Z.eqb_eq. congruence. }
      congruence.
    + destruct Hin as [-> | Hin].
      * apply Z.eqb_neq in Ey. contradiction.
      * exact (IH Hu Hf x Hin Hx).
Qed.

Lemma first_row_filter_none {A} (P : A -> bool) (l : list A) :
    first_row (filter P l) = None -> forall x, In x l -> P x = false.
Proof.
  induction l as [|y l IH]; cbn [filter]; intros Hf x Hin; [destruct Hin|].
  destruct (P y) eqn:Ey; [discriminate|].
  destruct Hin as [-> | Hin]; [exact Ey | exact (IH Hf x Hin)].
Qed.

Lemma products_add_stock (pid delta : Z) (d : DB) :
    unique_ids (map prod_id (products d)) = true ->
    products (add_stock pid delta d) = shift pid delta (products d).
Proof.
  intros Hu. unfold add_stock, shift, products_by_id. rewrite first_row_limit_1.
  destruct (first_row (filter (fun p => prod_id p =? pid) (products d)))
    as [p|] eqn:Ep.
  - unfold update_product_where, set_products. cbn [products].
    apply map_ext_in. intros x Hin.
    destruct (prod_id x =? pid) eqn:Ex; [|reflexivity].
    apply Z.eqb_eq in Ex. rewrite (unique_first _ _ _ Hu Ep x Hin Ex). reflexivity.
  - rewrite <- (map_id (products d)) at 1. apply map_ext_in. intros x Hin.
    rewrite (first_row_filter_none _ _ Ep x Hin). reflexivity.
Qed.

Lemma map_prod_id_shift (pid delta : Z) (ps : list Product) :
    map prod_id (shift pid delta ps) = map prod_id ps.
Proof.
  unfold shift. rewrite map_map. apply map_ext. intros p.
  destruct (prod_id p =? pid); reflexivity.
Qed.

Lemma shift_comm (a x b y : Z) (ps : list Product) :
    shift a x (shift b y ps) = shift b y (shift a x ps).
Proof.
  unfold shift. rewrite !map_map. apply map_ext. intros p.
  destruct (prod_id p =? a) eqn:Ea, (prod_id p =? b) eqn:Eb;
    cbn [apply_field prod_id]; rewrite ?Ea, ?Eb; try reflexivity.
  unfold stock_or_0. cbn [apply_field p_stock prod_id p_name p_price].
  f_equal. f_equal. lia.
Qed.

Lemma shift_cancel (pid q : Z) (ps : list Product) :
    (forall p, In p ps -> prod_id p = pid -> p_stock p <> None) ->
    shift pid q (shift pid (- q) ps) = ps.
Proof.
  intros Hs. unfold shift. rewrite map_map.
  rewrite <- (map_id ps) at 2. apply map_ext_in. intros p Hin.
  destruct (prod_id p =? pid) eqn:E; cbn [apply_field prod_id]; rewrite E; [|reflexivity].
  apply Z.eqb_eq in E. specialize (Hs p Hin E).
  destruct p as [i n x [s|]]; [|contradiction].
  unfold stock_or_0. cbn. f_equal. f_equal. lia.
Qed.

Lemma shift_decrement_rows (pid q : Z) (lines : list Line) (ps : list Product) :
    shift pid q (decrement_rows lines ps) = decrement_rows lines (shift pid q ps).
Proof.
  unfold decrement_rows. revert ps.
  induction lines as [|l lines IH]; intros ps; cbn [fold_left]; [reflexivity|].
  rewrite IH, shift_comm. reflexivity.
Qed.

(** Restoring, in the order of the ledger, what was decremented gives the
    rows back, duplicates of a product id among the lines included. *)
Lemma restore_decrement_rows (lines : list Line) (ps : list Product) :
    (forall l p, In l lines -> In p ps -> prod_id p = l_prod_id l -> p_stock p <> None) ->
    restore_rows lines (decrement_rows lines ps) = ps.
Proof.
  revert ps. induction lines as [|l lines IH]; intros ps Hs; [reflexivity|].
  unfold restore_rows, decrement_rows. cbn [fold_left].
  fold (decrement_rows lines (shift (l_prod_id l) (- l_quantity l) ps)).
  rewrite shift_decrement_rows, shift_cancel.
  - apply IH. intros l' p Hl Hp. apply Hs; [right; exact Hl | exact Hp].
  - intros p Hp. apply Hs; [left; reflexivity | exact Hp].
Qed.

Lemma products_decrement_all (lines : list Line) (d : DB) :
    unique_ids (map prod_id (products d)) = true ->
    products (decrement_all lines d) = decrement_rows lines (products d).
Proof.
  unfold decrement_all, decrement_rows. revert d.
  induction lines as [|l lines IH]; intros d Hu; cbn [fold_left]; [reflexivity|].
  rewrite IH; rewrite products_add_stock by exact Hu; [reflexivity|].
  rewrite map_prod_id_shift. exact Hu.
Qed.

Lemma products_restore_all (lines : list Line) (d : DB) :
    unique_ids (map prod_id (products d)) = true ->
    products (restore_all (ledger lines) d) = restore_rows lines (products d).
Proof.
  unfold restore_all, restore_rows, ledger. revert d.
  induction lines as [|l lines IH]; intros d Hu; cbn [fold_left map fst snd];
    [reflexivity|].
  rewrite IH; rewrite products_add_stock by exact Hu; [reflexivity|].
  rewrite map_prod_id_shift. exact Hu.
Qed.

Lemma restore_all_other_tables (ups : list (Z * Z)) (d : DB) :
    customers (restore_all ups d) = customers d
    /\ orders (restore_all ups d) = orders d
    /\ order_items (restore_all ups d) = order_items d.
Proof.
  unfold restore_all. revert d. induction ups as [|up ups IH]; intros d; simpl.
  - repeat split.
  - destruct (IH (add_stock (fst up) (snd up) d)) as (H1 & H2 & H3).
    destruct (add_stock_other_tables (fst up) (snd up) d) as (G1 & G2 & G3 & _).
    rewrite H1, H2, H3, G1, G2, G3. repeat split.
Qed.

(** ** Deleting the created rows *)

Lemma filter_filter {A} (P Q : A -> bool) (l : list A) :
    filter P (filter Q l) = filter (fun x => Q x && P x) l.
Proof.
  induction l as [|x l IH]; [reflexivity|]. cbn [filter].
  destruct (Q x); cbn [filter andb]; [destruct (P x)|]; rewrite IH; reflexivity.
Qed.

Lemma delete_items_all_spec (its : list OrderItem) (d : DB) :
    delete_items_all its d
    = set_order_items
        (filter (fun x => negb (existsb (fun i => item_id x =? item_id i) its))
                (order_items d)) d.
Proof.
  unfold delete_items_all. revert d.
  induction its as [|i its IH]; intros d; cbn [fold_left existsb].
  - rewrite filter_all by reflexivity. destruct d; reflexivity.
  - rewrite IH. unfold delete_item_where, set_order_items.
    cbn [order_items customers products orders next_order_id next_item_id clock].
    rewrite filter_filter. f_equal. apply filter_ext. intros x.
    rewrite negb_orb. reflexivity.
Qed.

Lemma delete_stamped (old : list OrderItem) (next oid : Z) (ls : list Line) :
    (forall i, In i old -> item_id i < next) ->
    filter (fun x => negb (existsb (fun i => item_id x =? item_id i)
                                   (stamp_items next oid ls)))
           (old ++ stamp_items next oid ls)
    = old.
Proof.
  intros Hold. rewrite filter_app, filter_all, filter_none; [apply app_nil_r | |].
  - intros x Hx. apply negb_false_iff, existsb_exists. exists x.
    split; [exact Hx | apply Z.eqb_refl].
  - intros x Hx. apply negb_true_iff.
    destruct (existsb (fun i => item_id x =? item_id i) (stamp_items next oid ls))
      eqn:E; [|reflexivity].
    apply existsb_exists in E. destruct E as (i & Hi & Heq).
    apply Z.eqb_eq in Heq. apply stamp_items_spec in Hi. specialize (Hold x Hx). lia.
Qed.

Lemma delete_new_order (old : list Order) (o : Order) :
    (forall x, In x old -> order_id x < order_id o) ->
    filter (fun x => negb (order_id x =? order_id o)) (old ++ [o]) = old.
Proof.
  intros Hold. rewrite filter_app, filter_all; cbn [filter].
  - rewrite Z.eqb_refl. apply app_nil_r.
  - intros x Hx. apply negb_true_iff, Z.eqb_neq. specialize (Hold x Hx). lia.
Qed.

(** ** The compensation when its round trips go through *)

Lemma completes_gets_locals {A} (g : Frame -> A) (f : Frame) :
    (forall fs, g (reschedule fs f) = g f) ->
    completes (gets g) f (Ok (g f)) f.
Proof.
  intros Hg. exists 0%nat. intros fs _. unfold gets. rewrite Hg. reflexivity.
Qed.

Lemma completes_lift {A} (m : M World A) (f : Frame) o w' :
    completes m (world f) o w' -> completes (lift m) f o (with_world w' f).
Proof. intros [c Hs]. exists c. apply steps_lift, Hs. Qed.

Lemma delete_created_items_for_each (its : list OrderItem) :
    delete_created_items its
    = for_each its (fun it => command (delete_item_where (item_id it))).
Proof. destruct its; reflexivity. Qed.

Lemma completes_rollback (f : Frame) :
    completes rollback f (Ok tt)
      (with_world (mkWorld (compensated f) (faults (world f))) f).
Proof.
  destruct f as [[d fs] co ci ups]. unfold rollback, compensated.
  cbn [world created_order created_items updated_products db faults with_world].
  eapply completes_bind; [apply completes_gets_locals; reflexivity|].
  eapply completes_bind.
  { apply completes_lift.
    apply (completes_for_each restore_stock (fun up d => add_stock (fst up) (snd up) d)).
    intros x w0. eexists. apply steps_restore_stock. }
  eapply completes_bind; [apply completes_gets_locals; reflexivity|].
  eapply completes_bind.
  { apply completes_lift. rewrite delete_created_items_for_each.
    apply (completes_for_each (fun it => command (delete_item_where (item_id it)))
             (fun it d => delete_item_where (item_id it) d)).
    intros x w0. apply completes_command. }
  eapply completes_bind; [apply completes_gets_locals; reflexivity|].
  cbn [world created_order created_items updated_products db faults with_world].
  destruct co as [o|]; cbn [delete_created_order delete_order_of].
  - refine (completes_lift _ (mkFrame _ _ _ _) _ _ _). apply completes_command.
  - refine (completes_lift _ (mkFrame _ _ _ _) _ _ _). apply completes_ret.
Qed.

Lemma completes_on_failure {A} (e : exn) (f : Frame) :
    completes (@on_failure A e) f (Raise (OrderError (FailedToCreateOrder e)))
      (with_world (mkWorld (compensated f) (faults (world f))) f).
Proof.
  unfold on_failure.
  eapply completes_bind; [apply completes_try_ok, completes_rollback|].
  apply completes_raise.
Qed.

(** ** One fault in the mutating steps, then a quiet compensation *)

Lemma recovers_try {S} `{Scheduled S} {A} (m : M S A) (h : exn -> M S A) c s s1 o s2 :
    faults_at m c s s1 -> completes (h StoreFault) s1 o s2 ->
    recovers (try_except m h) c s o s2.
Proof.
  intros Hf [c2 Hh] fs Hc Hn Hq. unfold try_except. rewrite (Hf fs Hc Hn).
  rewrite (Hh _ (calm_quiet c2 _ Hq)). eexists. reflexivity.
Qed.

Lemma recovers_bind_r {S} `{Scheduled S} {A B} (m : M S A) (k : A -> M S B)
    c1 c s a s1 o s2 :
    steps m c1 s (Ok a) s1 -> recovers (k a) c s1 o s2 ->
    recovers (bind m k) (c1 + c) s o s2.
Proof.
  intros Hm Hk fs Hc Hn Hq. apply calm_add in Hc. destruct Hc as [Ha Hb].
  unfold bind. rewrite (Hm fs Ha). apply Hk.
  - exact Hb.
  - rewrite nth_skipn. exact Hn.
  - rewrite skipn_skipn.
    replace (Datatypes.S c + c1)%nat with (Datatypes.S (c1 + c)) by lia. exact Hq.
Qed.

Lemma recovers_with_locals {A} (m : M Frame A) c (w : World) o (f' : Frame) :
    recovers m c (mkFrame w None [] []) o f' -> recovers (with_locals m) c w o (world f').
Proof.
  intros Hr fs Hc Hn Hq. unfold with_locals.
  change (mkFrame (reschedule fs w) None [] [])
    with (reschedule fs (mkFrame w None [] [])).
  destruct (Hr fs Hc Hn Hq) as [fs' ->]. exists fs'.
  destruct f' as [[d' fs0] co ci ups]. reflexivity.
Qed.

Lemma faults_create_order_steps (customer_id : Z) (done : list Line) (cur : Line)
    (rest : list Line) (r : nat) (f : Frame) :
    let lines := done ++ cur :: rest in
    let d := db (world f) in
    let o := new_order customer_id (order_total lines) "PLACED" d in
    let its := stamp_items (next_item_id d) (next_order_id d) lines in
    let d2 := insert_order_items (next_order_id d) lines
                (insert_order customer_id (order_total lines) "PLACED" d) in
    (forall x, In x (orders d) -> order_date x < clock d) ->
    (forall i, In i (order_items d) -> i_order_id i < next_order_id d) ->
    listed d lines ->
    (r = 0 \/ r = 1)%nat ->
    faults_at (create_order_steps customer_id (order_total lines) lines)
      (4 + 3 * List.length done + r) f
      (mkFrame (mkWorld (decrement_all done d2) (faults (world f)))
               (Some o) its (updated_products f ++ ledger done)).
Proof.
  intros lines d o its d2 Hdates Hitems Hl Hr. unfold create_order_steps.
  replace (4 + 3 * List.length done + r)%nat
    with (2 + (0 + (2 + (0 + (3 * List.length done + r)))))%nat by lia.
  eapply faults_bind_r; [apply steps_lift, steps_create_order_record|].
  eapply faults_bind_r; [apply steps_set_created_order|].
  fold d. rewrite (latest_order_fresh _ _ _ _ Hdates).
  eapply faults_bind_r; [apply steps_lift, steps_create_order_items|].
  eapply faults_bind_r; [apply steps_set_created_items|].
  cbn [world db set_created_order with_world new_order order_id].
  rewrite items_of_fresh_order by exact Hitems.
  apply faults_bind_l.
  match goal with |- faults_at _ _ ?g _ =>
    pose proof (faults_decrement_stocks done cur rest g r) as Hd
  end.
  cbn [world db faults set_created_items created_order created_items
       updated_products with_world set_created_order] in Hd.
  apply Hd; [|exact Hr].
  apply (listed_same_products d); [reflexivity|].
  intros l Hin. apply Hl. unfold lines. apply in_app_iff.
  apply in_app_iff in Hin. destruct Hin as [Hin | [<- | []]].
  - left. exact Hin.
  - right. left. reflexivity.
Qed.

Lemma admission_stocked (d : DB) (items : list Requested) (lines : list Line) :
    admission d items = Ok lines ->
    unique_ids (map prod_id (products d)) = true ->
    forall l p, In l lines -> In p (products d) -> prod_id p = l_prod_id l ->
                p_stock p <> None.
Proof.
  intros Ha Hu. apply admission_inv in Ha.
  induction Ha as [|it l0 items lines Hl _ IH]; intros l p Hin Hp Hid; [destruct Hin|].
  destruct Hin as [<- | Hin]; [|exact (IH l p Hin Hp Hid)].
  destruct Hl as (q & Hq & -> & _ & s & Hs & _). cbn [l_prod_id] in Hid.
  unfold products_by_id in Hq. rewrite first_row_limit_1 in Hq.
  rewrite (unique_first _ _ _ Hu Hq p Hp Hid), Hs. discriminate.
Qed.

Lemma skipn_S_repeat (c : nat) (x : bool) (fs : list bool) :
    skipn (Datatypes.S c) (repeat false c ++ x :: fs) = fs.
Proof. induction c as [|c IH]; [reflexivity|]. exact IH. Qed.

Lemma map_prod_id_decrement_rows (lines : list Line) (ps : list Product) :
    map prod_id (decrement_rows lines ps) = map prod_id ps.
Proof.
  unfold decrement_rows. revert ps.
  induction lines as [|l lines IH]; intros ps; cbn [fold_left]; [reflexivity|].
  rewrite IH. apply map_prod_id_shift.
Qed.

(** The tables after a fault in the decrement loop and the compensation:
    [done] are the lines already decremented. *)
Lemma compensated_tables (customer_id : Z) (items : list Requested) (d : DB)
    (done : list Line) (cur : Line) (rest : list Line) :
    let lines := done ++ cur :: rest in
    let o := new_order customer_id (order_total lines) "PLACED" d in
    let its := stamp_items (next_item_id d) (next_order_id d) lines in
    let d2 := insert_order_items (next_order_id d) lines
                (insert_order customer_id (order_total lines) "PLACED" d) in
    let d' := compensated (mkFrame (mkWorld (decrement_all done d2) [])
                                   (Some o) its ([] ++ ledger done)) in
    admission d items = Ok lines ->
    wf_db d = true ->
    orders d' = orders d /\ order_items d' = order_items d
    /\ products d' = products d /\ customers d' = customers d.
Proof.
  intros lines o its d2 d' Ha Hw.
  destruct (wf_db_inv d Hw) as (Hu & Ho & Hi).
  unfold d', compensated.
  cbn [created_order created_items updated_products world db delete_order_of app].
  rewrite delete_items_all_spec.
  destruct (restore_all_other_tables (ledger done) (decrement_all done d2))
    as (R1 & R2 & R3).
  destruct (decrement_all_other_tables done d2) as (D1 & D2 & D3 & _).
  unfold delete_order_where, set_orders, set_order_items.
  cbn [orders order_items products customers].
  rewrite R1, R2, R3, D1, D2, D3.
  split; [|split; [|split]].
  - unfold d2, insert_order_items, insert_order. cbn [orders].
    change (next_order_id d) with (order_id o) at 1.
    apply delete_new_order. intros x Hx. apply Ho, Hx.
  - unfold d2, insert_order_items, insert_order. cbn [order_items next_item_id].
    apply delete_stamped. intros i Hin. apply Hi, Hin.
  - assert (Hp2 : products d2 = products d) by reflexivity.
    assert (Hu2 : unique_ids (map prod_id (products d2)) = true)
      by (rewrite Hp2; exact Hu).
    rewrite products_restore_all.
    + rewrite products_decrement_all by exact Hu2.
      rewrite restore_decrement_rows; [exact Hp2|].
      intros l p Hl Hp. rewrite Hp2 in Hp.
      apply (admission_stocked d items lines Ha Hu); [|exact Hp].
      unfold lines. apply in_app_iff. left. exact Hl.
    + rewrite products_decrement_all by exact Hu2.
      rewrite map_prod_id_decrement_rows. exact Hu2.
  - reflexivity.
Qed.

(** C3: on a well-formed store, let the customer exist and the validation
    pass admit the lines. Let exactly one round trip raise: the read or the
    update of a decrement of step 3, so that the order row, the item rows
    and the decrements of the lines [done] before it are in the store and
    the raising decrement has not written. Then [create_order] raises the
    [OrderError] that wraps the store's exception, and after the
    compensation [orders], [order_items], [products] and [customers] are
    what they were before the call. *)
Theorem create_order_decrement_fault_compensated (customer_id : Z)
    (items : list Requested) (w : World) (c : Customer)
    (done : list Line) (cur : Line) (rest : list Line) (r : nat) (later : list bool) :
    first_row (customers_by_id customer_id (db w)) = Some c ->
    admission (db w) items = Ok (done ++ cur :: rest) ->
    wf_db (db w) = true ->
    (r = 0 \/ r = 1)%nat ->
    faults w = repeat false (5 + List.length items + 3 * List.length done + r)
               ++ true :: later ->
    quiet later = true ->
    let res := create_order customer_id items w in
    fst res = Raise (OrderError (FailedToCreateOrder StoreFault))
    /\ orders (db (snd res)) = orders (db w)
    /\ order_items (db (snd res)) = order_items (db w)
    /\ products (db (snd res)) = products (db w)
    /\ customers (db (snd res)) = customers (db w).
Proof.
  intros Hc Ha Hw Hr Hfs Hq res.
  destruct (wf_db_inv _ Hw) as (Hu & Ho & Hi).
  set (lines := done ++ cur :: rest) in *.
  set (d := db w) in *.
  set (o := new_order customer_id (order_total lines) "PLACED" d).
  set (its := stamp_items (next_item_id d) (next_order_id d) lines).
  set (d2 := insert_order_items (next_order_id d) lines
               (insert_order customer_id (order_total lines) "PLACED" d)).
  set (f1 := mkFrame (mkWorld (decrement_all done d2) (faults w))
                     (Some o) its ([] ++ ledger done)).
  assert (Hrec : recovers (create_order customer_id items)
                   (5 + List.length items + 3 * List.length done + r) w
                   (Raise (OrderError (FailedToCreateOrder StoreFault)))
                   (mkWorld (compensated f1) (faults w))).
  { unfold create_order.
    replace (5 + List.length items + 3 * List.length done + r)%nat
      with (1 + (List.length items + (4 + 3 * List.length done + r)))%nat by lia.
    eapply recovers_bind_r; [apply steps_get_customer_by_id|]. fold d. rewrite Hc.
    eapply recovers_bind_r; [apply steps_validate_lines; exact Ha|].
    cbv zeta.
    apply (recovers_with_locals _ _ w _
             (with_world (mkWorld (compensated f1) (faults (world f1))) f1)).
    eapply recovers_try; [|apply completes_on_failure].
    apply (faults_create_order_steps customer_id done cur rest r (mkFrame w None [] []));
      [intros x Hx; apply Ho, Hx | intros i Hin; apply Hi, Hin | | exact Hr].
    apply admission_listed with (items := items). exact Ha. }
  destruct w as [d0 fs0]. cbn [faults db] in *. subst fs0.
  destruct (Hrec (repeat false (5 + List.length items + 3 * List.length done + r)
                  ++ true :: later) (calm_repeat _ _) (nth_repeat _ _ _)) as [fs' E].
  { rewrite skipn_S_repeat. exact Hq. }
  cbn [reschedule World_Scheduled db] in E. subst res. rewrite E. cbn [fst snd db].
  split; [reflexivity|].
  apply (compensated_tables customer_id items d0 done cur rest Ha Hw).
Qed.

(** ** A run that returns did not meet a fault *)

Section Unfazed.
Context {S : Type} `{Scheduled S}.

Lemma unfazed_ret {A} (a : A) : unfazed (@ret S A a).
Proof. intros s b s' [= <- <-]. reflexivity. Qed.

Lemma unfazed_raise {A} (e : exn) : unfazed (@raise S A e).
Proof. intros s b s' [=]. Qed.

Lemma unfazed_of_outcome {A} (o : outcome A) : unfazed (@of_outcome S A o).
Proof. intros s b s' [= -> <-]. reflexivity. Qed.

Lemma unfazed_bind {A B} (m : M S A) (k : A -> M S B) :
    unfazed m -> (forall a, unfazed (k a)) -> unfazed (bind m k).
Proof.
  intros Hm Hk s b s'. unfold bind.
  destruct (m s) as [[a|e] s1] eqn:E; [|discriminate].
  intros Hb. rewrite (Hm _ _ _ E). apply Hk, Hb.
Qed.

Lemma unfazed_try {A} (m : M S A) (h : exn -> M S A) :
    unfazed m -> (forall e s a, fst (h e s) <> Ok a) -> unfazed (try_except m h).
Proof.
  intros Hm Hh s b s'. unfold try_except.
  destruct (m s) as [[a|e] s1] eqn:E.
  - intros [= <- <-]. rewrite (Hm _ _ _ E). reflexivity.
  - intros Hb. exfalso. apply (Hh e s1 b). rewrite Hb. reflexivity.
Qed.

Lemma unfazed_for_each {A} (l : list A) (body : A -> M S unit) :
    (forall x, unfazed (body x)) -> unfazed (for_each l body).
Proof.
  intros Hb. induction l as [|x l IH]; cbn [for_each].
  - apply unfazed_ret.
  - apply unfazed_bind; [apply Hb | intros _; exact IH].
Qed.

End Unfazed.

Lemma unfazed_query {A} (f : DB -> A) : unfazed (query f).
Proof.
  intros [d fs] a w'. unfold query, execute, bind, gets. cbn.
  destruct (hd false fs); [discriminate|]. intros [= <- <-]. reflexivity.
Qed.

Lemma unfazed_command (g : DB -> DB) : unfazed (command g).
Proof.
  intros [d fs] a w'. unfold command, execute, bind, modify. cbn.
  destruct (hd false fs); [discriminate|]. intros [= <- <-]. reflexivity.
Qed.

Lemma unfazed_lift {A} (m : M World A) : unfazed m -> unfazed (lift m).
Proof.
  intros Hm [[d fs] co ci ups] a f'. unfold lift. cbn [world].
  destruct (m (mkWorld d fs)) as [o w1] eqn:E. intros [= -> <-].
  cbn [reschedule Frame_Scheduled world db created_order created_items updated_products].
  specialize (Hm _ _ _ E). cbn [reschedule World_Scheduled db] in Hm.
  rewrite Hm. reflexivity.
Qed.

Lemma unfazed_with_locals {A} (m : M Frame A) : unfazed m -> unfazed (with_locals m).
Proof.
  intros Hm [d fs] a w'. unfold with_locals.
  destruct (m (mkFrame (mkWorld d fs) None [] [])) as [o f1] eqn:E. intros [= -> <-].
  specialize (Hm _ _ _ E).
  cbn [reschedule Frame_Scheduled World_Scheduled world db created_order
       created_items updated_products] in *.
  rewrite Hm. reflexivity.
Qed.

Lemma unfazed_get_product_by_id (pid : Z) : unfazed (get_product_by_id pid).
Proof.
  apply unfazed_bind; [apply unfazed_query | intros a; apply unfazed_ret].
Qed.

Lemma unfazed_update_product (pid : Z) (fields : list product_field) :
    unfazed (update_product pid fields).
Proof.
  apply unfazed_bind; [apply unfazed_command | intros _].
  apply unfazed_bind; [apply unfazed_query | intros a; apply unfazed_ret].
Qed.

Lemma unfazed_validate_lines (items : list Requested) : unfazed (validate_lines items).
Proof.
  induction items as [|it rest IH]; cbn [validate_lines].
  - apply unfazed_ret.
  - apply unfazed_bind; [apply unfazed_get_product_by_id | intros prod].
    apply unfazed_bind; [apply unfazed_of_outcome | intros l].
    apply unfazed_bind; [exact IH | intros ls; apply unfazed_ret].
Qed.

Lemma unfazed_modify_locals (g : Frame -> Frame) :
    (forall fs f, g (reschedule fs f) = reschedule fs (g f)) ->
    unfazed (modify g).
Proof. intros Hg f a f' [= <- <-]. unfold modify. rewrite Hg. reflexivity. Qed.

Lemma unfazed_decrement_stock (l : Line) : unfazed (decrement_stock l).
Proof.
  apply unfazed_bind; [apply unfazed_lift, unfazed_get_product_by_id | intros [p|]].
  - apply unfazed_bind; [apply unfazed_lift, unfazed_update_product | intros _].
    apply unfazed_modify_locals. reflexivity.
  - apply unfazed_raise.
Qed.

Lemma unfazed_create_order_steps (customer_id : Z) (total : price) (lines : list Line) :
    unfazed (create_order_steps customer_id total lines).
Proof.
  apply unfazed_bind.
  { apply unfazed_lift.
    apply unfazed_bind; [apply unfazed_command | intros _].
    apply unfazed_bind; [apply unfazed_query | intros a; apply unfazed_ret]. }
  intros co.
  apply unfazed_bind; [apply unfazed_modify_locals; reflexivity | intros _].
  destruct co as [o|]; [|apply unfazed_raise].
  apply unfazed_bind.
  { apply unfazed_lift.
    apply unfazed_bind; [apply unfazed_command | intros _].
    apply unfazed_bind; [apply unfazed_query | intros a; apply unfazed_ret]. }
  intros its.
  apply unfazed_bind; [apply unfazed_modify_locals; reflexivity | intros _].
  apply unfazed_bind; [|intros _; apply unfazed_ret].
  apply unfazed_for_each, unfazed_decrement_stock.
Qed.

Lemma unfazed_create_order (customer_id : Z) (items : list Requested) :
    unfazed (create_order customer_id items).
Proof.
  apply unfazed_bind.
  { apply unfazed_bind; [apply unfazed_query | intros a; apply unfazed_ret]. }
  intros [c|]; [|apply unfazed_raise].
  apply unfazed_bind; [apply unfazed_validate_lines | intros lines].
  apply unfazed_with_locals, unfazed_try; [apply unfazed_create_order_steps|].
  intros e f a Hf. rewrite on_failure_raises_cause in Hf. discriminate.
Qed.

(** ** What a created order is *)

Lemma completes_create_order_rejects (customer_id : Z) (items : list Requested)
    (w : World) :
    match first_row (customers_by_id customer_id (db w)), admission (db w) items with
    | None, _ => completes (create_order customer_id items) w
                   (Raise (OrderError CustomerNotFound)) w
    | Some _, Raise e => completes (create_order customer_id items) w (Raise e) w
    | Some _, Ok _ => True
    end.
Proof.
  destruct (first_row (customers_by_id customer_id (db w))) as [c|] eqn:Ec.
  - destruct (admission (db w) items) as [lines|e] eqn:Ea; [exact I|].
    unfold create_order.
    eapply completes_bind; [eexists; apply steps_get_customer_by_id|]. rewrite Ec.
    apply completes_bind_raise. rewrite <- Ea. apply completes_validate_lines.
  - unfold create_order.
    eapply completes_bind; [eexists; apply steps_get_customer_by_id|]. rewrite Ec.
    apply completes_raise.
Qed.

Lemma create_order_ok_inv (customer_id : Z) (items : list Requested) (w w' : World)
    (o : Order) (its : list OrderItem) :
    wf_db (db w) = true ->
    create_order customer_id items w = (Ok (o, its), w') ->
    exists c lines,
      first_row (customers_by_id customer_id (db w)) = Some c
      /\ admission (db w) items = Ok lines
      /\ o = new_order customer_id (order_total lines) "PLACED" (db w)
      /\ its = stamp_items (next_item_id (db w)) (next_order_id (db w)) lines
      /\ db w' = placed customer_id lines (db w).
Proof.
  intros Hw E. apply unfazed_create_order in E.
  cbn [reschedule World_Scheduled] in E.
  pose proof (completes_create_order_rejects customer_id items (mkWorld (db w) [])) as Hrej.
  cbn [db] in Hrej.
  destruct (first_row (customers_by_id customer_id (db w))) as [c|] eqn:Ec.
  - destruct (admission (db w) items) as [lines|e] eqn:Ea.
    + exists c, lines.
      pose proof (steps_create_order customer_id items (mkWorld (db w) []) c lines
                    Ec Ea Hw) as Hs.
      apply steps_quiet in Hs; [|reflexivity]. rewrite Hs in E.
      injection E as <- <- E. cbn [db] in E. repeat split. symmetry. exact E.
    + destruct (completes_quiet _ _ _ _ Hrej eq_refl) as [Hf _].
      rewrite E in Hf. discriminate.
  - destruct (completes_quiet _ _ _ _ Hrej eq_refl) as [Hf _].
    rewrite E in Hf. discriminate.
Qed.

Lemma items_total_stamped (next oid : Z) (lines : list Line) :
    items_total (stamp_items next oid lines) = order_total lines.
Proof.
  unfold items_total, order_total. generalize pzero. revert next.
  induction lines as [|l lines IH]; intros next acc; [reflexivity|].
  cbn [stamp_items fold_left quantity i_price]. apply IH.
Qed.

Lemma update_product_orders (pid : Z) (fields : list product_field) (w : World) :
    orders (db (snd (update_product pid fields w))) = orders (db w)
    /\ order_items (db (snd (update_product pid fields w))) = order_items (db w).
Proof.
  destruct w as [d fs].
  unfold update_product, command, query, execute, bind, modify, gets, ret. cbn.
  destruct (hd false fs); cbn; [split; reflexivity|].
  destruct (hd false (tl fs)); cbn; split; reflexivity.
Qed.

Lemma order_by_id_fresh (old : list Order) (o : Order) :
    (forall x, In x old -> order_id x < order_id o) ->
    first_row (limit 1 (filter (fun x => order_id x =? order_id o) (old ++ [o])))
    = Some o.
Proof.
  intros Hold. rewrite first_row_limit_1, filter_app, filter_none.
  - cbn [filter app]. rewrite Z.eqb_refl. reflexivity.
  - intros x Hx. apply Z.eqb_neq. specialize (Hold x Hx). lia.
Qed.

Lemma stamped_lines (P : Z -> price -> Prop) (next oid : Z) (lines : list Line) :
    (forall l, In l lines -> P (l_prod_id l) (l_price l)) ->
    Forall (fun i => P (i_prod_id i) (i_price i)) (stamp_items next oid lines).
Proof.
  revert next. induction lines as [|l lines IH]; intros next Hl; cbn [stamp_items].
  - constructor.
  - constructor; [apply Hl; left; reflexivity|].
    apply IH. intros x Hx. apply Hl. right. exact Hx.
Qed.

Lemma admitted_price (d : DB) (items : list Requested) (lines : list Line) :
    Forall2 (admitted d) items lines ->
    forall l, In l lines ->
      exists p, first_row (products_by_id (l_prod_id l) d) = Some p
                /\ l_price l = p_price p.
Proof.
  induction 1 as [|it l0 items lines Hl _ IH]; intros l Hin; [destruct Hin|].
  destruct Hin as [<- | Hin]; [|exact (IH l Hin)].
  destruct Hl as (p & Hp & -> & _). exists p. split; [exact Hp | reflexivity].
Qed.

(** C5: on a well-formed store and under every fault schedule, when
    [create_order] returns an order, its [total_amount] is the sum, taken
    as [sum] takes it, of quantity times price over the returned items;
    the price of each item is the price of the product row that the store
    held for that product id when the call was made; and after any later
    update of a product row, reading the order back gives the same order
    row, total included, and the same items. *)
Theorem create_order_total_and_prices (customer_id : Z) (items : list Requested)
    (w w' : World) (o : Order) (its : list OrderItem) :
    wf_db (db w) = true ->
    create_order customer_id items w = (Ok (o, its), w') ->
    total_amount o = items_total its
    /\ Forall (fun i => exists p,
                 first_row (products_by_id (i_prod_id i) (db w)) = Some p
                 /\ i_price i = p_price p) its
    /\ forall pid fields fs,
         fst (get_order (order_id o)
                (mkWorld (db (snd (update_product pid fields (mkWorld (db w') fs)))) []))
         = Ok (Some (o, its)).
Proof.
  intros Hw E.
  destruct (create_order_ok_inv _ _ _ _ _ _ Hw E)
    as (c & lines & Hc & Ha & -> & -> & Hd).
  destruct (wf_db_inv _ Hw) as (_ & Ho & Hi).
  split; [|split].
  - rewrite items_total_stamped. reflexivity.
  - apply (stamped_lines (fun pid x => exists p,
             first_row (products_by_id pid (db w)) = Some p /\ x = p_price p)).
    apply admitted_price with (items := items), admission_inv, Ha.
  - intros pid fields fs. rewrite Hd.
    set (d1 := placed customer_id lines (db w)).
    assert (P1 : orders d1 = orders (db w)
                 ++ [new_order customer_id (order_total lines) "PLACED" (db w)]).
    { unfold d1, placed.
      destruct (decrement_all_other_tables lines
                  (insert_order_items (next_order_id (db w)) lines
                     (insert_order customer_id (order_total lines) "PLACED" (db w))))
        as (_ & D2 & _).
      rewrite D2. reflexivity. }
    assert (P2 : order_items d1 = order_items (db w)
                 ++ stamp_items (next_item_id (db w)) (next_order_id (db w)) lines).
    { unfold d1, placed.
      destruct (decrement_all_other_tables lines
                  (insert_order_items (next_order_id (db w)) lines
                     (insert_order customer_id (order_total lines) "PLACED" (db w))))
        as (_ & _ & D3 & _).
      rewrite D3. reflexivity. }
    destruct (update_product_orders pid fields (mkWorld d1 fs)) as [U1 U2].
    cbn [db] in U1, U2.
    match goal with |- fst (get_order ?oid ?w0) = _ =>
      destruct (completes_quiet _ _ _ _ (completes_get_order oid w0) eq_refl) as [G _]
    end.
    rewrite G. cbn [db]. unfold orders_by_id, items_of_order.
    rewrite U1, U2, P1, P2.
    rewrite order_by_id_fresh by (intros x Hx; apply Ho, Hx).
    cbn [option_map new_order order_id].
    rewrite filter_app, filter_none, filter_all; [reflexivity | |].
    + intros x Hx. apply stamp_items_spec in Hx. apply Z.eqb_eq, Hx.
    + intros x Hx. apply Z.eqb_neq. specialize (Hi x Hx). lia.
Qed.


(** ** Stock after an order whose lines name distinct products *)

Lemma stock_read_decrement_all (lines : list Line) (d : DB) (pid : Z) :
    stock_read (decrement_all lines d) pid
    = option_map (fun s => s - ordered lines pid) (stock_read d pid).
Proof.
  unfold decrement_all. revert d. induction lines as [|l lines IH]; intros d; simpl.
  - destruct (stock_read d pid); simpl; [rewrite Z.sub_0_r|]; reflexivity.
  - rewrite IH, stock_read_add_stock. rewrite (Z.eqb_sym pid).
    destruct (l_prod_id l =? pid); [|reflexivity].
    destruct (stock_read d pid); simpl; [|reflexivity].
    f_equal. lia.
Qed.

Lemma ordered_absent (d : DB) (items : list Requested) (lines : list Line) (pid : Z) :
    Forall2 (admitted d) items lines ->
    ~ In pid (map r_prod_id items) ->
    ordered lines pid = 0.
Proof.
  induction 1 as [|it l items lines Hl _ IH]; intros Hn; [reflexivity|].
  cbn [ordered fold_right]. fold (ordered lines pid).
  destruct Hl as (p & _ & -> & _). cbn [l_prod_id l_quantity].
  destruct (r_prod_id it =? pid) eqn:E.
  - apply Z.eqb_eq in E. exfalso. apply Hn. left. exact E.
  - apply IH. intros Hin. apply Hn. right. exact Hin.
Qed.

Lemma ordered_covered (d : DB) (items : list Requested) (lines : list Line)
    (pid s : Z) :
    Forall2 (admitted d) items lines ->
    NoDup (map r_prod_id items) ->
    stock_read d pid = Some s -> 0 <= s ->
    ordered lines pid <= s.
Proof.
  induction 1 as [|it l items lines Hl Hrest IH]; intros Hnd Hs Hpos; [exact Hpos|].
  cbn [map] in Hnd. inversion Hnd as [|x xs Hnotin Hnd']. subst x xs.
  cbn [ordered fold_right]. fold (ordered lines pid).
  destruct Hl as (p & Hp & -> & _ & s0 & Hs0 & Hq). cbn [l_prod_id l_quantity].
  destruct (r_prod_id it =? pid) eqn:E.
  - apply Z.eqb_eq in E. subst pid.
    rewrite (ordered_absent d items lines _ Hrest Hnotin).
    unfold stock_read in Hs. rewrite Hp in Hs. cbn [option_map] in Hs.
    unfold stock_or_0 in Hs. rewrite Hs0 in Hs. injection Hs as <-. lia.
  - exact (IH Hnd' Hs Hpos).
Qed.

(** X29: when no product id is named twice, the per-line check of the
    validation loop is enough: after a successful order every product reads
    its former stock less what the order took, and no stock that was
    non-negative is made negative. *)
Lemma create_order_distinct_products_stock (customer_id : Z) (items : list Requested)
    (w : World) (c : Customer) (lines : list Line) (pid s : Z) :
    quiet (faults w) = true ->
    first_row (customers_by_id customer_id (db w)) = Some c ->
    admission (db w) items = Ok lines ->
    wf_db (db w) = true ->
    NoDup (map r_prod_id items) ->
    stock_read (db w) pid = Some s -> 0 <= s ->
    stock_read (db (snd (create_order customer_id items w))) pid
    = Some (s - ordered lines pid)
    /\ 0 <= s - ordered lines pid.
Proof.
  intros Hq Hc Ha Hw Hnd Hs Hpos.
  rewrite (steps_quiet _ _ _ _ _ (steps_create_order _ _ _ _ _ Hc Ha Hw) Hq).
  cbn [snd db]. unfold placed. rewrite stock_read_decrement_all.
  change (stock_read (insert_order_items (next_order_id (db w)) lines
                        (insert_order customer_id (order_total lines) "PLACED" (db w)))
                     pid)
    with (stock_read (db w) pid).
  rewrite Hs. cbn [option_map]. split; [reflexivity|].
  pose proof (ordered_covered _ _ _ pid s (admission_inv _ _ _ Ha) Hnd Hs Hpos). lia.
Qed.


(** ** Well-formed stores stay well formed *)

Lemma wf_db_intro (d : DB) :
    unique_ids (map prod_id (products d)) = true ->
    (forall o, In o (orders d) ->
       order_id o < next_order_id d /\ order_date o < clock d) ->
    (forall i, In i (order_items d) ->
       item_id i < next_item_id d /\ i_order_id i < next_order_id d) ->
    wf_db d = true.
Proof.
  intros Hu Ho Hi. unfold wf_db. rewrite Hu. cbn [andb].
  apply andb_true_iff. split; apply forallb_forall.
  - intros o Hin. destruct (Ho o Hin) as [H1 H2].
    apply andb_true_iff. split; apply Z.ltb_lt; assumption.
  - intros i Hin. destruct (Hi i Hin) as [H1 H2].
    apply andb_true_iff. split; apply Z.ltb_lt; assumption.
Qed.

Lemma map_prod_id_add_stock (pid delta : Z) (d : DB) :
    map prod_id (products (add_stock pid delta d)) = map prod_id (products d).
Proof.
  unfold add_stock. destruct (first_row (products_by_id pid d)); [|reflexivity].
  unfold update_product_where, set_products. cbn [products].
  rewrite map_map. apply map_ext. intros x. destruct (prod_id x =? pid); reflexivity.
Qed.

Lemma wf_add_stock (pid delta : Z) (d : DB) :
    wf_db d = true -> wf_db (add_stock pid delta d) = true.
Proof.
  intros Hw. destruct (wf_db_inv _ Hw) as (Hu & Ho & Hi).
  destruct (add_stock_other_tables pid delta d) as (_ & G2 & G3 & G4 & G5 & G6).
  apply wf_db_intro.
  - rewrite map_prod_id_add_stock. exact Hu.
  - rewrite G2, G4, G6. exact Ho.
  - rewrite G3, G4, G5. exact Hi.
Qed.

Lemma wf_decrement_all (lines : list Line) (d : DB) :
    wf_db d = true -> wf_db (decrement_all lines d) = true.
Proof.
  unfold decrement_all. revert d.
  induction lines as [|l lines IH]; intros d Hw; cbn [fold_left]; [exact Hw|].
  apply IH, wf_add_stock, Hw.
Qed.

Lemma wf_insert_order (cust : Z) (total : price) (st : string) (d : DB) :
    wf_db d = true -> wf_db (insert_order cust total st d) = true.
Proof.
  intros Hw. destruct (wf_db_inv _ Hw) as (Hu & Ho & Hi).
  apply wf_db_intro; unfold insert_order;
    cbn [products orders order_items next_order_id next_item_id clock].
  - exact Hu.
  - intros o Hin. apply in_app_iff in Hin. destruct Hin as [Hin | [<- | []]].
    + destruct (Ho o Hin). lia.
    + cbn [order_id order_date]. lia.
  - intros i Hin. destruct (Hi i Hin). lia.
Qed.

Lemma stamp_items_below (next oid : Z) (ls : list Line) (i : OrderItem) :
    In i (stamp_items next oid ls) -> item_id i < next + Z.of_nat (List.length ls).
Proof.
  revert next. induction ls as [|l ls IH]; intros next Hin; [destruct Hin|].
  cbn [List.length]. destruct Hin as [<- | Hin]; [cbn [item_id]; lia|].
  specialize (IH _ Hin). lia.
Qed.

Lemma wf_insert_order_items (oid : Z) (ls : list Line) (d : DB) :
    wf_db d = true -> oid < next_order_id d ->
    wf_db (insert_order_items oid ls d) = true.
Proof.
  intros Hw Hoid. destruct (wf_db_inv _ Hw) as (Hu & Ho & Hi).
  apply wf_db_intro; unfold insert_order_items;
    cbn [products orders order_items next_order_id next_item_id clock].
  - exact Hu.
  - exact Ho.
  - intros i Hin. apply in_app_iff in Hin. destruct Hin as [Hin | Hin].
    + destruct (Hi i Hin). lia.
    + pose proof (stamp_items_below _ _ _ _ Hin).
      apply stamp_items_spec in Hin. lia.
Qed.

(** The store that a successful [create_order] leaves is well formed. *)
Lemma wf_placed (customer_id : Z) (lines : list Line) (d : DB) :
    wf_db d = true -> wf_db (placed customer_id lines d) = true.
Proof.
  intros Hw. unfold placed.
  apply wf_decrement_all, wf_insert_order_items; [apply wf_insert_order, Hw|].
  unfold insert_order. cbn [next_order_id]. lia.
Qed.

(** So is the store that a cancellation leaves. *)
Lemma wf_cancelled (oid : Z) (items : list OrderItem) (d : DB) :
    wf_db d = true ->
    wf_db (update_status_where oid "CANCELLED" (restock_all items d)) = true.
Proof.
  intros Hw.
  assert (Hr : wf_db (restock_all items d) = true).
  { unfold restock_all. revert d Hw.
    induction items as [|it items IH]; intros d Hw; cbn [fold_left]; [exact Hw|].
    apply IH, wf_add_stock, Hw. }
  destruct (wf_db_inv _ Hr) as (Hu & Ho & Hi).
  apply wf_db_intro; unfold update_status_where, set_orders;
    cbn [products orders order_items next_order_id next_item_id clock];
    [exact Hu | | exact Hi].
  intros o Hin. apply in_map_iff in Hin. destruct Hin as (x & <- & Hx).
  destruct (order_id x =? oid); [cbn [set_status order_id order_date]|]; apply Ho, Hx.
Qed.


(** * Further properties *)

(** ** Under any schedule: what one round trip does *)

Lemma query_cases {A} (f : DB -> A) (w : World) :
    query f w = (Raise StoreFault, mkWorld (db w) (tl (faults w)))
    \/ query f w = (Ok (f (db w)), mkWorld (db w) (tl (faults w))).
Proof.
  unfold query, execute, bind, gets. cbn.
  destruct (hd false (faults w)); [left | right]; reflexivity.
Qed.

Lemma command_cases (g : DB -> DB) (w : World) :
    command g w = (Raise StoreFault, mkWorld (db w) (tl (faults w)))
    \/ command g w = (Ok tt, mkWorld (g (db w)) (tl (faults w))).
Proof.
  unfold command, execute, bind, modify. cbn.
  destruct (hd false (faults w)); [left | right]; reflexivity.
Qed.

(** ** Listing the orders of a customer *)

Lemma insert_row_perm {A} (key : A -> Z) (desc : bool) (x : A) (l : list A) :
    Permutation (insert_row key desc x l) (x :: l).
Proof.
  induction l as [|y l IH]; cbn [insert_row]; [apply Permutation_refl|].
  destruct (goes_before key desc x y); [apply Permutation_refl|].
  eapply Permutation_trans; [apply perm_skip, IH | apply perm_swap].
Qed.

Lemma order_rows_perm {A} (key : A -> Z) (desc : bool) (l : list A) :
    Permutation (order_rows key desc l) l.
Proof.
  induction l as [|x l IH]; cbn [order_rows fold_right]; [apply perm_nil|].
  eapply Permutation_trans; [apply insert_row_perm | apply perm_skip, IH].
Qed.

Lemma goes_before_in_order {A} (key : A -> Z) (desc : bool) (x y : A) :
    (goes_before key desc x y = true -> in_order key desc x y)
    /\ (goes_before key desc x y = false -> in_order key desc y x).
Proof.
  unfold goes_before, in_order. destruct desc; split; intros E;
    try (apply Z.leb_le in E; exact E); apply Z.leb_gt in E; lia.
Qed.

Lemma in_order_trans {A} (key : A -> Z) (desc : bool) (x y z : A) :
    in_order key desc x y -> in_order key desc y z -> in_order key desc x z.
Proof. unfold in_order. destruct desc; lia. Qed.

Lemma insert_row_sorted {A} (key : A -> Z) (desc : bool) (x : A) (l : list A) :
    StronglySorted (in_order key desc) l ->
    StronglySorted (in_order key desc) (insert_row key desc x l).
Proof.
  induction 1 as [|y l Hs IH Hy]; cbn [insert_row].
  - constructor; constructor.
  - destruct (goes_before_in_order key desc x y) as [Ht Hf].
    destruct (goes_before key desc x y).
    + specialize (Ht eq_refl). constructor; [constructor; assumption|].
      constructor; [exact Ht|].
      eapply Forall_impl; [|exact Hy]. intros z Hz.
      exact (in_order_trans key desc x y z Ht Hz).
    + specialize (Hf eq_refl). constructor; [exact IH|].
      eapply Permutation_Forall; [apply Permutation_sym, insert_row_perm|].
      constructor; assumption.
Qed.

Lemma order_rows_sorted {A} (key : A -> Z) (desc : bool) (l : list A) :
    StronglySorted (in_order key desc) (order_rows key desc l).
Proof.
  induction l as [|x l IH]; cbn [order_rows fold_right]; [constructor|].
  apply insert_row_sorted, IH.
Qed.

(** X1: under every fault schedule, the rows that
    [list_orders_by_customer] returns are the orders of that customer, each
    row once, the most recent first. *)
Theorem list_orders_by_customer_newest_first (cust : Z) (w : World) (rows : list Order) :
    fst (list_orders_by_customer cust w) = Ok rows ->
    Permutation rows (orders_of_customer cust (db w))
    /\ StronglySorted (fun x y => order_date y <= order_date x) rows.
Proof.
  unfold list_orders_by_customer, bind, ret.
  destruct (query_cases
              (fun d => order_rows order_date true
                          (filter (fun o => o_cust_id o =? cust) (orders d))) w)
    as [E | E]; rewrite E; cbn [fst]; [discriminate|].
  intros [= <-]. split.
  - apply order_rows_perm.
  - apply (order_rows_sorted order_date true).
Qed.


(** ** Reading an order *)

Lemma get_order_db (oid : Z) (w : World) : db (snd (get_order oid w)) = db w.
Proof.
  unfold get_order. unfold bind at 1.
  destruct (query_cases (orders_by_id oid) w) as [E | E]; rewrite E; [reflexivity|].
  destruct (orders_by_id oid (db w)) as [|o os]; [reflexivity|].
  rewrite bind_ret_db, query_db. reflexivity.
Qed.

(** X2: under every fault schedule, [get_order] and [get_order_details]
    leave every table, counter and the clock of the store as they were. *)
Theorem get_order_details_reads_only (oid : Z) (w : World) :
    db (snd (get_order oid w)) = db w
    /\ db (snd (get_order_details oid w)) = db w.
Proof.
  split; [apply get_order_db|].
  unfold get_order_details. unfold bind at 1.
  pose proof (get_order_db oid w) as Hg.
  destruct (get_order oid w) as [[[[o items]|]|e] w1]; cbn [snd] in Hg;
    [|exact Hg|exact Hg].
  rewrite bind_ret_db, get_customer_by_id_db. exact Hg.
Qed.

(** X3: when the round trips go through, [get_order_details] raises the
    order-not-found error exactly when no order row has the id; otherwise
    it returns the first such row, all item rows of that order id, and the
    row of the owning customer, or [None] when no customer row has that id
    any more. *)
Theorem get_order_details_outcome (oid : Z) (w : World) :
    quiet (faults w) = true ->
    fst (get_order_details oid w)
    = match first_row (orders_by_id oid (db w)) with
      | None => Raise (OrderError OrderNotFound)
      | Some o => Ok (o, items_of_order oid (db w),
                      first_row (customers_by_id (o_cust_id o) (db w)))
      end.
Proof.
  intros Hq.
  assert (Hc : completes (get_order_details oid) w
                 match first_row (orders_by_id oid (db w)) with
                 | None => Raise (OrderError OrderNotFound)
                 | Some o => Ok (o, items_of_order oid (db w),
                                 first_row (customers_by_id (o_cust_id o) (db w)))
                 end w).
  { unfold get_order_details.
    eapply completes_bind; [apply completes_get_order|].
    destruct (first_row (orders_by_id oid (db w))) as [o|]; cbn [option_map].
    - eapply completes_bind; [eexists; apply steps_get_customer_by_id|].
      apply completes_ret.
    - apply completes_raise. }
  destruct (completes_quiet _ _ _ _ Hc Hq) as [Hf _]. exact Hf.
Qed.

(** ** Deleting an order and updating its status *)

Lemma filter_out_then_in {A} (key : A -> Z) (k : Z) (l : list A) :
    filter (fun x => key x =? k) (filter (fun x => negb (key x =? k)) l) = [].
Proof.
  rewrite filter_filter. apply filter_none. intros x _.
  destruct (key x =? k); reflexivity.
Qed.

Lemma filter_out_other {A} (key : A -> Z) (k k' : Z) (l : list A) :
    k' <> k ->
    filter (fun x => key x =? k') (filter (fun x => negb (key x =? k)) l)
    = filter (fun x => key x =? k') l.
Proof.
  intros Hk. rewrite filter_filter. apply filter_ext. intros x.
  destruct (key x =? k') eqn:E'; [|apply andb_false_r].
  apply Z.eqb_eq in E'. destruct (key x =? k) eqn:E; [|reflexivity].
  apply Z.eqb_eq in E. congruence.
Qed.

Lemma completes_delete_order (oid : Z) (w : World) :
    completes (delete_order oid) w
      (Ok (first_row (orders_by_id oid (db w))))
      (mkWorld (delete_order_where oid (delete_items_of_order_where oid (db w)))
               (faults w)).
Proof.
  unfold delete_order.
  eapply completes_bind; [apply completes_query|].
  eapply completes_bind; [apply completes_command|].
  eapply completes_bind; [apply completes_command|].
  apply completes_ret.
Qed.

(** X4: when the round trips go through, [delete_order] returns the order
    row as it was read before the deletes ([None] when there was none);
    afterwards no order row and no item row has that order id, and the
    rows that a read by any other order id finds, in [orders] and in
    [order_items], are the same as before, as are [products] and
    [customers]. *)
Theorem delete_order_removes (oid : Z) (w : World) :
    quiet (faults w) = true ->
    let r := delete_order oid w in
    fst r = Ok (first_row (orders_by_id oid (db w)))
    /\ orders_by_id oid (db (snd r)) = []
    /\ items_of_order oid (db (snd r)) = []
    /\ (forall oid', oid' <> oid ->
          orders_by_id oid' (db (snd r)) = orders_by_id oid' (db w)
          /\ items_of_order oid' (db (snd r)) = items_of_order oid' (db w))
    /\ products (db (snd r)) = products (db w)
    /\ customers (db (snd r)) = customers (db w).
Proof.
  intros Hq r.
  destruct (completes_quiet _ _ _ _ (completes_delete_order oid w) Hq) as (R1 & R2 & _).
  subst r. rewrite R1, R2. cbn [db].
  unfold orders_by_id, items_of_order, delete_order_where,
    delete_items_of_order_where, set_orders, set_order_items.
  cbn [orders order_items products customers].
  split; [reflexivity|]. split; [|split; [|split; [|split; reflexivity]]].
  - rewrite (filter_out_then_in order_id). reflexivity.
  - apply (filter_out_then_in i_order_id).
  - intros oid' Hne. split.
    + rewrite (filter_out_other order_id) by exact Hne. reflexivity.
    + apply (filter_out_other i_order_id). exact Hne.
Qed.

Lemma update_status_where_absent (oid : Z) (st : string) (d : DB) :
    first_row (orders_by_id oid d) = None ->
    update_status_where oid st d = d.
Proof.
  unfold orders_by_id. rewrite first_row_limit_1. intros Hn.
  unfold update_status_where, set_orders.
  rewrite (map_ext_in _ (fun o => o)).
  - rewrite map_id. destruct d; reflexivity.
  - intros o Hin. rewrite (first_row_filter_none _ _ Hn o Hin). reflexivity.
Qed.

Lemma orders_by_other_id_status (oid oid' : Z) (st : string) (d : DB) :
    oid' <> oid ->
    orders_by_id oid' (update_status_where oid st d) = orders_by_id oid' d.
Proof.
  intros Hne. unfold orders_by_id, update_status_where, set_orders. cbn [orders].
  f_equal. induction (orders d) as [|o os IH]; [reflexivity|]. cbn [map filter].
  destruct (order_id o =? oid) eqn:E.
  - cbn [set_status order_id]. apply Z.eqb_eq in E.
    assert (E' : (order_id o =? oid') = false) by (apply Z.eqb_neq; congruence).
    rewrite E'. exact IH.
  - destruct (order_id o =? oid'); [f_equal|]; exact IH.
Qed.

(** X5: when the round trips go through, [update_order_status] returns the
    first order row of the id with the new status and its other fields as
    they were, and [None] when no row has the id, in which case the store
    is unchanged; the row that a read by any other order id finds is the
    same as before, and [order_items], [products] and [customers] are not
    touched. *)
Theorem update_order_status_outcome (oid : Z) (st : string) (w : World) :
    quiet (faults w) = true ->
    let r := update_order_status oid st w in
    fst r = Ok (option_map (set_status st) (first_row (orders_by_id oid (db w))))
    /\ (first_row (orders_by_id oid (db w)) = None -> db (snd r) = db w)
    /\ (forall oid', oid' <> oid ->
          orders_by_id oid' (db (snd r)) = orders_by_id oid' (db w))
    /\ order_items (db (snd r)) = order_items (db w)
    /\ products (db (snd r)) = products (db w)
    /\ customers (db (snd r)) = customers (db w).
Proof.
  intros Hq r.
  destruct (completes_quiet _ _ _ _ (completes_update_order_status oid st w) Hq)
    as (R1 & R2 & _).
  subst r. rewrite R1, R2. cbn [db]. rewrite order_by_id_status.
  split; [reflexivity|]. split; [apply update_status_where_absent|].
  split; [intros oid' Hne; apply orders_by_other_id_status, Hne|].
  repeat split.
Qed.


(** ** More on cancellation *)

Lemma completes_cancel_order_placed (oid : Z) (w : World) (o : Order) :
    first_row (orders_by_id oid (db w)) = Some o ->
    (status o =? "PLACED")%string = true ->
    completes (cancel_order oid) w
      (Ok (Some (set_status "CANCELLED" o)))
      (mkWorld (update_status_where oid "CANCELLED"
                  (restock_all (items_of_order oid (db w)) (db w)))
               (faults w)).
Proof.
  intros Ho Est. unfold cancel_order.
  eapply completes_bind; [apply completes_get_order|].
  rewrite Ho. cbn [option_map]. rewrite Est. cbn [negb].
  apply completes_try_ok.
  eapply completes_bind; [apply completes_restock_all|].
  eapply completes_bind; [apply completes_update_order_status|].
  cbn [db faults]. rewrite order_by_id_status. unfold orders_by_id.
  destruct (restock_all_other_tables (items_of_order oid (db w)) (db w))
    as (_ & T2 & _).
  rewrite T2. fold (orders_by_id oid (db w)). rewrite Ho. apply completes_ret.
Qed.

Lemma completes_cancel_order_refused (oid : Z) (w : World) :
    match first_row (orders_by_id oid (db w)) with
    | None => completes (cancel_order oid) w (Raise (OrderError OrderNotFound)) w
    | Some o =>
        (status o =? "PLACED")%string = false ->
        completes (cancel_order oid) w (Raise (OrderError OnlyPlacedCanBeCancelled)) w
    end.
Proof.
  destruct (first_row (orders_by_id oid (db w))) as [o|] eqn:Ho; [intros Est|];
    unfold cancel_order;
    (eapply completes_bind; [apply completes_get_order|]);
    rewrite Ho; cbn [option_map]; [rewrite Est|]; apply completes_raise.
Qed.

(** X6: under every fault schedule, a call to [cancel_order] that raises
    the order-not-found error or the only-PLACED-orders error has changed
    nothing in the store. *)
Theorem cancel_order_rejection_untouched (oid : Z) (w : World) (m : order_msg) :
    fst (cancel_order oid w) = Raise (OrderError m) ->
    m = OrderNotFound \/ m = OnlyPlacedCanBeCancelled ->
    db (snd (cancel_order oid w)) = db w.
Proof.
  destruct (cancel_order oid w) as [r w'] eqn:E. cbn [fst snd].
  intros -> Hm. revert E. unfold cancel_order. unfold bind at 1.
  pose proof (get_order_db oid w) as Hg.
  destruct (get_order oid w) as [[[[o items]|]|e] w1]; cbn [snd] in Hg.
  - destruct (negb (status o =? "PLACED")%string).
    + intros [= _ <-]. exact Hg.
    + unfold try_except.
      destruct ((for_each items restock_item;;;
                 updated <- update_order_status oid "CANCELLED";; ret updated) w1)
        as [[u|e] w2].
      * discriminate.
      * unfold raise. intros [= <- _]. destruct Hm; discriminate.
  - intros [= _ <-]. exact Hg.
  - intros [= _ <-]. exact Hg.
Qed.

(** X7: when the round trips go through, cancelling a PLACED order and
    then cancelling it again raises the only-PLACED-orders error the second
    time and changes nothing: the quantities are given back once. *)
Theorem cancel_order_twice (oid : Z) (w : World) (o : Order) :
    quiet (faults w) = true ->
    first_row (orders_by_id oid (db w)) = Some o ->
    (status o =? "PLACED")%string = true ->
    let w1 := snd (cancel_order oid w) in
    fst (cancel_order oid w1) = Raise (OrderError OnlyPlacedCanBeCancelled)
    /\ db (snd (cancel_order oid w1)) = db w1.
Proof.
  intros Hq Ho Est w1.
  destruct (completes_quiet _ _ _ _ (completes_cancel_order_placed oid w o Ho Est) Hq)
    as (_ & R2 & Hq1).
  fold w1 in R2, Hq1. cbn [db] in R2.
  pose proof (completes_cancel_order_refused oid w1) as Hr.
  rewrite R2, order_by_id_status in Hr. unfold orders_by_id in Hr.
  destruct (restock_all_other_tables (items_of_order oid (db w)) (db w))
    as (_ & T2 & _).
  rewrite T2 in Hr. fold (orders_by_id oid (db w)) in Hr. rewrite Ho in Hr.
  cbn [option_map] in Hr. specialize (Hr eq_refl).
  destruct (completes_quiet _ _ _ _ Hr Hq1) as (F1 & F2 & _).
  split; assumption.
Qed.


Lemma restock_stamped (next oid : Z) (lines : list Line) (d : DB) :
    restock_all (stamp_items next oid lines) d = restore_all (ledger lines) d.
Proof.
  unfold restock_all, restore_all, ledger. revert next d.
  induction lines as [|l lines IH]; intros next d; [reflexivity|].
  cbn [stamp_items map fold_left i_prod_id quantity fst snd]. apply IH.
Qed.

Lemma products_restore_decrement (lines : list Line) (d : DB) :
    unique_ids (map prod_id (products d)) = true ->
    (forall l p, In l lines -> In p (products d) -> prod_id p = l_prod_id l ->
                 p_stock p <> None) ->
    products (restore_all (ledger lines) (decrement_all lines d)) = products d.
Proof.
  intros Hu Hs.
  rewrite products_restore_all.
  - rewrite products_decrement_all by exact Hu.
    apply restore_decrement_rows, Hs.
  - rewrite products_decrement_all by exact Hu.
    rewrite map_prod_id_decrement_rows. exact Hu.
Qed.

(** X8: on a well-formed store whose round trips go through, placing an
    order and then cancelling it gives every product row back as it was
    before the order, lines that name a product twice included; the order
    row stays, with the status CANCELLED, and so do its item rows. *)
Theorem create_then_cancel_restores_stock (customer_id : Z) (items : list Requested)
    (w : World) (c : Customer) (lines : list Line) :
    quiet (faults w) = true ->
    first_row (customers_by_id customer_id (db w)) = Some c ->
    admission (db w) items = Ok lines ->
    wf_db (db w) = true ->
    let d := db w in
    let w1 := snd (create_order customer_id items w) in
    let r := cancel_order (next_order_id d) w1 in
    fst r = Ok (Some (mkOrder (next_order_id d) customer_id (order_total lines)
                              "CANCELLED" (clock d)))
    /\ products (db (snd r)) = products d
    /\ order_items (db (snd r))
       = order_items d ++ stamp_items (next_item_id d) (next_order_id d) lines
    /\ customers (db (snd r)) = customers d.
Proof.
  intros Hq Hc Ha Hw d w1 r.
  destruct (wf_db_inv _ Hw) as (Hu & Ho & Hi).
  pose proof (steps_quiet _ _ _ _ _ (steps_create_order _ _ _ _ _ Hc Ha Hw) Hq) as E1.
  assert (Hd1 : db w1 = placed customer_id lines d) by (unfold w1; rewrite E1; reflexivity).
  assert (Hq1 : quiet (faults w1) = true)
    by (unfold w1; rewrite E1; apply quiet_skipn, Hq).
  set (d2 := insert_order_items (next_order_id d) lines
               (insert_order customer_id (order_total lines) "PLACED" d)).
  destruct (decrement_all_other_tables lines d2) as (D1 & D2 & D3 & _).
  set (o := new_order customer_id (order_total lines) "PLACED" d).
  set (its := stamp_items (next_item_id d) (next_order_id d) lines).
  assert (Hfind : first_row (orders_by_id (next_order_id d) (db w1)) = Some o).
  { rewrite Hd1. unfold orders_by_id, placed. fold d2. rewrite D2.
    apply (order_by_id_fresh (orders d) o). intros x Hx. apply Ho, Hx. }
  assert (Hits : items_of_order (next_order_id d) (db w1) = its).
  { rewrite Hd1. unfold items_of_order, placed. fold d2. rewrite D3.
    unfold d2, insert_order_items, insert_order. cbn [order_items next_item_id].
    rewrite filter_app, filter_none, filter_all; [reflexivity | |].
    - intros x Hx. apply stamp_items_spec in Hx. apply Z.eqb_eq, Hx.
    - intros x Hx. apply Z.eqb_neq. specialize (Hi x Hx). fold d in Hi. lia. }
  destruct (completes_quiet _ _ _ _
              (completes_cancel_order_placed _ w1 o Hfind eq_refl) Hq1)
    as (R1 & R2 & _).
  subst r. rewrite R1, R2, Hits. cbn [db].
  split; [reflexivity|].
  unfold update_status_where, set_orders. cbn [products order_items customers].
  unfold its. rewrite !restock_stamped.
  destruct (restore_all_other_tables (ledger lines) (db w1)) as (S1 & _ & S3).
  rewrite S1, S3, Hd1. unfold placed. fold d2. rewrite D1, D3.
  split; [|split; reflexivity].
  apply (products_restore_decrement lines d2); [exact Hu|].
  intros l p Hl Hp. apply (admission_stocked d items lines Ha Hu l p Hl Hp).
Qed.


Lemma steps_get_order_found (oid : Z) (w : World) (o : Order) :
    first_row (orders_by_id oid (db w)) = Some o ->
    steps (get_order oid) 2 w (Ok (Some (o, items_of_order oid (db w)))) w.
Proof.
  intros Ho. unfold get_order.
  eapply (steps_bind _ _ 1 1); [apply steps_query|].
  destruct (orders_by_id oid (db w)) as [|x xs]; [discriminate|].
  injection Ho as ->.
  eapply (steps_bind _ _ 1 0); [apply steps_query | apply steps_ret].
Qed.

Lemma steps_restock_all (items : list OrderItem) (w : World) :
    steps (for_each items restock_item) (restock_cost items (db w)) w (Ok tt)
      (mkWorld (restock_all items (db w)) (faults w)).
Proof.
  unfold restock_all. revert w.
  induction items as [|it items IH]; intros w; cbn [for_each restock_cost fold_left].
  - destruct w. apply steps_ret.
  - eapply steps_bind; [apply steps_restock_item|].
    apply (IH (mkWorld (add_stock (i_prod_id it) (quantity it) (db w)) (faults w))).
Qed.

Lemma stock_read_status (oid : Z) (st : string) (d : DB) (pid : Z) :
    stock_read (update_status_where oid st d) pid = stock_read d pid.
Proof. reflexivity. Qed.

(** X9: cancellation has no compensation of its own. When reading the
    order and restocking its items go through and the round trip that
    writes the status raises, [cancel_order] raises the wrapping error with
    the quantities already given back and the order still PLACED; a second
    call whose round trips go through then succeeds and gives the
    quantities back once more, so that every product ends at its former
    stock plus twice what the order's items name. *)
Theorem cancel_order_status_fault_then_retry (oid : Z) (w : World) (o : Order)
    (later : list bool) :
    first_row (orders_by_id oid (db w)) = Some o ->
    (status o =? "PLACED")%string = true ->
    faults w = repeat false (2 + restock_cost (items_of_order oid (db w)) (db w))
               ++ true :: later ->
    quiet later = true ->
    let items := items_of_order oid (db w) in
    let r1 := cancel_order oid w in
    let r2 := cancel_order oid (snd r1) in
    fst r1 = Raise (OrderError (FailedToCancelOrder StoreFault))
    /\ first_row (orders_by_id oid (db (snd r1))) = Some o
    /\ (forall pid, stock_read (db (snd r1)) pid
                    = option_map (fun s => s + returned items pid)
                                 (stock_read (db w) pid))
    /\ fst r2 = Ok (Some (set_status "CANCELLED" o))
    /\ (forall pid, stock_read (db (snd r2)) pid
                    = option_map (fun s => s + 2 * returned items pid)
                                 (stock_read (db w) pid)).
Proof.
  intros Ho Est Hfs Hq items r1 r2.
  destruct (restock_all_other_tables items (db w)) as (T1 & T2 & T3).
  assert (E1 : cancel_order oid w
               = (Raise (OrderError (FailedToCancelOrder StoreFault)),
                  mkWorld (restock_all items (db w)) later)).
  { subst items r1 r2. destruct w as [d fs]. cbn [db faults] in *. subst fs.
    set (items := items_of_order oid d) in *. set (cost := restock_cost items d).
    change (2 + cost)%nat with (Datatypes.S (Datatypes.S cost)).
    unfold cancel_order. unfold bind at 1.
    pose proof (steps_get_order_found oid (mkWorld d []) o Ho
                  (repeat false (Datatypes.S (Datatypes.S cost)) ++ true :: later)
                  eq_refl) as Eg.
    cbn [reschedule World_Scheduled db] in Eg. rewrite Eg.
    cbn [skipn repeat app]. rewrite Est. cbn [negb]. unfold try_except.
    assert (Hbody : faults_at
                      (for_each items restock_item;;;
                       updated <- update_order_status oid "CANCELLED";; ret updated)
                      (cost + 0) (mkWorld d [])
                      (mkWorld (restock_all items d) [])).
    { eapply faults_bind_r; [exact (steps_restock_all items (mkWorld d []))|].
      apply faults_bind_l. unfold update_order_status.
      apply faults_bind_l, faults_command. }
    specialize (Hbody (repeat false cost ++ true :: later)).
    rewrite Nat.add_0_r in Hbody.
    cbn [reschedule World_Scheduled db] in Hbody.
    fold items. rewrite (Hbody (calm_repeat _ _) (nth_repeat _ _ _)), skipn_S_repeat.
    reflexivity. }
  assert (Hd1 : db (snd r1) = restock_all items (db w))
    by (unfold r1; rewrite E1; reflexivity).
  assert (Hq1 : quiet (faults (snd r1)) = true)
    by (unfold r1; rewrite E1; exact Hq).
  assert (Ho1 : first_row (orders_by_id oid (db (snd r1))) = Some o).
  { rewrite Hd1. unfold orders_by_id. rewrite T2. exact Ho. }
  assert (Hi1 : items_of_order oid (db (snd r1)) = items).
  { rewrite Hd1. unfold items_of_order. rewrite T3. reflexivity. }
  split; [unfold r1; rewrite E1; reflexivity|].
  split; [exact Ho1|].
  split; [intros pid; rewrite Hd1; apply stock_read_restock_all|].
  destruct (completes_quiet _ _ _ _
              (completes_cancel_order_placed oid (snd r1) o Ho1 Est) Hq1)
    as (R1 & R2 & _).
  fold r2 in R1, R2. split; [exact R1|].
  intros pid. rewrite R2. cbn [db]. rewrite stock_read_status, Hi1, Hd1.
  rewrite !stock_read_restock_all.
  destruct (stock_read (db w) pid); cbn [option_map]; [f_equal; lia | reflexivity].
Qed.


(** ** More on customer removal *)

Lemma read_cases {A B} (f : DB -> A) (g : A -> B) (w : World) :
    (resp <- query f ;; ret (g resp)) w
    = (Raise StoreFault, mkWorld (db w) (tl (faults w)))
    \/ (resp <- query f ;; ret (g resp)) w
       = (Ok (g (f (db w))), mkWorld (db w) (tl (faults w))).
Proof.
  unfold bind. destruct (query_cases f w) as [E | E]; rewrite E;
    [left | right]; reflexivity.
Qed.

Lemma delete_customer_cases (cid : Z) (w : World) :
    (exists e w', delete_customer cid w = (Raise e, w') /\ db w' = db w)
    \/ (exists w', delete_customer cid w
                   = (Ok (first_row (customers_by_id cid (db w))), w')
                   /\ db w' = delete_customer_where cid (db w)).
Proof.
  unfold delete_customer, bind.
  destruct (query_cases (customers_by_id cid) w) as [E | E]; rewrite E.
  - left. eexists _, _. split; reflexivity.
  - destruct (command_cases (delete_customer_where cid)
                (mkWorld (db w) (tl (faults w)))) as [E' | E']; rewrite E'.
    + left. eexists _, _. split; reflexivity.
    + right. eexists. split; reflexivity.
Qed.

(** X10: under every fault schedule, a call to [remove_customer] that
    raises, whatever it raises, has changed nothing in the store. *)
Theorem remove_customer_raises_untouched (cid : Z) (w : World) (e : exn) :
    fst (remove_customer cid w) = Raise e ->
    db (snd (remove_customer cid w)) = db w.
Proof.
  destruct (remove_customer cid w) as [r w'] eqn:E. cbn [fst snd]. intros ->.
  revert E. unfold remove_customer. unfold bind at 1.
  unfold get_customer_by_id.
  destruct (read_cases (customers_by_id cid) (@first_row Customer) w) as [E | E];
    rewrite E; [intros [= _ <-]; reflexivity|].
  destruct (first_row (customers_by_id cid (db w))) as [c|] eqn:Ec;
    [|intros [= _ <-]; reflexivity].
  unfold bind at 1. unfold list_orders_by_customer.
  match goal with |- context [(resp <- query ?f ;; ret resp) ?w0] =>
    destruct (read_cases f (fun x => x) w0) as [E1 | E1]; rewrite E1
  end; [intros [= _ <-]; reflexivity|].
  cbn [db].
  destruct (order_rows order_date true
              (filter (fun o => o_cust_id o =? cid) (orders (db w)))) as [|o os];
    [|intros [= _ <-]; reflexivity].
  unfold bind at 1.
  match goal with |- context [delete_customer cid ?w0] =>
    destruct (delete_customer_cases cid w0) as [(e1 & w1 & E2 & Hd) | (w1 & E2 & Hd)];
      rewrite E2
  end.
  - intros [= _ <-]. exact Hd.
  - cbn [db]. rewrite Ec. discriminate.
Qed.

(** X11: under every fault schedule, [remove_customer] called for a
    customer id that owns an order never returns and leaves the store as it
    was: no fault can make it delete a customer who has orders. *)
Theorem remove_customer_never_deletes_owner (cid : Z) (w : World) :
    orders_of_customer cid (db w) <> [] ->
    (forall c, fst (remove_customer cid w) <> Ok c)
    /\ db (snd (remove_customer cid w)) = db w.
Proof.
  intros Hown.
  assert (Hr : exists e, fst (remove_customer cid w) = Raise e
                         /\ db (snd (remove_customer cid w)) = db w).
  { destruct (remove_customer cid w) as [r w'] eqn:E0. cbn [fst snd].
    revert E0. unfold remove_customer. unfold bind at 1.
    unfold get_customer_by_id.
    destruct (read_cases (customers_by_id cid) (@first_row Customer) w) as [E | E];
      rewrite E; [intros [= <- <-]; eexists; split; reflexivity|].
    destruct (first_row (customers_by_id cid (db w))) as [c|];
      [|intros [= <- <-]; eexists; split; reflexivity].
    unfold bind at 1. unfold list_orders_by_customer.
    match goal with |- context [(resp <- query ?f ;; ret resp) ?w0] =>
      destruct (read_cases f (fun x => x) w0) as [E1 | E1]; rewrite E1
    end; [intros [= <- <-]; eexists; split; reflexivity|].
    cbn [db].
    pose proof (length_order_rows order_date true (orders_of_customer cid (db w)))
      as Hlen.
    unfold orders_of_customer in Hlen, Hown.
    destruct (order_rows order_date true
                (filter (fun o => o_cust_id o =? cid) (orders (db w)))) as [|o os].
    - destruct (filter (fun o => o_cust_id o =? cid) (orders (db w)));
        [contradiction | discriminate].
    - intros [= <- <-]. eexists; split; reflexivity. }
  destruct Hr as (e & Hf & Hd). split; [|exact Hd].
  intros c Hc. rewrite Hf in Hc. discriminate.
Qed.


(** ** More on order creation: rejections *)

Lemma steps_validate_lines_rejects (good : list Requested) (bad : Requested)
    (rest : list Requested) (w : World) (ls : list Line) (e : exn) :
    admission (db w) good = Ok ls ->
    check_line bad (first_row (products_by_id (r_prod_id bad) (db w))) = Raise e ->
    steps (validate_lines (good ++ bad :: rest)) (List.length good + 1) w (Raise e) w.
Proof.
  revert ls. induction good as [|it good IH]; intros ls Ha Hb.
  - cbn [app validate_lines List.length Nat.add].
    eapply (steps_bind _ _ 1 0); [apply steps_get_product_by_id|].
    apply steps_bind_raise. rewrite Hb. apply steps_of_outcome.
  - cbn [app validate_lines List.length admission] in *.
    change (Datatypes.S (List.length good) + 1)%nat
      with (1 + (0 + (List.length good + 1)))%nat.
    eapply steps_bind; [apply steps_get_product_by_id|].
    destruct (check_line it (first_row (products_by_id (r_prod_id it) (db w))))
      as [l|e0]; [|discriminate].
    eapply steps_bind; [apply steps_of_outcome|].
    destruct (admission (db w) good) as [ls0|e0]; [|discriminate].
    apply steps_bind_raise. exact (IH ls0 eq_refl Hb).
Qed.

(** X12: [create_order] fails fast. When the customer exists, the lines
    [good] pass the checks and the line [bad] after them does not, the call
    raises the error of [bad] after one round trip for the customer and one
    for each of these lines, provided these go through: the store is
    unchanged and the lines after [bad] are not read, whatever they are and
    whatever the schedule holds for later round trips. *)
Theorem create_order_fails_fast (customer_id : Z) (good : list Requested)
    (bad : Requested) (rest : list Requested) (w : World) (c : Customer)
    (ls : list Line) (e : exn) :
    first_row (customers_by_id customer_id (db w)) = Some c ->
    admission (db w) good = Ok ls ->
    check_line bad (first_row (products_by_id (r_prod_id bad) (db w))) = Raise e ->
    calm (2 + List.length good) (faults w) = true ->
    create_order customer_id (good ++ bad :: rest) w
    = (Raise e, mkWorld (db w) (skipn (2 + List.length good) (faults w))).
Proof.
  intros Hc Ha Hb Hcalm.
  assert (Hs : steps (create_order customer_id (good ++ bad :: rest))
                 (1 + (List.length good + 1)) w (Raise e) w).
  { unfold create_order.
    eapply steps_bind; [apply steps_get_customer_by_id|]. rewrite Hc.
    apply steps_bind_raise. exact (steps_validate_lines_rejects _ _ _ _ ls e Ha Hb). }
  replace (1 + (List.length good + 1))%nat with (2 + List.length good)%nat in Hs by lia.
  specialize (Hs (faults w) Hcalm). destruct w as [d fs]. exact Hs.
Qed.

(** ** More on order creation: the stock it takes *)

(** X13: on a well-formed store whose round trips go through, a successful
    [create_order] lowers what every product reads as stock by exactly the
    sum of the quantities of the lines that name it, appends one order row
    and one item row per line, and leaves [customers] alone. *)
Theorem create_order_stock_accounting (customer_id : Z) (items : list Requested)
    (w : World) (c : Customer) (lines : list Line) :
    quiet (faults w) = true ->
    first_row (customers_by_id customer_id (db w)) = Some c ->
    admission (db w) items = Ok lines ->
    wf_db (db w) = true ->
    let d := db w in
    let d' := db (snd (create_order customer_id items w)) in
    (forall pid, stock_read d' pid
                 = option_map (fun s => s - ordered lines pid) (stock_read d pid))
    /\ orders d' = orders d ++ [new_order customer_id (order_total lines) "PLACED" d]
    /\ order_items d'
       = order_items d ++ stamp_items (next_item_id d) (next_order_id d) lines
    /\ List.length (stamp_items (next_item_id d) (next_order_id d) lines)
       = List.length items
    /\ customers d' = customers d.
Proof.
  intros Hq Hc Ha Hw d d'.
  pose proof (steps_quiet _ _ _ _ _ (steps_create_order _ _ _ _ _ Hc Ha Hw) Hq) as E1.
  subst d'. rewrite E1. cbn [snd db]. unfold placed.
  destruct (decrement_all_other_tables lines
              (insert_order_items (next_order_id d) lines
                 (insert_order customer_id (order_total lines) "PLACED" d)))
    as (D1 & D2 & D3 & _).
  fold d. rewrite D1, D2, D3.
  split; [|split; [reflexivity | split; [reflexivity | split; [|reflexivity]]]].
  - intros pid. rewrite stock_read_decrement_all. reflexivity.
  - assert (Hn : forall next oid ls,
               List.length (stamp_items next oid ls) = List.length ls).
    { intros next oid ls. revert next.
      induction ls as [|l ls IH]; intros next; [reflexivity|].
      cbn [stamp_items List.length]. rewrite IH. reflexivity. }
    rewrite Hn. apply admission_inv in Ha. symmetry. eapply Forall2_length, Ha.
Qed.


(** ** More on order creation: a fault before the decrements *)

Lemma recovers_create_order (customer_id : Z) (items : list Requested) (w : World)
    (c : Customer) (lines : list Line) (k : nat) (f1 : Frame) :
    first_row (customers_by_id customer_id (db w)) = Some c ->
    admission (db w) items = Ok lines ->
    faults_at (create_order_steps customer_id (order_total lines) lines) k
      (mkFrame w None [] []) f1 ->
    recovers (create_order customer_id items) (1 + (List.length items + k)) w
      (Raise (OrderError (FailedToCreateOrder StoreFault)))
      (mkWorld (compensated f1) (faults w)).
Proof.
  intros Hc Ha Hf. unfold create_order.
  eapply recovers_bind_r; [apply steps_get_customer_by_id|]. rewrite Hc.
  eapply recovers_bind_r; [apply steps_validate_lines; exact Ha|].
  cbv zeta.
  apply (recovers_with_locals _ _ w _
           (with_world (mkWorld (compensated f1) (faults w)) f1)).
  eapply recovers_try; [exact Hf|].
  destruct (@completes_on_failure (Order * list OrderItem) StoreFault f1) as [c2 Hs].
  exists c2. intros fs Hcalm. rewrite (Hs fs Hcalm).
  destruct f1 as [[d1 fs1] co ci ups]. reflexivity.
Qed.

Lemma recovers_run {A} (m : M World A) (k : nat) (w w' : World) (o : outcome A)
    (later : list bool) :
    recovers m k w o w' ->
    faults w = repeat false k ++ true :: later ->
    quiet later = true ->
    fst (m w) = o /\ db (snd (m w)) = db w'.
Proof.
  intros Hr Hfs Hq. destruct w as [d fs]. cbn [faults] in Hfs. subst fs.
  destruct (Hr (repeat false k ++ true :: later) (calm_repeat _ _) (nth_repeat _ _ _))
    as [fs' E].
  { rewrite skipn_S_repeat. exact Hq. }
  cbn [reschedule World_Scheduled db] in E. rewrite E. split; reflexivity.
Qed.

Lemma faults_steps_insert_order (customer_id : Z) (total : price) (lines : list Line)
    (w : World) :
    faults_at (create_order_steps customer_id total lines) 0
      (mkFrame w None [] []) (mkFrame w None [] []).
Proof.
  unfold create_order_steps. apply faults_bind_l.
  apply (faults_lift _ 0 (mkFrame w None [] []) w).
  unfold create_order_record. apply faults_bind_l, faults_command.
Qed.

Lemma faults_steps_reread_order (customer_id : Z) (total : price) (lines : list Line)
    (w : World) :
    faults_at (create_order_steps customer_id total lines) 1
      (mkFrame w None [] [])
      (mkFrame (mkWorld (insert_order customer_id total "PLACED" (db w)) (faults w))
               None [] []).
Proof.
  unfold create_order_steps. apply faults_bind_l.
  apply (faults_lift _ 1 (mkFrame w None [] [])
           (mkWorld (insert_order customer_id total "PLACED" (db w)) (faults w))).
  unfold create_order_record.
  eapply (faults_bind_r _ _ 1 0); [apply steps_command|].
  apply faults_bind_l, faults_query.
Qed.

Lemma faults_steps_insert_items (customer_id : Z) (total : price) (lines : list Line)
    (w : World) :
    (forall x, In x (orders (db w)) -> order_date x < clock (db w)) ->
    faults_at (create_order_steps customer_id total lines) 2
      (mkFrame w None [] [])
      (mkFrame (mkWorld (insert_order customer_id total "PLACED" (db w)) (faults w))
               (Some (new_order customer_id total "PLACED" (db w))) [] []).
Proof.
  intros Hdates. unfold create_order_steps.
  change 2%nat with (2 + (0 + 0))%nat.
  eapply faults_bind_r; [apply steps_lift, steps_create_order_record|].
  eapply faults_bind_r; [apply steps_set_created_order|].
  cbn [world]. rewrite (latest_order_fresh _ _ _ _ Hdates).
  apply faults_bind_l.
  match goal with |- faults_at (lift ?m) _ ?g _ =>
    refine (faults_lift m 0 g (world g) _)
  end.
  unfold create_order_items. apply faults_bind_l, faults_command.
Qed.

Lemma faults_steps_reread_items (customer_id : Z) (total : price) (lines : list Line)
    (w : World) :
    (forall x, In x (orders (db w)) -> order_date x < clock (db w)) ->
    faults_at (create_order_steps customer_id total lines) 3
      (mkFrame w None [] [])
      (mkFrame (mkWorld (insert_order_items (next_order_id (db w)) lines
                           (insert_order customer_id total "PLACED" (db w)))
                        (faults w))
               (Some (new_order customer_id total "PLACED" (db w))) [] []).
Proof.
  intros Hdates. unfold create_order_steps.
  change 3%nat with (2 + (0 + 1))%nat.
  eapply faults_bind_r; [apply steps_lift, steps_create_order_record|].
  eapply faults_bind_r; [apply steps_set_created_order|].
  cbn [world]. rewrite (latest_order_fresh _ _ _ _ Hdates).
  apply faults_bind_l.
  match goal with |- faults_at (lift ?m) _ ?g _ =>
    refine (faults_lift m 1 g
              (mkWorld (insert_order_items (next_order_id (db w)) lines (db (world g)))
                       (faults (world g))) _)
  end.
  unfold create_order_items. cbn [new_order order_id].
  eapply (faults_bind_r _ _ 1 0); [apply steps_command|].
  apply faults_bind_l, faults_query.
Qed.


(** X14: when exactly one round trip raises and it is an insert of the
    mutating phase (the insert of the order row, or the insert of the item
    rows), [create_order] raises the wrapping error and the four tables are
    as before the call: nothing, or only the order row, had been written,
    and the compensation removes it. *)
Theorem create_order_insert_fault_clean (customer_id : Z) (items : list Requested)
    (w : World) (c : Customer) (lines : list Line) (j : nat) (later : list bool) :
    first_row (customers_by_id customer_id (db w)) = Some c ->
    admission (db w) items = Ok lines ->
    wf_db (db w) = true ->
    (j = 0 \/ j = 2)%nat ->
    faults w = repeat false (1 + (List.length items + j)) ++ true :: later ->
    quiet later = true ->
    let res := create_order customer_id items w in
    fst res = Raise (OrderError (FailedToCreateOrder StoreFault))
    /\ orders (db (snd res)) = orders (db w)
    /\ order_items (db (snd res)) = order_items (db w)
    /\ products (db (snd res)) = products (db w)
    /\ customers (db (snd res)) = customers (db w).
Proof.
  intros Hc Ha Hw Hj Hfs Hq res.
  destruct (wf_db_inv _ Hw) as (_ & Ho & _).
  destruct Hj as [-> | ->].
  - destruct (recovers_run _ _ _ _ _ later
                (recovers_create_order _ _ _ _ _ _ _ Hc Ha
                   (faults_steps_insert_order customer_id (order_total lines) lines w))
                Hfs Hq) as [R1 R2].
    subst res. rewrite R1, R2. repeat split.
  - assert (Hdates : forall x, In x (orders (db w)) -> order_date x < clock (db w))
      by (intros x Hx; apply Ho, Hx).
    destruct (recovers_run _ _ _ _ _ later
                (recovers_create_order _ _ _ _ _ _ _ Hc Ha
                   (faults_steps_insert_items customer_id (order_total lines) lines w
                      Hdates))
                Hfs Hq) as [R1 R2].
    subst res. rewrite R1, R2. split; [reflexivity|].
    unfold compensated.
    cbn [created_order created_items updated_products world db delete_order_of
         restore_all delete_items_all fold_left].
    unfold delete_order_where, set_orders, insert_order.
    cbn [orders order_items products customers new_order order_id].
    split; [|repeat split].
    apply (delete_new_order (orders (db w))
             (new_order customer_id (order_total lines) "PLACED" (db w))).
    intros x Hx. apply Ho, Hx.
Qed.

(** X15: when exactly one round trip raises and it is the re-read that
    follows the insert of the order row, [create_order] raises the wrapping
    error but the order row stays in the store, with status PLACED and no
    item: [created_order] was never assigned, so the compensation has no
    order to delete. The other tables are as before the call. *)
Theorem create_order_reread_fault_leaves_order (customer_id : Z)
    (items : list Requested) (w : World) (c : Customer) (lines : list Line)
    (later : list bool) :
    first_row (customers_by_id customer_id (db w)) = Some c ->
    admission (db w) items = Ok lines ->
    faults w = repeat false (1 + (List.length items + 1)) ++ true :: later ->
    quiet later = true ->
    let res := create_order customer_id items w in
    fst res = Raise (OrderError (FailedToCreateOrder StoreFault))
    /\ orders (db (snd res))
       = orders (db w)
         ++ [mkOrder (next_order_id (db w)) customer_id (order_total lines)
                     "PLACED" (clock (db w))]
    /\ order_items (db (snd res)) = order_items (db w)
    /\ products (db (snd res)) = products (db w)
    /\ customers (db (snd res)) = customers (db w).
Proof.
  intros Hc Ha Hfs Hq res.
  destruct (recovers_run _ _ _ _ _ later
              (recovers_create_order _ _ _ _ _ _ _ Hc Ha
                 (faults_steps_reread_order customer_id (order_total lines) lines w))
              Hfs Hq) as [R1 R2].
  subst res. rewrite R1, R2. repeat split.
Qed.

(** X16: when exactly one round trip raises and it is the re-read that
    follows the insert of the item rows, [create_order] raises the wrapping
    error and the compensation deletes the order row but not the item rows:
    [created_items] was never assigned. The item rows of all lines stay in
    the store, under the id of an order that is no longer there; no stock
    was taken. *)
Theorem create_order_items_reread_fault_leaves_items (customer_id : Z)
    (items : list Requested) (w : World) (c : Customer) (lines : list Line)
    (later : list bool) :
    first_row (customers_by_id customer_id (db w)) = Some c ->
    admission (db w) items = Ok lines ->
    wf_db (db w) = true ->
    faults w = repeat false (1 + (List.length items + 3)) ++ true :: later ->
    quiet later = true ->
    let res := create_order customer_id items w in
    fst res = Raise (OrderError (FailedToCreateOrder StoreFault))
    /\ orders (db (snd res)) = orders (db w)
    /\ order_items (db (snd res))
       = order_items (db w)
         ++ stamp_items (next_item_id (db w)) (next_order_id (db w)) lines
    /\ products (db (snd res)) = products (db w)
    /\ customers (db (snd res)) = customers (db w).
Proof.
  intros Hc Ha Hw Hfs Hq res.
  destruct (wf_db_inv _ Hw) as (_ & Ho & _).
  assert (Hdates : forall x, In x (orders (db w)) -> order_date x < clock (db w))
    by (intros x Hx; apply Ho, Hx).
  destruct (recovers_run _ _ _ _ _ later
              (recovers_create_order _ _ _ _ _ _ _ Hc Ha
                 (faults_steps_reread_items customer_id (order_total lines) lines w
                    Hdates))
              Hfs Hq) as [R1 R2].
  subst res. rewrite R1, R2. split; [reflexivity|].
  unfold compensated.
  cbn [created_order created_items updated_products world db delete_order_of
       restore_all delete_items_all fold_left].
  unfold delete_order_where, set_orders, insert_order_items, insert_order.
  cbn [orders order_items products customers new_order order_id next_item_id].
  split; [|repeat split].
  apply (delete_new_order (orders (db w))
           (new_order customer_id (order_total lines) "PLACED" (db w))).
  intros x Hx. apply Ho, Hx.
Qed.


(** ** How the operations compose *)

Lemma placed_tables (customer_id : Z) (lines : list Line) (d : DB) :
    customers (placed customer_id lines d) = customers d
    /\ orders (placed customer_id lines d)
       = orders d ++ [new_order customer_id (order_total lines) "PLACED" d]
    /\ order_items (placed customer_id lines d)
       = order_items d ++ stamp_items (next_item_id d) (next_order_id d) lines.
Proof.
  unfold placed.
  destruct (decrement_all_other_tables lines
              (insert_order_items (next_order_id d) lines
                 (insert_order customer_id (order_total lines) "PLACED" d)))
    as (D1 & D2 & D3 & _).
  rewrite D1, D2, D3. repeat split.
Qed.

Lemma created_order_lookup (customer_id : Z) (lines : list Line) (d : DB) :
    wf_db d = true ->
    first_row (orders_by_id (next_order_id d) (placed customer_id lines d))
    = Some (new_order customer_id (order_total lines) "PLACED" d)
    /\ items_of_order (next_order_id d) (placed customer_id lines d)
       = stamp_items (next_item_id d) (next_order_id d) lines.
Proof.
  intros Hw. destruct (wf_db_inv _ Hw) as (_ & Ho & Hi).
  destruct (placed_tables customer_id lines d) as (_ & P2 & P3).
  unfold orders_by_id, items_of_order. rewrite P2, P3. split.
  - apply (order_by_id_fresh (orders d)
             (new_order customer_id (order_total lines) "PLACED" d)).
    intros x Hx. apply Ho, Hx.
  - rewrite filter_app, filter_none, filter_all; [reflexivity | |].
    + intros x Hx. apply stamp_items_spec in Hx. apply Z.eqb_eq, Hx.
    + intros x Hx. apply Z.eqb_neq. specialize (Hi x Hx). lia.
Qed.

(** X17: on a well-formed store whose round trips go through, what
    [get_order_details] returns for the id of an order just created is the
    order row and the item rows that [create_order] returned, together
    with the row of the customer. *)
Theorem create_order_then_details (customer_id : Z) (items : list Requested)
    (w : World) (c : Customer) (lines : list Line) :
    quiet (faults w) = true ->
    first_row (customers_by_id customer_id (db w)) = Some c ->
    admission (db w) items = Ok lines ->
    wf_db (db w) = true ->
    let r := create_order customer_id items w in
    exists o its,
      fst r = Ok (o, its)
      /\ order_id o = next_order_id (db w)
      /\ fst (get_order_details (order_id o) (snd r)) = Ok (o, its, Some c).
Proof.
  intros Hq Hc Ha Hw r.
  pose proof (steps_quiet _ _ _ _ _ (steps_create_order _ _ _ _ _ Hc Ha Hw) Hq) as E1.
  exists (new_order customer_id (order_total lines) "PLACED" (db w)),
         (stamp_items (next_item_id (db w)) (next_order_id (db w)) lines).
  subst r. rewrite E1. cbn [fst snd new_order order_id].
  split; [reflexivity|]. split; [reflexivity|].
  destruct (created_order_lookup customer_id lines (db w) Hw) as [L1 L2].
  destruct (placed_tables customer_id lines (db w)) as (P1 & _).
  match goal with |- fst (get_order_details ?oid ?w0) = _ =>
    assert (Hc0 : completes (get_order_details oid) w0
                    (Ok (new_order customer_id (order_total lines) "PLACED" (db w),
                         stamp_items (next_item_id (db w)) (next_order_id (db w)) lines,
                         Some c)) w0)
  end.
  { unfold get_order_details.
    eapply completes_bind; [apply completes_get_order|].
    cbn [db]. rewrite L1, L2. cbn [option_map new_order o_cust_id].
    eapply completes_bind; [eexists; apply steps_get_customer_by_id|].
    cbn [db]. unfold customers_by_id. rewrite P1.
    fold (customers_by_id customer_id (db w)). rewrite Hc. apply completes_ret. }
  destruct (completes_quiet _ _ _ _ Hc0) as [F _]; [|exact F].
  cbn [faults]. apply quiet_skipn, Hq.
Qed.

(** X18: on a well-formed store whose round trips go through, after a
    successful [create_order] the listing of the customer's orders starts
    with the new order, followed by the listing as it was before. *)
Theorem create_order_then_listed_first (customer_id : Z) (items : list Requested)
    (w : World) (c : Customer) (lines : list Line) :
    quiet (faults w) = true ->
    first_row (customers_by_id customer_id (db w)) = Some c ->
    admission (db w) items = Ok lines ->
    wf_db (db w) = true ->
    let w1 := snd (create_order customer_id items w) in
    fst (list_orders_by_customer customer_id w1)
    = Ok (new_order customer_id (order_total lines) "PLACED" (db w)
          :: order_rows order_date true (orders_of_customer customer_id (db w))).
Proof.
  intros Hq Hc Ha Hw w1.
  destruct (wf_db_inv _ Hw) as (_ & Ho & _).
  pose proof (steps_quiet _ _ _ _ _ (steps_create_order _ _ _ _ _ Hc Ha Hw) Hq) as E1.
  assert (Hd1 : db w1 = placed customer_id lines (db w))
    by (unfold w1; rewrite E1; reflexivity).
  assert (Hq1 : quiet (faults w1) = true)
    by (unfold w1; rewrite E1; apply quiet_skipn, Hq).
  assert (Hl : completes (list_orders_by_customer customer_id) w1
                 (Ok (order_rows order_date true
                        (orders_of_customer customer_id (db w1)))) w1).
  { unfold list_orders_by_customer.
    eapply completes_bind; [apply completes_query | apply completes_ret]. }
  destruct (completes_quiet _ _ _ _ Hl Hq1) as [F _]. rewrite F, Hd1.
  destruct (placed_tables customer_id lines (db w)) as (_ & P2 & _).
  unfold orders_of_customer. rewrite P2, filter_app.
  cbn [filter new_order o_cust_id]. rewrite Z.eqb_refl.
  rewrite order_rows_desc_snoc; [reflexivity|].
  intros y Hy. apply filter_In in Hy. cbn [order_date]. apply Ho, Hy.
Qed.


Lemma completes_remove_customer_refused (cid : Z) (w : World) (c : Customer) :
    first_row (customers_by_id cid (db w)) = Some c ->
    orders_of_customer cid (db w) <> [] ->
    completes (remove_customer cid) w
      (Raise (CustomerDeleteError cid (List.length (orders_of_customer cid (db w)))))
      w.
Proof.
  intros Hc Hown. unfold remove_customer.
  eapply completes_bind; [eexists; apply steps_get_customer_by_id|]. rewrite Hc.
  eapply completes_bind.
  { unfold list_orders_by_customer.
    eapply completes_bind; [apply completes_query | apply completes_ret]. }
  pose proof (length_order_rows order_date true (orders_of_customer cid (db w))) as Hlen.
  fold (orders_of_customer cid (db w)).
  destruct (order_rows order_date true (orders_of_customer cid (db w))) as [|o os].
  - destruct (orders_of_customer cid (db w)); [contradiction | discriminate].
  - rewrite Hlen. apply completes_raise.
Qed.

Lemma orders_of_customer_status (cid oid : Z) (st : string) (d : DB) :
    List.length (orders_of_customer cid (update_status_where oid st d))
    = List.length (orders_of_customer cid d).
Proof.
  unfold orders_of_customer, update_status_where, set_orders. cbn [orders].
  induction (orders d) as [|o os IH]; [reflexivity|]. cbn [map filter].
  assert (E : o_cust_id (if order_id o =? oid then set_status st o else o) = o_cust_id o)
    by (destruct (order_id o =? oid); reflexivity).
  rewrite E. destruct (o_cust_id o =? cid); cbn [List.length]; rewrite IH; reflexivity.
Qed.

(** X19: once a customer has placed an order, the customer cannot be
    removed, not even after the order was cancelled. On a well-formed store
    whose round trips go through, [create_order], then [cancel_order] of
    the new order, then [remove_customer] ends with the
    [CustomerDeleteError] that counts the customer's orders, the cancelled
    one included, and the customer row is still there. *)
Theorem cancelled_order_still_blocks_removal (customer_id : Z)
    (items : list Requested) (w : World) (c : Customer) (lines : list Line) :
    quiet (faults w) = true ->
    first_row (customers_by_id customer_id (db w)) = Some c ->
    admission (db w) items = Ok lines ->
    wf_db (db w) = true ->
    let w1 := snd (create_order customer_id items w) in
    let w2 := snd (cancel_order (next_order_id (db w)) w1) in
    let r := remove_customer customer_id w2 in
    fst r = Raise (CustomerDeleteError customer_id
                     (Datatypes.S (List.length (orders_of_customer customer_id (db w)))))
    /\ first_row (customers_by_id customer_id (db (snd r))) = Some c.
Proof.
  intros Hq Hc Ha Hw w1 w2 r.
  pose proof (steps_quiet _ _ _ _ _ (steps_create_order _ _ _ _ _ Hc Ha Hw) Hq) as E1.
  assert (Hd1 : db w1 = placed customer_id lines (db w))
    by (unfold w1; rewrite E1; reflexivity).
  assert (Hq1 : quiet (faults w1) = true)
    by (unfold w1; rewrite E1; apply quiet_skipn, Hq).
  destruct (created_order_lookup customer_id lines (db w) Hw) as [L1 L2].
  rewrite <- Hd1 in L1.
  destruct (completes_quiet _ _ _ _
              (completes_cancel_order_placed _ w1 _ L1 eq_refl) Hq1)
    as (_ & R2 & Hq2).
  fold w2 in R2, Hq2. cbn [db] in R2.
  destruct (placed_tables customer_id lines (db w)) as (P1 & P2 & _).
  destruct (restock_all_other_tables
              (items_of_order (next_order_id (db w)) (db w1)) (db w1))
    as (T1 & T2 & _).
  assert (Hc2 : first_row (customers_by_id customer_id (db w2)) = Some c).
  { rewrite R2. unfold customers_by_id, update_status_where, set_orders.
    cbn [customers]. rewrite T1, Hd1, P1. exact Hc. }
  assert (Hn : List.length (orders_of_customer customer_id (db w2))
               = Datatypes.S (List.length (orders_of_customer customer_id (db w)))).
  { rewrite R2, orders_of_customer_status. unfold orders_of_customer.
    rewrite T2, Hd1, P2, filter_app, length_app.
    cbn [filter new_order o_cust_id]. rewrite Z.eqb_refl. cbn [List.length]. lia. }
  assert (Hown : orders_of_customer customer_id (db w2) <> []).
  { intros E. rewrite E in Hn. discriminate. }
  destruct (completes_quiet _ _ _ _
              (completes_remove_customer_refused customer_id w2 c Hc2 Hown) Hq2)
    as (F1 & F2 & _).
  fold r in F1, F2. rewrite F1, F2, Hn. split; [reflexivity | exact Hc2].
Qed.

(** X20: [delete_customer] of the data-access layer does not look at the
    orders. When the round trips go through and the customer of an order is
    deleted with it, the order and its items stay, and [get_order_details]
    then returns them with no customer. *)
Theorem delete_customer_then_details (oid : Z) (w : World) (o : Order) :
    quiet (faults w) = true ->
    first_row (orders_by_id oid (db w)) = Some o ->
    let w1 := snd (delete_customer (o_cust_id o) w) in
    fst (get_order_details oid w1) = Ok (o, items_of_order oid (db w), None).
Proof.
  intros Hq Ho w1.
  assert (Hdel : completes (delete_customer (o_cust_id o)) w
                   (Ok (first_row (customers_by_id (o_cust_id o) (db w))))
                   (mkWorld (delete_customer_where (o_cust_id o) (db w)) (faults w))).
  { unfold delete_customer.
    eapply completes_bind; [apply completes_query|].
    eapply completes_bind; [apply completes_command | apply completes_ret]. }
  destruct (completes_quiet _ _ _ _ Hdel Hq) as (_ & R2 & Hq1).
  fold w1 in R2, Hq1. cbn [db] in R2.
  assert (Hc0 : completes (get_order_details oid) w1
                  (Ok (o, items_of_order oid (db w), None)) w1).
  { unfold get_order_details.
    eapply completes_bind; [apply completes_get_order|].
    rewrite R2.
    change (orders_by_id oid (delete_customer_where (o_cust_id o) (db w)))
      with (orders_by_id oid (db w)).
    rewrite Ho. cbn [option_map].
    eapply completes_bind; [eexists; apply steps_get_customer_by_id|].
    rewrite R2, customers_by_id_deleted. apply completes_ret. }
  destruct (completes_quiet _ _ _ _ Hc0 Hq1) as [F _]. exact F.
Qed.

(** X21: when the round trips go through and no customer row has the id,
    [get_customer] and [remove_customer] both raise the
    [CustomerNotFoundError] that carries the id, after a single read. *)
Theorem customer_not_found (cid : Z) (w : World) :
    calm 1 (faults w) = true ->
    first_row (customers_by_id cid (db w)) = None ->
    get_customer cid w
    = (Raise (CustomerNotFoundError cid), mkWorld (db w) (skipn 1 (faults w)))
    /\ remove_customer cid w
       = (Raise (CustomerNotFoundError cid), mkWorld (db w) (skipn 1 (faults w))).
Proof.
  intros Hcalm Hn.
  assert (H1 : steps (get_customer cid) (1 + 0) w (Raise (CustomerNotFoundError cid)) w).
  { unfold get_customer.
    eapply steps_bind; [apply steps_get_customer_by_id|]. rewrite Hn.
    apply steps_raise. }
  assert (H2 : steps (remove_customer cid) (1 + 0) w
                 (Raise (CustomerNotFoundError cid)) w).
  { unfold remove_customer.
    eapply steps_bind; [apply steps_get_customer_by_id|]. rewrite Hn.
    apply steps_raise. }
  specialize (H1 (faults w) Hcalm). specialize (H2 (faults w) Hcalm).
  destruct w as [d fs]. split; [exact H1 | exact H2].
Qed.


(** ** Stripping *)

Lemma rstrip_empty (s : string) : rstrip s = EmptyString <-> all_space s = true.
Proof.
  induction s as [|c s IH]; cbn [rstrip all_space]; [tauto|].
  destruct (rstrip s) as [|c' r].
  - destruct (is_space c); cbn [andb].
    + tauto.
    + split; discriminate.
  - split; [discriminate|]. intros H. apply andb_true_iff in H.
    destruct H as [_ H]. apply IH in H. discriminate.
Qed.

Lemma all_space_lstrip (s : string) : all_space (lstrip s) = all_space s.
Proof.
  induction s as [|c s IH]; [reflexivity|]. cbn [lstrip].
  destruct (is_space c) eqn:E; [|reflexivity].
  cbn [all_space]. rewrite E. exact IH.
Qed.

Lemma strip_empty (s : string) : strip s = EmptyString <-> all_space s = true.
Proof. unfold strip. rewrite rstrip_empty, all_space_lstrip. tauto. Qed.

Lemma is_blank_all_space (s : string) : is_blank s = all_space s.
Proof.
  unfold is_blank. destruct (all_space s) eqn:E.
  - apply strip_empty in E. rewrite E. apply orb_true_r.
  - apply orb_false_iff. split.
    + apply String.eqb_neq. intros ->. discriminate.
    + apply String.eqb_neq. intros H. apply strip_empty in H. congruence.
Qed.






(** ** The store stays well formed *)

(** X30: when the round trips go through, [create_order] and
    [cancel_order] keep the store well formed for all arguments, whether
    they return or raise: product ids stay unique, and the generated ids
    and the order dates stay below the counters and the clock. *)
Theorem orders_keep_store_well_formed (w : World) :
    quiet (faults w) = true ->
    wf_db (db w) = true ->
    (forall customer_id items,
       wf_db (db (snd (create_order customer_id items w))) = true)
    /\ (forall oid, wf_db (db (snd (cancel_order oid w))) = true).
Proof.
  intros Hq Hw. split.
  - intros customer_id items.
    pose proof (completes_create_order_rejects customer_id items w) as Hr.
    destruct (first_row (customers_by_id customer_id (db w))) as [c|] eqn:Hc.
    + destruct (admission (db w) items) as [lines|e] eqn:Ha.
      * rewrite (steps_quiet _ _ _ _ _ (steps_create_order _ _ _ _ _ Hc Ha Hw) Hq).
        cbn [snd db]. apply wf_placed, Hw.
      * destruct (completes_quiet _ _ _ _ Hr Hq) as (_ & E & _). rewrite E. exact Hw.
    + destruct (completes_quiet _ _ _ _ Hr Hq) as (_ & E & _). rewrite E. exact Hw.
  - intros oid.
    pose proof (completes_cancel_order_refused oid w) as Hr.
    destruct (first_row (orders_by_id oid (db w))) as [o|] eqn:Ho.
    + destruct (status o =? "PLACED")%string eqn:Est.
      * destruct (completes_quiet _ _ _ _
                    (completes_cancel_order_placed oid w o Ho Est) Hq) as (_ & E & _).
        rewrite E. cbn [db]. apply wf_cancelled, Hw.
      * destruct (completes_quiet _ _ _ _ (Hr eq_refl) Hq) as (_ & E & _).
        rewrite E. exact Hw.
    + destruct (completes_quiet _ _ _ _ Hr Hq) as (_ & E & _). rewrite E. exact Hw.
Qed.



(** ** Registration *)

Lemma from_store_read_cases {A B} (f : DB -> A) (g : A -> B) (r : Registry) :
    let w := reg_world r in
    from_store (resp <- query f ;; ret (g resp)) r
    = (if hd false (faults w) then Failed (FromStore StoreFault) else Done (g (f (db w))),
       mkRegistry (mkWorld (db w) (tl (faults w))) (next_cust_id r)).
Proof.
  cbv zeta. unfold from_store, bind, query, execute, gets, ret. cbn.
  destruct (hd false (faults (reg_world r))); reflexivity.
Qed.

Lemma from_store_query_cases {A} (f : DB -> A) (r : Registry) :
    let w := reg_world r in
    from_store (query f) r
    = (if hd false (faults w) then Failed (FromStore StoreFault) else Done (f (db w)),
       mkRegistry (mkWorld (db w) (tl (faults w))) (next_cust_id r)).
Proof.
  cbv zeta. unfold from_store, bind, query, execute, gets. cbn.
  destruct (hd false (faults (reg_world r))); reflexivity.
Qed.

Lemma calm_cons (c : nat) (fs : list bool) :
    calm (Datatypes.S c) fs = true -> hd false fs = false /\ calm c (tl fs) = true.
Proof.
  unfold calm. destruct fs as [|x fs]; cbn.
  - intros _. split; [reflexivity|]. destruct c; reflexivity.
  - intros H. apply andb_true_iff in H. destruct H as [Hx H].
    destruct x; [discriminate|]. split; [reflexivity | exact H].
Qed.

Lemma email_absent_then_last (email : string) (cs : list Customer) (c : Customer) :
    first_row (filter (fun x => (c_email x =? email)%string) cs) = None ->
    c_email c = email ->
    first_row (limit 1 (filter (fun x => (c_email x =? email)%string) (cs ++ [c])))
    = Some c.
Proof.
  intros Hn He. rewrite first_row_limit_1, filter_app.
  rewrite (filter_none _ cs) by (apply first_row_filter_none, Hn).
  cbn [app filter]. rewrite He, String.eqb_refl. reflexivity.
Qed.

(** X22: [register_customer] with a name, an email or a phone that is
    empty or made of whitespace only raises the [CustomerError] of the
    first such field, in the order name, email, phone, and makes no round
    trip: the store, its schedule and the counter are untouched. *)
Theorem register_customer_blank_field (name email phone : string)
    (city : option string) (r : Registry) :
    all_space name || all_space email || all_space phone = true ->
    register_customer name email phone city r
    = (Failed (CustomerErrorWith
                 (if all_space name then NameIsRequired
                  else if all_space email then EmailIsRequired
                  else PhoneIsRequired)),
       r).
Proof.
  intros Hb. unfold register_customer. rewrite !is_blank_all_space.
  destruct (all_space name); [reflexivity|].
  destruct (all_space email); [reflexivity|].
  destruct (all_space phone); [reflexivity | discriminate].
Qed.

(** X23: when name, email and phone are not blank, the read by email goes
    through and a customer row already has the stripped email,
    [register_customer] raises the [CustomerExistsError] that carries the
    email as it was given and the [cust_id] of that row; nothing is
    written and no key is taken. *)
Theorem register_customer_email_taken (name email phone : string)
    (city : option string) (r : Registry) (ex : Customer) :
    all_space name = false -> all_space email = false -> all_space phone = false ->
    hd false (faults (reg_world r)) = false ->
    first_row (customers_by_email (strip email) (db (reg_world r))) = Some ex ->
    let res := register_customer name email phone city r in
    fst res = Failed (CustomerExistsError email (cust_id ex))
    /\ db (reg_world (snd res)) = db (reg_world r)
    /\ next_cust_id (snd res) = next_cust_id r.
Proof.
  intros Hn He Hp Hh Hex res.
  assert (E : res = (Failed (CustomerExistsError email (cust_id ex)),
                     mkRegistry (mkWorld (db (reg_world r)) (tl (faults (reg_world r))))
                                (next_cust_id r))).
  { subst res. unfold register_customer. rewrite !is_blank_all_space, Hn, He, Hp.
    unfold rbind at 1. unfold get_customer_by_email.
    rewrite from_store_read_cases. cbv zeta. rewrite Hh, Hex. reflexivity. }
  rewrite E. repeat split.
Qed.

Lemma register_customer_run (name email phone : string) (city : option string)
    (d0 : DB) (fs : list bool) (n : Z) :
    all_space name = false -> all_space email = false -> all_space phone = false ->
    calm 3 fs = true ->
    first_row (customers_by_email (strip email) d0) = None ->
    register_customer name email phone city (mkRegistry (mkWorld d0 fs) n)
    = (Done (mkCustomer n (strip name) (strip email) (strip phone)
                        (payload_city (stripped_city city))),
       mkRegistry
         (mkWorld (insert_customer n (strip name) (strip email) (strip phone)
                     (payload_city (stripped_city city)) d0)
                  (tl (tl (tl fs))))
         (n + 1)).
Proof.
  intros Hn He Hp Hcalm Hex.
  set (row := mkCustomer n (strip name) (strip email) (strip phone)
                         (payload_city (stripped_city city))).
  apply calm_cons in Hcalm. destruct Hcalm as [H1 Hcalm].
  apply calm_cons in Hcalm. destruct Hcalm as [H2 Hcalm].
  apply calm_cons in Hcalm. destruct Hcalm as [H3 _].
  unfold register_customer. rewrite !is_blank_all_space, Hn, He, Hp.
  unfold rbind at 1. unfold get_customer_by_email.
  rewrite from_store_read_cases. cbv zeta.
  cbn [reg_world db faults next_cust_id]. rewrite H1, Hex.
  unfold rbind at 1. unfold create_customer. unfold rbind at 1.
  unfold insert_customer_trip, execute. cbn [reg_world db faults next_cust_id].
  rewrite H2. unfold rbind at 1.
  rewrite from_store_query_cases.
  cbv zeta. cbn [reg_world db faults next_cust_id]. rewrite H3.
  unfold rret. unfold customers_by_email at 1, insert_customer, set_customers.
  cbn [customers].
  unfold customers_by_email in Hex. rewrite first_row_limit_1 in Hex.
  pose proof (email_absent_then_last (strip email) (customers d0) row Hex eq_refl)
    as Hlast.
  unfold row in Hlast. rewrite Hlast. reflexivity.
Qed.


Lemma quiet_tl (fs : list bool) : quiet fs = true -> quiet (tl fs) = true.
Proof.
  destruct fs as [|x fs]; [intros _; reflexivity|]. unfold quiet. cbn [forallb tl].
  intros H. apply andb_true_iff in H. apply H.
Qed.

Lemma customers_by_id_last (n : Z) (cs : list Customer) (c : Customer) :
    (forall x, In x cs -> cust_id x < n) -> cust_id c = n ->
    first_row (limit 1 (filter (fun x => cust_id x =? n) (cs ++ [c]))) = Some c.
Proof.
  intros Hlt Hc. rewrite first_row_limit_1, filter_app.
  rewrite (filter_none _ cs).
  - cbn [app filter]. rewrite Hc, Z.eqb_refl. reflexivity.
  - intros x Hx. apply Z.eqb_neq. specialize (Hlt x Hx). lia.
Qed.

Lemma customers_by_id_inserted (n : Z) (name email phone : string)
    (city : option string) (d : DB) :
    (forall x, In x (customers d) -> cust_id x < n) ->
    first_row (customers_by_id n (insert_customer n name email phone city d))
    = Some (mkCustomer n name email phone city).
Proof.
  intros Hlt. unfold customers_by_id, insert_customer, set_customers. cbn [customers].
  exact (customers_by_id_last n (customers d)
           (mkCustomer n name email phone city) Hlt eq_refl).
Qed.

Lemma customers_by_email_inserted (n : Z) (name email phone : string)
    (city : option string) (d : DB) :
    first_row (customers_by_email email d) = None ->
    first_row (customers_by_email email (insert_customer n name email phone city d))
    = Some (mkCustomer n name email phone city).
Proof.
  intros Hex. unfold customers_by_email in *. rewrite first_row_limit_1 in Hex.
  unfold insert_customer, set_customers. cbn [customers].
  exact (email_absent_then_last email (customers d)
           (mkCustomer n name email phone city) Hex eq_refl).
Qed.

(** Whatever the schedule, [register_customer] either leaves the customers
    and the counter as they are, or found no row with the stripped email
    and appended the new row under the next key. *)
Lemma register_customer_effect (name email phone : string) (city : option string)
    (r : Registry) :
    let res := register_customer name email phone city r in
    (db (reg_world (snd res)) = db (reg_world r)
     /\ next_cust_id (snd res) = next_cust_id r)
    \/ (first_row (customers_by_email (strip email) (db (reg_world r))) = None
        /\ db (reg_world (snd res))
           = insert_customer (next_cust_id r) (strip name) (strip email) (strip phone)
               (payload_city (stripped_city city)) (db (reg_world r))
        /\ next_cust_id (snd res) = next_cust_id r + 1).
Proof.
  cbv zeta. destruct r as [[d0 fs] n]. cbn [reg_world db next_cust_id].
  remember (register_customer name email phone city (mkRegistry (mkWorld d0 fs) n))
    as res eqn:E.
  unfold register_customer in E.
  destruct (is_blank name); [subst res; left; split; reflexivity|].
  destruct (is_blank email); [subst res; left; split; reflexivity|].
  destruct (is_blank phone); [subst res; left; split; reflexivity|].
  unfold rbind at 1 in E. unfold get_customer_by_email in E.
  rewrite from_store_read_cases in E. cbv zeta in E.
  cbn [reg_world db faults next_cust_id] in E.
  destruct (hd false fs); [subst res; left; split; reflexivity|].
  destruct (first_row (customers_by_email (strip email) d0)) as [ex|] eqn:Hex;
    [subst res; left; split; reflexivity|].
  unfold rbind at 1 in E. unfold create_customer in E. unfold rbind at 1 in E.
  unfold insert_customer_trip, execute in E.
  cbn [reg_world db faults next_cust_id] in E.
  destruct (hd false (tl fs)); [subst res; left; split; reflexivity|].
  unfold rbind at 1 in E. rewrite from_store_query_cases in E. cbv zeta in E.
  cbn [reg_world db faults next_cust_id] in E.
  destruct (hd false (tl (tl fs))); [subst res; right; repeat split; reflexivity|].
  unfold rret in E.
  destruct (first_row _) in E; subst res; right; repeat split; reflexivity.
Qed.

(** X25: a second registration under an email that strips to the same
    string is refused. When the round trips go through and the first
    [register_customer] found the email free, a second call with non-blank
    fields and an email with the same stripped form raises the
    [CustomerExistsError] that carries the second email as given and the
    key handed to the first customer; it writes nothing and takes no key. *)
Theorem register_customer_twice (name email phone : string) (city : option string)
    (name2 email2 phone2 : string) (city2 : option string) (r : Registry) :
    all_space name = false -> all_space email = false -> all_space phone = false ->
    all_space name2 = false -> all_space email2 = false -> all_space phone2 = false ->
    quiet (faults (reg_world r)) = true ->
    first_row (customers_by_email (strip email) (db (reg_world r))) = None ->
    strip email2 = strip email ->
    let r1 := snd (register_customer name email phone city r) in
    let res := register_customer name2 email2 phone2 city2 r1 in
    fst res = Failed (CustomerExistsError email2 (next_cust_id r))
    /\ db (reg_world (snd res)) = db (reg_world r1)
    /\ next_cust_id (snd res) = next_cust_id r1.
Proof.
  intros Hn He Hp Hn2 He2 Hp2 Hq Hex Hsame r1 res.
  destruct r as [[d0 fs] n]. cbn [reg_world db faults next_cust_id] in *.
  assert (E1 : r1 = mkRegistry
                      (mkWorld (insert_customer n (strip name) (strip email) (strip phone)
                                  (payload_city (stripped_city city)) d0)
                               (tl (tl (tl fs))))
                      (n + 1)).
  { unfold r1. rewrite (register_customer_run _ _ _ _ _ _ _ Hn He Hp
                          (calm_quiet 3 fs Hq) Hex). reflexivity. }
  assert (Hh : hd false (tl (tl (tl fs))) = false).
  { pose proof (quiet_tl _ (quiet_tl _ (quiet_tl _ Hq))) as Hq3.
    destruct (tl (tl (tl fs))) as [|x l]; [reflexivity|].
    unfold quiet in Hq3. cbn [forallb] in Hq3. apply andb_true_iff in Hq3.
    destruct Hq3 as [Hx _]. destruct x; [discriminate | reflexivity]. }
  assert (E : res = (Failed (CustomerExistsError email2 n),
                     mkRegistry (mkWorld (db (reg_world r1)) (tl (faults (reg_world r1))))
                                (next_cust_id r1))).
  { subst res. unfold register_customer. rewrite !is_blank_all_space, Hn2, He2, Hp2.
    unfold rbind at 1. unfold get_customer_by_email.
    rewrite from_store_read_cases. cbv zeta. rewrite E1.
    cbn [reg_world db faults next_cust_id]. rewrite Hh, Hsame.
    unfold customers_by_email at 1, insert_customer, set_customers. cbn [customers].
    unfold customers_by_email in Hex. rewrite first_row_limit_1 in Hex.
    rewrite (email_absent_then_last (strip email) (customers d0)
               (mkCustomer n (strip name) (strip email) (strip phone)
                           (payload_city (stripped_city city))) Hex eq_refl).
    reflexivity. }
  rewrite E. repeat split.
Qed.

(** X26: under every schedule of faults and for all arguments,
    [register_customer] keeps the registry well formed: every key in
    [customers] is below the counter, and no two rows share an email. *)
Theorem register_customer_keeps_registry (name email phone : string)
    (city : option string) (r : Registry) :
    wf_registry r ->
    wf_registry (snd (register_customer name email phone city r)).
Proof.
  intros [Hlt Hnd].
  destruct (register_customer_effect name email phone city r)
    as [[Ed En] | (Hex & Ed & En)]; unfold wf_registry; rewrite Ed, En.
  - split; assumption.
  - unfold insert_customer, set_customers. cbn [customers]. split.
    + intros c Hin. apply in_app_iff in Hin. destruct Hin as [Hin | [<- | []]].
      * specialize (Hlt c Hin). lia.
      * cbn [cust_id]. lia.
    + rewrite map_app. cbn [map c_email].
      apply (Permutation_NoDup (Permutation_cons_append _ _)).
      constructor; [|exact Hnd].
      intros Hin. apply in_map_iff in Hin. destruct Hin as (x & Hx & Hin).
      unfold customers_by_email in Hex. rewrite first_row_limit_1 in Hex.
      pose proof (first_row_filter_none _ _ Hex x Hin) as Hf. cbn beta in Hf.
      rewrite Hx, String.eqb_refl in Hf. discriminate.
Qed.

(** X27: a registered customer can be read back. When the round trips go
    through on a well-formed registry and the email was free, after
    [register_customer] both [get_customer] of the new key and
    [get_customer_by_email] of the stripped email return the row that the
    registration returned. *)
Theorem register_customer_then_get (name email phone : string)
    (city : option string) (r : Registry) :
    all_space name = false -> all_space email = false -> all_space phone = false ->
    quiet (faults (reg_world r)) = true ->
    wf_registry r ->
    first_row (customers_by_email (strip email) (db (reg_world r))) = None ->
    let res := register_customer name email phone city r in
    exists row,
      fst res = Done row
      /\ fst (get_customer (next_cust_id r) (reg_world (snd res))) = Ok row
      /\ fst (get_customer_by_email (strip email) (reg_world (snd res))) = Ok (Some row).
Proof.
  intros Hn He Hp Hq [Hlt _] Hex res.
  destruct r as [[d0 fs] n]. cbn [reg_world db faults next_cust_id] in *.
  subst res. rewrite (register_customer_run _ _ _ _ _ _ _ Hn He Hp
                        (calm_quiet 3 fs Hq) Hex).
  cbn [fst snd reg_world]. eexists. split; [reflexivity|].
  set (row := mkCustomer n (strip name) (strip email) (strip phone)
                         (payload_city (stripped_city city))).
  set (w1 := mkWorld _ _).
  assert (Hq1 : quiet (faults w1) = true)
    by (exact (quiet_tl _ (quiet_tl _ (quiet_tl _ Hq)))).
  split.
  - assert (Hc : completes (get_customer n) w1 (Ok row) w1).
    { unfold get_customer.
      eapply completes_bind; [eexists; apply steps_get_customer_by_id|].
      unfold w1. cbn [db]. rewrite (customers_by_id_inserted _ _ _ _ _ _ Hlt).
      apply completes_ret. }
    destruct (completes_quiet _ _ _ _ Hc Hq1) as [F _]. exact F.
  - assert (Hc : completes (get_customer_by_email (strip email)) w1 (Ok (Some row)) w1).
    { unfold get_customer_by_email.
      eapply completes_bind; [apply completes_query|].
      unfold w1. cbn [db]. rewrite (customers_by_email_inserted _ _ _ _ _ _ Hex).
      apply completes_ret. }
    destruct (completes_quiet _ _ _ _ Hc Hq1) as [F _]. exact F.
Qed.

(** X28: registration followed by removal is a round trip on the
    [customers] table. When the round trips go through on a well-formed
    registry, the email was free and no order row names the next key,
    [remove_customer] of the key that [register_customer] handed out
    returns the registered row and leaves [customers] as it was before the
    registration; the key is not handed out again. *)
Theorem register_then_remove_customer (name email phone : string)
    (city : option string) (r : Registry) :
    all_space name = false -> all_space email = false -> all_space phone = false ->
    quiet (faults (reg_world r)) = true ->
    wf_registry r ->
    first_row (customers_by_email (strip email) (db (reg_world r))) = None ->
    orders_of_customer (next_cust_id r) (db (reg_world r)) = [] ->
    let res := register_customer name email phone city r in
    let out := remove_customer (next_cust_id r) (reg_world (snd res)) in
    exists row,
      fst res = Done row
      /\ fst out = Ok row
      /\ customers (db (snd out)) = customers (db (reg_world r))
      /\ next_cust_id (snd res) = next_cust_id r + 1.
Proof.
  intros Hn He Hp Hq [Hlt _] Hex Hown res out.
  destruct r as [[d0 fs] n]. cbn [reg_world db faults next_cust_id] in *.
  subst out res. rewrite (register_customer_run _ _ _ _ _ _ _ Hn He Hp
                            (calm_quiet 3 fs Hq) Hex).
  cbn [fst snd reg_world next_cust_id]. eexists. split; [reflexivity|].
  set (row := mkCustomer n (strip name) (strip email) (strip phone)
                         (payload_city (stripped_city city))).
  set (w1 := mkWorld _ _).
  assert (Hq1 : quiet (faults w1) = true)
    by (exact (quiet_tl _ (quiet_tl _ (quiet_tl _ Hq)))).
  assert (Hrow : first_row (customers_by_id n (db w1)) = Some row).
  { unfold w1. cbn [db]. exact (customers_by_id_inserted _ _ _ _ _ _ Hlt). }
  assert (Hc : completes (remove_customer n) w1 (Ok row)
                 (mkWorld (delete_customer_where n (db w1)) (faults w1))).
  { unfold remove_customer.
    eapply completes_bind; [eexists; apply steps_get_customer_by_id|]. rewrite Hrow.
    eapply completes_bind.
    { unfold list_orders_by_customer.
      eapply completes_bind; [apply completes_query | apply completes_ret]. }
    change (filter (fun o => o_cust_id o =? n) (orders (db w1)))
      with (orders_of_customer n d0).
    rewrite Hown. cbn [order_rows fold_right].
    eapply completes_bind.
    { unfold delete_customer.
      eapply completes_bind; [apply completes_query|].
      eapply completes_bind; [apply completes_command | apply completes_ret]. }
    rewrite Hrow. apply completes_ret. }
  destruct (completes_quiet _ _ _ _ Hc Hq1) as (F1 & F2 & _).
  rewrite F1, F2. split; [reflexivity|]. split; [|reflexivity].
  unfold delete_customer_where, w1, insert_customer, set_customers. cbn [db customers].
  rewrite filter_app. cbn [filter cust_id row]. rewrite Z.eqb_refl. cbn [negb].
  rewrite app_nil_r. apply filter_all.
  intros x Hx. apply negb_true_iff, Z.eqb_neq. specialize (Hlt x Hx). lia.
Qed.


End Model.

(** * Runs on the small shop, amounts in cents *)

(** C1: two lines for three widgets each pass the validation loop one by
    one against a stock of five; the order is created and the stock of the
    widget ends at minus one. *)
Theorem create_order_same_product_twice :
    let r := create_order 1 [mkRequested 7 3; mkRequested 7 3]
               (mkWorld (shop 1000 250) []) in
    fst r = Ok (mkOrder 1 1 6000 "PLACED" 0,
                [mkOrderItem 1 1 7 3 1000; mkOrderItem 2 1 7 3 1000])
    /\ products (db (snd r))
       = [mkProduct 7 "widget" 1000 (Some (-1)); mkProduct 8 "gadget" 250 (Some 2)]
    /\ stock_read (db (snd r)) 7 = Some (-1).
Proof. vm_compute. repeat split. Qed.

(** In the shop that holds an order of hers, [alice] cannot be removed. *)
Lemma remove_customer_guard_witness :
    fst (remove_customer 1 (mkWorld (shop_with_order 1000 250 3000 "PLACED") []))
    = Raise (CustomerDeleteError 1 1)
    /\ db (snd (remove_customer 1 (mkWorld (shop_with_order 1000 250 3000 "PLACED") [])))
       = shop_with_order 1000 250 3000 "PLACED".
Proof.
  exact (remove_customer_guard 1 (mkWorld (shop_with_order 1000 250 3000 "PLACED") [])
           alice eq_refl eq_refl).
Defined.

(** Cancelling the order for three widgets brings the widgets from two
    back to five. *)
Lemma cancel_order_restocks_witness :
    let w := mkWorld (shop_with_order 1000 250 3000 "PLACED") [] in
    fst (cancel_order 1 w) = Ok (Some (mkOrder 1 1 3000 "CANCELLED" 0))
    /\ stock_read (db (snd (cancel_order 1 w))) 7 = Some 5.
Proof.
  pose proof (cancel_order_restocks 1
                (mkWorld (shop_with_order 1000 250 3000 "PLACED") [])
                (mkOrder 1 1 3000 "PLACED" 0) eq_refl eq_refl) as H.
  cbv zeta in H. destruct H as (H1 & _ & H3 & _).
  split; [exact H1 | exact (H3 7)].
Defined.

(** An order of [alice] with no items. *)
Lemma create_order_empty_witness :
    fst (create_order 1 [] (mkWorld (shop 1000 250) []))
    = Ok (mkOrder 1 1 0 "PLACED" 0, [])
    /\ products (db (snd (create_order 1 [] (mkWorld (shop 1000 250) []))))
       = products (shop 1000 250).
Proof.
  pose proof (create_order_empty 1 (mkWorld (shop 1000 250) []) alice
                eq_refl eq_refl eq_refl) as H.
  cbv zeta in H. destruct H as (H1 & _ & _ & H4 & _).
  split; [exact H1 | exact H4].
Defined.

(** Nine widgets are asked for, five are in stock. *)
Lemma create_order_rejection_untouched_witness :
    fst (create_order 1 [mkRequested 7 9] (mkWorld (shop 1000 250) []))
    = Raise (OrderError (OutOfStock "widget" 5 9))
    /\ db (snd (create_order 1 [mkRequested 7 9] (mkWorld (shop 1000 250) [])))
       = shop 1000 250.
Proof.
  split; [reflexivity|].
  exact (create_order_rejection_untouched 1 [mkRequested 7 9]
           (mkWorld (shop 1000 250) []) (OrderError (OutOfStock "widget" 5 9))
           eq_refl eq_refl).
Defined.

(** The read of the second decrement raises, and so does the first read
    of the compensation: the caller gets the first exception, wrapped. *)
Lemma create_order_wraps_cause_witness :
    fst (create_order 1 [mkRequested 7 1; mkRequested 8 1]
           (mkWorld (shop 1000 250) (repeat false 10 ++ [true; true])))
    = Raise (OrderError (FailedToCreateOrder StoreFault)).
Proof.
  refine (create_order_wraps_cause 1 [mkRequested 7 1; mkRequested 8 1]
            (mkWorld (shop 1000 250) (repeat false 10 ++ [true; true]))
            (mkWorld (shop 1000 250) (repeat false 9 ++ [true; true]))
            (mkWorld (shop 1000 250) (repeat false 7 ++ [true; true]))
            alice (two_lines 1000 250) StoreFault (interrupted 1000 250 [true])
            eq_refl eq_refl eq_refl).
Defined.

(** C2, as the claim states it, fails on the shop: the read that starts
    the restoring of the stocks raises, and the compensation of the code
    stops there, with the order row and both item rows in the store and the
    two remaining round trips of the schedule not made; the compensation
    that attempts each action under its own guard deletes the three rows. *)
Lemma compensation_not_independent :
    let f := interrupted 1000 250 [true; false; false] in
    let code := snd (try_except rollback (fun _ => ret tt) f) in
    let spec := snd (rollback_independent f) in
    orders (db (world code)) = [mkOrder 1 1 1250 "PLACED" 0]
    /\ order_items (db (world code))
       = [mkOrderItem 1 1 7 1 1000; mkOrderItem 2 1 8 1 250]
    /\ faults (world code) = [false; false]
    /\ orders (db (world spec)) = []
    /\ order_items (db (world spec)) = []
    /\ faults (world spec) = [].
Proof. vm_compute. repeat split. Qed.

(** The same run, seen from the handler: it ends in the world in which
    the restoring read raised, two round trips short of the schedule. *)
Lemma compensation_stops_at_first_failure_witness :
    on_failure (A := (@Order Z * list (@OrderItem Z))%type) StoreFault
      (interrupted 1000 250 [true; false; false])
    = (Raise (OrderError (FailedToCreateOrder StoreFault)),
       with_world
         (mkWorld (db (world (interrupted 1000 250 [true; false; false])))
                  [false; false])
         (interrupted 1000 250 [true; false; false])).
Proof.
  refine (compensation_stops_at_first_failure StoreFault
            (interrupted 1000 250 [true; false; false]) StoreFault
            (mkWorld (shop 1000 250) [])
            (mkWorld (db (world (interrupted 1000 250 [true; false; false])))
                     [false; false])
            (or_introl eq_refl)).
Defined.

(** The scenario of the specification with two lines: the read of the
    second decrement raises, nothing else does. *)
Lemma create_order_decrement_fault_compensated_witness :
    let w := mkWorld (shop 1000 250) (repeat false 10 ++ [true]) in
    let res := create_order 1 [mkRequested 7 1; mkRequested 8 1] w in
    fst res = Raise (OrderError (FailedToCreateOrder StoreFault))
    /\ orders (db (snd res)) = []
    /\ order_items (db (snd res)) = []
    /\ products (db (snd res)) = products (shop 1000 250).
Proof.
  pose proof (create_order_decrement_fault_compensated 1
                [mkRequested 7 1; mkRequested 8 1]
                (mkWorld (shop 1000 250) (repeat false 10 ++ [true]))
                alice [mkLine 7 1 1000] (mkLine 8 1 250) [] 0%nat []
                eq_refl eq_refl eq_refl (or_introl eq_refl) eq_refl eq_refl) as H.
  cbv zeta in H. destruct H as (H1 & H2 & H3 & H4 & _).
  repeat split; assumption.
Defined.

(** Two widgets at 10.00: the total is 20.00, and raising the price of
    the widget to 15.00 afterwards changes neither the order nor its item. *)
Lemma create_order_total_and_prices_witness :
    total_amount (mkOrder 1 1 2000 "PLACED" 0)
    = items_total [mkOrderItem 1 1 7 2 1000]
    /\ fst (get_order 1
              (mkWorld
                 (db (snd (update_product 7 [SetPrice 1500]
                             (mkWorld
                                (db (snd (create_order 1 [mkRequested 7 2]
                                            (mkWorld (shop 1000 250) []))))
                                []))))
                 []))
       = Ok (Some (mkOrder 1 1 2000 "PLACED" 0, [mkOrderItem 1 1 7 2 1000])).
Proof.
  pose proof (create_order_total_and_prices 1 [mkRequested 7 2]
                (mkWorld (shop 1000 250) [])
                (snd (create_order 1 [mkRequested 7 2] (mkWorld (shop 1000 250) [])))
                (mkOrder 1 1 2000 "PLACED" 0) [mkOrderItem 1 1 7 2 1000]
                eq_refl eq_refl) as H.
  destruct H as (H1 & _ & H3).
  split; [exact H1 | exact (H3 7 [SetPrice 1500] [])].
Defined.

(** The proviso on the raising decrement is needed: when it is the
    re-read after the write of a decrement that raises, the write is in the
    store but not in the ledger, and the compensation leaves the widget at
    four. *)
Example decrement_written_then_raised :
    let res := create_order 1 [mkRequested 7 1; mkRequested 8 1]
                 (mkWorld (shop 1000 250) (repeat false 9 ++ [true])) in
    fst res = Raise (OrderError (FailedToCreateOrder StoreFault))
    /\ orders (db (snd res)) = []
    /\ order_items (db (snd res)) = []
    /\ stock_read (db (snd res)) 7 = Some 4.
Proof. vm_compute. repeat split. Qed.


(** * Runs of the further properties *)

Arguments Done {A} a.
Arguments Failed {A} e.

(** The one order of [alice] is what the listing returns. *)
Lemma list_orders_by_customer_newest_first_witness :
    let w := mkWorld (shop_with_order 1000 250 3000 "PLACED") [] in
    Permutation [mkOrder 1 1 3000 "PLACED" 0] (orders_of_customer 1 (db w))
    /\ StronglySorted (fun x y => order_date y <= order_date x)
         [mkOrder 1 1 3000 "PLACED" 0].
Proof.
  exact (list_orders_by_customer_newest_first 1
           (mkWorld (shop_with_order 1000 250 3000 "PLACED") [])
           [mkOrder 1 1 3000 "PLACED" 0] eq_refl).
Defined.

(** The order of [alice] comes with its item and with her row; there is
    no order 9. *)
Lemma get_order_details_outcome_witness :
    let w := mkWorld (shop_with_order 1000 250 3000 "PLACED") [] in
    fst (get_order_details 1 w)
    = Ok (mkOrder 1 1 3000 "PLACED" 0, [mkOrderItem 1 1 7 3 1000], Some alice)
    /\ fst (get_order_details 9 w) = Raise (OrderError OrderNotFound).
Proof.
  split.
  - exact (get_order_details_outcome 1
             (mkWorld (shop_with_order 1000 250 3000 "PLACED") []) eq_refl).
  - exact (get_order_details_outcome 9
             (mkWorld (shop_with_order 1000 250 3000 "PLACED") []) eq_refl).
Defined.

(** Deleting the order of [alice] returns its row and leaves neither the
    row nor its item. *)
Lemma delete_order_removes_witness :
    let r := delete_order 1 (mkWorld (shop_with_order 1000 250 3000 "PLACED") []) in
    fst r = Ok (Some (mkOrder 1 1 3000 "PLACED" 0))
    /\ orders_by_id 1 (db (snd r)) = []
    /\ items_of_order 1 (db (snd r)) = [].
Proof.
  pose proof (delete_order_removes 1
                (mkWorld (shop_with_order 1000 250 3000 "PLACED") []) eq_refl) as H.
  cbv zeta in H. destruct H as (H1 & H2 & H3 & _).
  split; [exact H1 | split; [exact H2 | exact H3]].
Defined.

(** The order of [alice] is marked as shipped. *)
Lemma update_order_status_outcome_witness :
    let r := update_order_status 1 "SHIPPED"
               (mkWorld (shop_with_order 1000 250 3000 "PLACED") []) in
    fst r = Ok (Some (mkOrder 1 1 3000 "SHIPPED" 0))
    /\ order_items (db (snd r)) = [mkOrderItem 1 1 7 3 1000].
Proof.
  pose proof (update_order_status_outcome 1 "SHIPPED"
                (mkWorld (shop_with_order 1000 250 3000 "PLACED") []) eq_refl) as H.
  cbv zeta in H. destruct H as (H1 & _ & _ & H4 & _).
  split; [exact H1 | exact H4].
Defined.

(** A cancelled order is refused, and the fault that the schedule holds
    for a third round trip is never met. *)
Lemma cancel_order_rejection_untouched_witness :
    let w := mkWorld (shop_with_order 1000 250 3000 "CANCELLED") [false; false; true] in
    db (snd (cancel_order 1 w)) = shop_with_order 1000 250 3000 "CANCELLED".
Proof.
  exact (cancel_order_rejection_untouched 1
           (mkWorld (shop_with_order 1000 250 3000 "CANCELLED") [false; false; true])
           OnlyPlacedCanBeCancelled eq_refl (or_intror eq_refl)).
Defined.

(** The second cancellation of the order of [alice] is refused. *)
Lemma cancel_order_twice_witness :
    let w1 := snd (cancel_order 1
                     (mkWorld (shop_with_order 1000 250 3000 "PLACED") [])) in
    fst (cancel_order 1 w1) = Raise (OrderError OnlyPlacedCanBeCancelled)
    /\ db (snd (cancel_order 1 w1)) = db w1.
Proof.
  exact (cancel_order_twice 1 (mkWorld (shop_with_order 1000 250 3000 "PLACED") [])
           (mkOrder 1 1 3000 "PLACED" 0) eq_refl eq_refl eq_refl).
Defined.

(** Three widgets are ordered and the order is cancelled: the products
    are those of the shop again. *)
Lemma create_then_cancel_restores_stock_witness :
    let w1 := snd (create_order 1 [mkRequested 7 3] (mkWorld (shop 1000 250) [])) in
    let r := cancel_order 1 w1 in
    fst r = Ok (Some (mkOrder 1 1 3000 "CANCELLED" 0))
    /\ products (db (snd r)) = products (shop 1000 250).
Proof.
  pose proof (create_then_cancel_restores_stock 1 [mkRequested 7 3]
                (mkWorld (shop 1000 250) []) alice [mkLine 7 3 1000]
                eq_refl eq_refl eq_refl eq_refl) as H.
  cbv zeta in H. destruct H as (H1 & H2 & _).
  split; [exact H1 | exact H2].
Defined.

(** The write of the status raises after the three widgets were put
    back: the order is still PLACED with the widgets at five, and the
    retry puts three more back. *)
Lemma cancel_order_status_fault_then_retry_witness :
    let w := mkWorld (shop_with_order 1000 250 3000 "PLACED")
               (repeat false 5 ++ [true]) in
    let r1 := cancel_order 1 w in
    let r2 := cancel_order 1 (snd r1) in
    fst r1 = Raise (OrderError (FailedToCancelOrder StoreFault))
    /\ first_row (orders_by_id 1 (db (snd r1))) = Some (mkOrder 1 1 3000 "PLACED" 0)
    /\ stock_read (db (snd r1)) 7 = Some 5
    /\ fst r2 = Ok (Some (mkOrder 1 1 3000 "CANCELLED" 0))
    /\ stock_read (db (snd r2)) 7 = Some 8.
Proof.
  pose proof (cancel_order_status_fault_then_retry 1
                (mkWorld (shop_with_order 1000 250 3000 "PLACED")
                   (repeat false 5 ++ [true]))
                (mkOrder 1 1 3000 "PLACED" 0) []
                eq_refl eq_refl eq_refl eq_refl) as H.
  cbv zeta in H. destruct H as (H1 & H2 & H3 & H4 & H5).
  split; [exact H1 | split; [exact H2 | split; [exact (H3 7) |
    split; [exact H4 | exact (H5 7)]]]].
Defined.

(** [alice] has an order: her removal raises and the shop is as it was. *)
Lemma remove_customer_raises_untouched_witness :
    db (snd (remove_customer 1 (mkWorld (shop_with_order 1000 250 3000 "PLACED") [])))
    = shop_with_order 1000 250 3000 "PLACED".
Proof.
  exact (remove_customer_raises_untouched 1
           (mkWorld (shop_with_order 1000 250 3000 "PLACED") [])
           (CustomerDeleteError 1 1) eq_refl).
Defined.

(** The same removal when the listing of her orders raises. *)
Lemma remove_customer_never_deletes_owner_witness :
    let w := mkWorld (shop_with_order 1000 250 3000 "PLACED") [false; true] in
    db (snd (remove_customer 1 w)) = shop_with_order 1000 250 3000 "PLACED".
Proof.
  refine (proj2 (remove_customer_never_deletes_owner 1
                   (mkWorld (shop_with_order 1000 250 3000 "PLACED") [false; true]) _)).
  intros E. discriminate E.
Defined.

(** One widget passes, nine gadgets do not; the unknown product 99 in the
    third line is not looked at, and the fault in fourth place is not met. *)
Lemma create_order_fails_fast_witness :
    create_order 1 [mkRequested 7 1; mkRequested 8 9; mkRequested 99 1]
      (mkWorld (shop 1000 250) [false; false; false; true])
    = (Raise (OrderError (OutOfStock "gadget" 2 9)), mkWorld (shop 1000 250) [true]).
Proof.
  exact (create_order_fails_fast 1 [mkRequested 7 1] (mkRequested 8 9)
           [mkRequested 99 1] (mkWorld (shop 1000 250) [false; false; false; true])
           alice [mkLine 7 1 1000] (OrderError (OutOfStock "gadget" 2 9))
           eq_refl eq_refl eq_refl eq_refl).
Defined.

(** Two lines for the widget, two and one: the widget goes from five to
    two, the gadget stays at two. *)
Lemma create_order_stock_accounting_witness :
    let d' := db (snd (create_order 1 [mkRequested 7 2; mkRequested 7 1]
                         (mkWorld (shop 1000 250) []))) in
    stock_read d' 7 = Some 2
    /\ stock_read d' 8 = Some 2
    /\ orders d' = [mkOrder 1 1 3000 "PLACED" 0].
Proof.
  pose proof (create_order_stock_accounting 1 [mkRequested 7 2; mkRequested 7 1]
                (mkWorld (shop 1000 250) []) alice [mkLine 7 2 1000; mkLine 7 1 1000]
                eq_refl eq_refl eq_refl eq_refl) as H.
  cbv zeta in H. destruct H as (H1 & H2 & _).
  split; [exact (H1 7) | split; [exact (H1 8) | exact H2]].
Defined.

(** The insert of the order row raises: nothing was written. *)
Lemma create_order_insert_fault_clean_witness :
    let res := create_order 1 [mkRequested 7 1]
                 (mkWorld (shop 1000 250) [false; false; true]) in
    fst res = Raise (OrderError (FailedToCreateOrder StoreFault))
    /\ orders (db (snd res)) = []
    /\ products (db (snd res)) = products (shop 1000 250).
Proof.
  pose proof (create_order_insert_fault_clean 1 [mkRequested 7 1]
                (mkWorld (shop 1000 250) [false; false; true]) alice [mkLine 7 1 1000]
                0%nat [] eq_refl eq_refl eq_refl (or_introl eq_refl) eq_refl eq_refl)
    as H.
  cbv zeta in H. destruct H as (H1 & H2 & _ & H4 & _).
  split; [exact H1 | split; [exact H2 | exact H4]].
Defined.

(** The read that follows the insert of the order row raises: the call
    raises and the order row stays. *)
Lemma create_order_reread_fault_leaves_order_witness :
    let res := create_order 1 [mkRequested 7 1]
                 (mkWorld (shop 1000 250) [false; false; false; true]) in
    fst res = Raise (OrderError (FailedToCreateOrder StoreFault))
    /\ orders (db (snd res)) = [mkOrder 1 1 1000 "PLACED" 0]
    /\ products (db (snd res)) = products (shop 1000 250).
Proof.
  pose proof (create_order_reread_fault_leaves_order 1 [mkRequested 7 1]
                (mkWorld (shop 1000 250) [false; false; false; true]) alice
                [mkLine 7 1 1000] [] eq_refl eq_refl eq_refl eq_refl) as H.
  cbv zeta in H. destruct H as (H1 & H2 & _ & H4 & _).
  split; [exact H1 | split; [exact H2 | exact H4]].
Defined.

(** The read that follows the insert of the item rows raises: the order
    row is deleted, the item row stays. *)
Lemma create_order_items_reread_fault_leaves_items_witness :
    let res := create_order 1 [mkRequested 7 1]
                 (mkWorld (shop 1000 250) (repeat false 5 ++ [true])) in
    fst res = Raise (OrderError (FailedToCreateOrder StoreFault))
    /\ orders (db (snd res)) = []
    /\ order_items (db (snd res)) = [mkOrderItem 1 1 7 1 1000].
Proof.
  pose proof (create_order_items_reread_fault_leaves_items 1 [mkRequested 7 1]
                (mkWorld (shop 1000 250) (repeat false 5 ++ [true])) alice
                [mkLine 7 1 1000] [] eq_refl eq_refl eq_refl eq_refl eq_refl) as H.
  cbv zeta in H. destruct H as (H1 & H2 & H3 & _).
  split; [exact H1 | split; [exact H2 | exact H3]].
Defined.

(** The new order of [alice] is read back with her row. *)
Lemma create_order_then_details_witness :
    let r := create_order 1 [mkRequested 7 2] (mkWorld (shop 1000 250) []) in
    exists o its,
      fst r = Ok (o, its)
      /\ order_id o = 1
      /\ fst (get_order_details (order_id o) (snd r)) = Ok (o, its, Some alice).
Proof.
  exact (create_order_then_details 1 [mkRequested 7 2] (mkWorld (shop 1000 250) [])
           alice [mkLine 7 2 1000] eq_refl eq_refl eq_refl eq_refl).
Defined.

(** A second order of [alice] is listed before her first. *)
Lemma create_order_then_listed_first_witness :
    let w1 := snd (create_order 1 [mkRequested 8 1]
                     (mkWorld (shop_with_order 1000 250 3000 "PLACED") [])) in
    fst (list_orders_by_customer 1 w1)
    = Ok [mkOrder 2 1 250 "PLACED" 1; mkOrder 1 1 3000 "PLACED" 0].
Proof.
  exact (create_order_then_listed_first 1 [mkRequested 8 1]
           (mkWorld (shop_with_order 1000 250 3000 "PLACED") []) alice
           [mkLine 8 1 250] eq_refl eq_refl eq_refl eq_refl).
Defined.

(** [alice] orders, cancels, and still cannot be removed. *)
Lemma cancelled_order_still_blocks_removal_witness :
    let w1 := snd (create_order 1 [mkRequested 7 1] (mkWorld (shop 1000 250) [])) in
    let w2 := snd (cancel_order 1 w1) in
    fst (remove_customer 1 w2) = Raise (CustomerDeleteError 1 1)
    /\ first_row (customers_by_id 1 (db (snd (remove_customer 1 w2)))) = Some alice.
Proof.
  exact (cancelled_order_still_blocks_removal 1 [mkRequested 7 1]
           (mkWorld (shop 1000 250) []) alice [mkLine 7 1 1000]
           eq_refl eq_refl eq_refl eq_refl).
Defined.

(** The row of [alice] is deleted under her order. *)
Lemma delete_customer_then_details_witness :
    let w1 := snd (delete_customer 1
                     (mkWorld (shop_with_order 1000 250 3000 "PLACED") [])) in
    fst (get_order_details 1 w1)
    = Ok (mkOrder 1 1 3000 "PLACED" 0, [mkOrderItem 1 1 7 3 1000], None).
Proof.
  exact (delete_customer_then_details 1
           (mkWorld (shop_with_order 1000 250 3000 "PLACED") [])
           (mkOrder 1 1 3000 "PLACED" 0) eq_refl eq_refl).
Defined.

(** There is no customer 5 in the shop. *)
Lemma customer_not_found_witness :
    get_customer 5 (mkWorld (shop 1000 250) [false; true])
    = (Raise (CustomerNotFoundError 5), mkWorld (shop 1000 250) [true])
    /\ remove_customer 5 (mkWorld (shop 1000 250) [false; true])
       = (Raise (CustomerNotFoundError 5), mkWorld (shop 1000 250) [true]).
Proof.
  exact (customer_not_found 5 (mkWorld (shop 1000 250) [false; true])
           eq_refl eq_refl).
Defined.

(** A name is given, the email is a tab and a space. *)
Lemma register_customer_blank_field_witness :
    let r := mkRegistry (mkWorld (shop 1000 250) [true]) 2 in
    register_customer "Bob" (String (ascii_of_nat 9) " ") "" None r
    = (Failed (CustomerErrorWith EmailIsRequired), r).
Proof.
  exact (register_customer_blank_field "Bob" (String (ascii_of_nat 9) " ") "" None
           (mkRegistry (mkWorld (shop 1000 250) [true]) 2) eq_refl).
Defined.

(** The email of [alice], with spaces around it, is taken. *)
Lemma register_customer_email_taken_witness :
    let r := mkRegistry (mkWorld (shop 1000 250) []) 2 in
    let res := register_customer "Al" " alice@example.org " "555-0199" None r in
    fst res = Failed (CustomerExistsError " alice@example.org " 1)
    /\ db (reg_world (snd res)) = shop 1000 250
    /\ next_cust_id (snd res) = 2.
Proof.
  exact (register_customer_email_taken "Al" " alice@example.org " "555-0199" None
           (mkRegistry (mkWorld (shop 1000 250) []) 2) alice
           eq_refl eq_refl eq_refl eq_refl eq_refl).
Defined.


(** Bob registers twice, the second time with a space after his email. *)
Lemma register_customer_twice_witness :
    let r := mkRegistry (mkWorld (shop 1000 250) []) 2 in
    let r1 := snd (register_customer "Bob" "bob@example.org" "555-0101" None r) in
    let res := register_customer "Robert" "bob@example.org " "555-0102" None r1 in
    fst res = Failed (CustomerExistsError "bob@example.org " 2)
    /\ db (reg_world (snd res)) = db (reg_world r1)
    /\ next_cust_id (snd res) = next_cust_id r1.
Proof.
  exact (register_customer_twice "Bob" "bob@example.org" "555-0101" None
           "Robert" "bob@example.org " "555-0102" None
           (mkRegistry (mkWorld (shop 1000 250) []) 2)
           eq_refl eq_refl eq_refl eq_refl eq_refl eq_refl eq_refl eq_refl eq_refl).
Defined.

Lemma wf_registry_shop (fs : list bool) :
    wf_registry (mkRegistry (mkWorld (shop 1000 250) fs) 2).
Proof.
  split.
  - intros c [<- | []]. reflexivity.
  - repeat constructor. intros [].
Defined.

(** The insert goes through and the read after it raises: Bob is in the
    table and the registry is well formed. *)
Lemma register_customer_keeps_registry_witness :
    wf_registry
      (snd (register_customer "Bob" "bob@example.org" "555-0101" None
              (mkRegistry (mkWorld (shop 1000 250) [false; false; true]) 2))).
Proof.
  exact (register_customer_keeps_registry "Bob" "bob@example.org" "555-0101" None
           (mkRegistry (mkWorld (shop 1000 250) [false; false; true]) 2)
           (wf_registry_shop [false; false; true])).
Defined.

(** Bob is read back by his key and by his email. *)
Lemma register_customer_then_get_witness :
    let r := mkRegistry (mkWorld (shop 1000 250) []) 2 in
    let res := register_customer "Bob" " bob@example.org" "555-0101" None r in
    exists row,
      fst res = Done row
      /\ fst (get_customer 2 (reg_world (snd res))) = Ok row
      /\ fst (get_customer_by_email "bob@example.org" (reg_world (snd res)))
         = Ok (Some row).
Proof.
  exact (register_customer_then_get "Bob" " bob@example.org" "555-0101" None
           (mkRegistry (mkWorld (shop 1000 250) []) 2)
           eq_refl eq_refl eq_refl eq_refl (wf_registry_shop []) eq_refl).
Defined.

(** Bob is registered and removed: [alice] is alone again, and the next
    key is 3. *)
Lemma register_then_remove_customer_witness :
    let r := mkRegistry (mkWorld (shop 1000 250) []) 2 in
    let res := register_customer "Bob" "bob@example.org" "555-0101" None r in
    let out := remove_customer 2 (reg_world (snd res)) in
    exists row,
      fst res = Done row
      /\ fst out = Ok row
      /\ customers (db (snd out)) = [alice]
      /\ next_cust_id (snd res) = 3.
Proof.
  exact (register_then_remove_customer "Bob" "bob@example.org" "555-0101" None
           (mkRegistry (mkWorld (shop 1000 250) []) 2)
           eq_refl eq_refl eq_refl eq_refl (wf_registry_shop []) eq_refl eq_refl).
Defined.

(** One widget and two gadgets, each named once: the gadgets end at zero. *)
Lemma create_order_distinct_products_stock_witness :
    stock_read
      (db (snd (create_order 1 [mkRequested 7 1; mkRequested 8 2]
                  (mkWorld (shop 1000 250) []))))
      8
    = Some 0.
Proof.
  refine (proj1 (create_order_distinct_products_stock 1
                   [mkRequested 7 1; mkRequested 8 2] (mkWorld (shop 1000 250) [])
                   alice [mkLine 7 1 1000; mkLine 8 2 250] 8 2
                   eq_refl eq_refl eq_refl eq_refl _ eq_refl _)).
  - repeat constructor; cbn; intuition discriminate.
  - discriminate.
Defined.

(** The shop after an order with a repeated product, and after the
    cancellation of an order that is not there, is well formed. *)
Lemma orders_keep_store_well_formed_witness :
    wf_db (db (snd (create_order 1 [mkRequested 7 3; mkRequested 7 3]
                      (mkWorld (shop 1000 250) []))))
    = true
    /\ wf_db (db (snd (cancel_order 4 (mkWorld (shop 1000 250) [])))) = true.
Proof.
  pose proof (orders_keep_store_well_formed (mkWorld (shop 1000 250) [])
                eq_refl eq_refl) as H.
  destruct H as [H1 H2].
  split; [exact (H1 1 [mkRequested 7 3; mkRequested 7 3]) | exact (H2 4)].
Defined.
